(** * SoapyLMS7 streaming path (LimeSuite/SoapyLMS7/Streaming.cpp)

    A shallow embedding of the stream lifecycle, the multi-channel
    alignment engine and the read/write/status entry points, followed by
    the properties established about them.  The handlers of the board
    controls panel (src/lms7002_wxgui/pnlBoardControls.cpp) that read and
    write the board parameters are embedded after the streaming path.

    Conventions.
    - [size_t] and [uint64_t] values are integers in [0, 2^64) (an LP64
      target); every C++ operation that can leave that range is written
      with [wrap64].  [int] values are integers, [int(x)] is [to_int].
    - A sample buffer ([char *]) is a list of cells, one cell per byte.
      In the alignment engine every cell carries the hardware tick of the
      sample it belongs to, so that "the buffer begins at tick t" can be
      read off the buffer itself.
    - The transport connection ([_conn]) and the RF chip are external.
      Every call made to them is recorded in a log, and every answer they
      give is taken from a script supplied by the environment, one answer
      per call, in call order.  A script that runs out stands for a
      transport that never answers. *)

From Stdlib Require Import ZArith List Bool Lia String QArith Sorted.
From stdpp Require Import base option list gmap strings.

Close Scope Q_scope.
Local Open Scope Z_scope.

(** ** Machine integers *)

Definition wrap64 (z : Z) : Z := z mod 2 ^ 64.

(** [int(x)] for a [size_t] x: two's complement truncation to 32 bits. *)
Definition to_int (z : Z) : Z := (z + 2 ^ 31) mod 2 ^ 32 - 2 ^ 31.

(** ** Constants of the SoapySDR headers (Constants.h, Errors.h, Formats.h)
    and of errno.h *)

Definition SOAPY_SDR_TX : Z := 0.
Definition SOAPY_SDR_RX : Z := 1.

Definition SOAPY_SDR_END_BURST : Z := Z.shiftl 1 1.
Definition SOAPY_SDR_HAS_TIME : Z := Z.shiftl 1 2.
Definition SOAPY_SDR_ONE_PACKET : Z := Z.shiftl 1 4.

Definition SOAPY_SDR_TIMEOUT : Z := -1.
Definition SOAPY_SDR_STREAM_ERROR : Z := -2.
Definition SOAPY_SDR_CORRUPTION : Z := -3.
Definition SOAPY_SDR_OVERFLOW : Z := -4.
Definition SOAPY_SDR_NOT_SUPPORTED : Z := -5.
Definition SOAPY_SDR_TIME_ERROR : Z := -6.

Definition SOAPY_SDR_CF32 : string := "CF32".
Definition SOAPY_SDR_CS16 : string := "CS16".
Definition SOAPY_SDR_CS12 : string := "CS12".

Definition EPERM : Z := 1.

(** ** Buffers *)

Section Buffers.
Context {A : Type}.

(** [std::memmove(buf + dst, buf + src, n)] inside one buffer.  Ranges
    that leave the buffer are undefined in C++; the model moves the part
    that exists. *)
Definition memmove (buf : list A) (dst src n : nat) : list A :=
  let moved := take n (drop src buf) in
  take dst buf ++ moved ++ drop (dst + length moved)%nat buf.

(** The transport writing [data] at byte offset [off]; the buffer keeps
    its capacity. *)
Definition store (buf : list A) (off : nat) (data : list A) : list A :=
  take off buf ++ take (length buf - off)%nat data
    ++ drop (off + length data)%nat buf.

(** [fastForward(buff, numWritten, elemSize, oldHeadTime, desiredHeadTime)]:
    returns the buffer and the updated [numWritten]. *)
Definition fastForward (buff : list A) (numWritten elemSize : Z)
    (oldHeadTime desiredHeadTime : Z) : list A * Z :=
  let numPop := Z.min (wrap64 (desiredHeadTime - oldHeadTime)) numWritten in
  let numMove := wrap64 (numWritten - numPop) in
  let numWritten' := wrap64 (numWritten - numPop) in
  (memmove buff 0 (Z.to_nat (wrap64 (numPop * elemSize)))
                  (Z.to_nat (wrap64 (numMove * elemSize))),
   numWritten').
End Buffers.

(** ** Stream data structure *)

Record StreamMetadata := mkMeta {
  timestamp : Z;
  hasTimestamp : bool;
  endOfBurst : bool;
  lateTimestamp : bool;
  packetDropped : bool
}.

(** Modelled from the spec: the [StreamMetadata] declaration (IConnection.h)
    is not part of the sources at hand; the spec lists its five fields, and
    a fresh block is taken to have tick 0 and every flag cleared.  The
    transport overwrites the block before any of it is read, so that no
    property below depends on these initial values. *)
Definition StreamMetadata_init : StreamMetadata :=
  mkMeta 0 false false false false.

Definition set_timestamp (md : StreamMetadata) (t : Z) : StreamMetadata :=
  mkMeta t (hasTimestamp md) (endOfBurst md) (lateTimestamp md) (packetDropped md).

Definition set_endOfBurst (md : StreamMetadata) (b : bool) : StreamMetadata :=
  mkMeta (timestamp md) (hasTimestamp md) b (lateTimestamp md) (packetDropped md).

Definition set_packetDropped (md : StreamMetadata) (b : bool) : StreamMetadata :=
  mkMeta (timestamp md) (hasTimestamp md) (endOfBurst md) (lateTimestamp md) b.

Record IConnectionStream := mkStream {
  ics_streamID : list Z;
  ics_direction : Z;
  ics_elemSize : Z;
  ics_elemMTU : Z;
  ics_enabled : bool;
  (* rx cmd requests *)
  ics_hasCmd : bool;
  ics_flags : Z;
  ics_timeNs : Z;
  ics_numElems : Z
}.

(** ** Transport scripts and call logs *)

(** Answer of [_conn->ReadStream]: the status and the metadata block as
    the transport leaves it.  A positive status [n] also delivers [n]
    samples, taken at ticks [timestamp], [timestamp + 1], ... *)
Record ReadReply := mkReply { rd_status : Z; rd_md : StreamMetadata }.

Record ReadCall := mkReadCall {
  rc_id : Z;          (* streamID[i] *)
  rc_offset : Z;      (* byte offset into buffs[i] *)
  rc_maxElems : Z;    (* numElems - N *)
  rc_timeoutMs : Z
}.

(** The cells of [n] samples of [elemSize] bytes starting at tick [ts]. *)
Definition samples (ts n elemSize : Z) : list Z :=
  flat_map (fun k => replicate (Z.to_nat elemSize) (wrap64 (ts + Z.of_nat k)))
           (seq 0 (Z.to_nat n)).

Definition cnt (numWritten : list Z) (i : nat) : Z := default 0 (numWritten !! i).
Definition bufAt (buffs : list (list Z)) (i : nat) : list Z := default [] (buffs !! i).

(** ** Stream alignment helper for multiple channels *)

Record AlignState := mkAlign {
  al_i : nat;
  al_numWritten : list Z;
  al_numElems : Z;
  al_requestTime : Z;
  al_md : StreamMetadata;
  al_buffs : list (list Z)
}.

Inductive LoopStep :=
| Continue (st : AlignState)
| Return (code : Z) (st : AlignState).

(** The increment of the [for]: [i += (numWritten[i]==numElems)?1:0]. *)
Definition forNext (st : AlignState) : AlignState :=
  let i := al_i st in
  mkAlign (if cnt (al_numWritten st) i =? al_numElems st then S i else i)
          (al_numWritten st) (al_numElems st) (al_requestTime st)
          (al_md st) (al_buffs st).

(** [for (j = 0; j < i; j++) fastForward(buffs[j], numWritten[j], ...)]. *)
Definition fastForwardPrior (elemSize requestTime ts : Z) (i : nat)
    (buffs : list (list Z)) (numWritten : list Z) : list (list Z) * list Z :=
  foldl (fun acc j =>
           let '(b, n) := fastForward (bufAt acc.1 j) (cnt acc.2 j) elemSize
                                      requestTime ts in
           (<[j:=b]> acc.1, <[j:=n]> acc.2))
        (buffs, numWritten) (seq 0 i).

(** One turn of the loop body, the increment included, on the answer [r]
    of its [ReadStream] call. *)
Definition alignBody (elemSize : Z) (r : ReadReply) (st : AlignState) : LoopStep :=
  let i := al_i st in
  let requestTime := al_requestTime st in
  let numElems := al_numElems st in
  let N := cnt (al_numWritten st) i in
  let expectedTime := wrap64 (requestTime + N) in
  let status := rd_status r in
  let md := rd_md r in
  if status =? 0 then
    Return SOAPY_SDR_TIMEOUT
      (mkAlign i (al_numWritten st) numElems requestTime md (al_buffs st))
  else if status <? 0 then
    Return SOAPY_SDR_STREAM_ERROR
      (mkAlign i (al_numWritten st) numElems requestTime md (al_buffs st))
  else
    let buf := store (bufAt (al_buffs st) i) (Z.to_nat (wrap64 (elemSize * N)))
                     (samples (timestamp md) status elemSize) in
    (* update accounting *)
    let elemsRead := wrap64 status in
    let prevN := N in
    let N := wrap64 (N + elemsRead) in
    let numWritten := <[i:=N]> (al_numWritten st) in
    let buffs := <[i:=buf]> (al_buffs st) in
    let updateHead i numWritten buffs :=
      Continue (forNext (mkAlign i numWritten elemsRead (timestamp md) md buffs)) in
    (* unspecified request time, set the new head condition *)
    if requestTime =? 0 then updateHead i numWritten buffs
    (* good contiguous read, read again for remainder *)
    else if expectedTime =? timestamp md then
      Continue (forNext (mkAlign i numWritten numElems requestTime md buffs))
    (* request time is later, fast forward buffer *)
    else if timestamp md <? expectedTime then
      if negb (prevN =? 0) then
        Return SOAPY_SDR_CORRUPTION
          (mkAlign i numWritten numElems requestTime md buffs)
      else
        let '(buf, N) := fastForward buf N elemSize (timestamp md) requestTime in
        let numElems := if Nat.eqb i 0 && negb (N =? 0) then N else numElems in
        Continue (forNext (mkAlign i (<[i:=N]> numWritten) numElems requestTime md
                                   (<[i:=buf]> buffs)))
    (* overflow in the middle of a contiguous buffer:
       fast-forward all prior channels and restart loop *)
    else if expectedTime <? timestamp md then
      let '(buffs, numWritten) :=
        fastForwardPrior elemSize requestTime (timestamp md) i buffs numWritten in
      let '(buf, N) := fastForward buf N elemSize
                                   (wrap64 (timestamp md - prevN)) (timestamp md) in
      updateHead 0%nat (<[i:=N]> numWritten) (<[i:=buf]> buffs)
    else updateHead i numWritten buffs.

Record AlignOut := mkAlignOut {
  ao_status : Z;
  ao_state : AlignState;
  ao_calls : list ReadCall;
  ao_rest : list ReadReply
}.

Fixpoint alignLoop (ids : list Z) (elemSize timeoutMs : Z)
    (script : list ReadReply) (st : AlignState) (calls : list ReadCall)
    : option AlignOut :=
  if (length ids <=? al_i st)%nat then
    Some (mkAlignOut (to_int (al_numElems st))
            (mkAlign (al_i st) (al_numWritten st) (al_numElems st)
                     (al_requestTime st)
                     (set_timestamp (al_md st) (al_requestTime st))
                     (al_buffs st))
            calls script)
  else
    match script with
    | [] => None
    | r :: script' =>
        let N := cnt (al_numWritten st) (al_i st) in
        let call := mkReadCall (default 0 (ids !! al_i st))
                               (wrap64 (elemSize * N))
                               (wrap64 (al_numElems st - N)) timeoutMs in
        match alignBody elemSize r st with
        | Return code st' => Some (mkAlignOut code st' (calls ++ [call]) script')
        | Continue st' =>
            alignLoop ids elemSize timeoutMs script' st' (calls ++ [call])
        end
    end.

Definition _readStreamAligned (stream : IConnectionStream)
    (buffs : list (list Z)) (numElems requestTime : Z) (md : StreamMetadata)
    (timeoutMs : Z) (script : list ReadReply) : option AlignOut :=
  let streamID := ics_streamID stream in
  let numWritten := replicate (length streamID) 0 in
  alignLoop streamID (ics_elemSize stream) timeoutMs script
            (mkAlign 0 numWritten numElems requestTime md buffs) [].

(** ** External library functions

    [SoapySDR::timeNsToTicks], [SoapySDR::ticksToTimeNs],
    [SoapySDR::formatToSize], [std::stoul] and [std::stof] belong to
    libraries outside the repository; the model takes them as given.  The
    two parsers answer [None] where the C++ ones throw.  Floating point
    values (rates, latencies, bandwidths) are modelled by rationals. *)
Record SoapyLib := mkLib {
  timeNsToTicks : Z -> Q -> Z;
  ticksToTimeNs : Z -> Q -> Z;
  formatToSize : string -> Z;
  stoul : string -> option Z;
  stof : string -> option Q
}.

(** ** Stream API: readStream *)

Definition set_hasCmd (s : IConnectionStream) (b : bool) : IConnectionStream :=
  mkStream (ics_streamID s) (ics_direction s) (ics_elemSize s) (ics_elemMTU s)
           (ics_enabled s) b (ics_flags s) (ics_timeNs s) (ics_numElems s).

Definition set_flags (s : IConnectionStream) (f : Z) : IConnectionStream :=
  mkStream (ics_streamID s) (ics_direction s) (ics_elemSize s) (ics_elemMTU s)
           (ics_enabled s) (ics_hasCmd s) f (ics_timeNs s) (ics_numElems s).

Definition set_numElems (s : IConnectionStream) (n : Z) : IConnectionStream :=
  mkStream (ics_streamID s) (ics_direction s) (ics_elemSize s) (ics_elemMTU s)
           (ics_enabled s) (ics_hasCmd s) (ics_flags s) (ics_timeNs s) n.

Definition set_enabled (s : IConnectionStream) (b : bool) : IConnectionStream :=
  mkStream (ics_streamID s) (ics_direction s) (ics_elemSize s) (ics_elemMTU s)
           b (ics_hasCmd s) (ics_flags s) (ics_timeNs s) (ics_numElems s).

Definition has_flag (flags bit : Z) : bool := negb (Z.land flags bit =? 0).

Record ReadResult := mkReadResult {
  rr_ret : Z;
  rr_stream : IConnectionStream;
  rr_flags : Z;      (* int &flags *)
  rr_timeNs : Z;     (* long long &timeNs *)
  rr_buffs : list (list Z);
  rr_calls : list ReadCall;
  rr_rest : list ReadReply;
  (* what _readStreamAligned came back with, when it was called *)
  rr_aligned : option (Z * StreamMetadata)
}.

(** The element count handed to the alignment helper (the one packet flag
    clips it to the MTU). *)
Definition readStream_request (icstream : IConnectionStream)
    (numElems flags : Z) : Z :=
  if has_flag flags SOAPY_SDR_ONE_PACKET
  then Z.min numElems (ics_elemMTU icstream) else numElems.

Definition readStream_cmdTicks (lib : SoapyLib) (rate : Q)
    (icstream : IConnectionStream) : Z :=
  if has_flag (ics_flags icstream) SOAPY_SDR_HAS_TIME
  then wrap64 (timeNsToTicks lib (ics_timeNs icstream) rate) else 0.

(** What [readStream] does once [_readStreamAligned] has returned a
    non-negative [status]: the time check, the burst accounting and the
    output metadata.  Yields the return value, the stream, and the output
    [flags] and [timeNs]. *)
Definition readStream_finish (lib : SoapyLib) (rate : Q)
    (icstream : IConnectionStream) (cmdTicks status : Z)
    (metadata : StreamMetadata) (flags timeNs : Z)
    : Z * IConnectionStream * Z * Z :=
  let timed := has_flag (ics_flags icstream) SOAPY_SDR_HAS_TIME
               && hasTimestamp metadata in
  (* our request time is now late, clear command and return error code *)
  if timed && (cmdTicks <? timestamp metadata) then
    (SOAPY_SDR_TIME_ERROR, set_hasCmd icstream false, flags, timeNs)
  (* _readStreamAligned should guarantee this condition *)
  else if timed && negb (cmdTicks =? timestamp metadata) then
    (SOAPY_SDR_STREAM_ERROR, icstream, flags, timeNs)
  else
    let icstream :=
      if timed
      then set_flags icstream
             (Z.land (ics_flags icstream) (Z.lnot SOAPY_SDR_HAS_TIME))
      else icstream in
    (* handle finite burst request commands *)
    let '(status, icstream, metadata) :=
      if negb (ics_numElems icstream =? 0) then
        let status := Z.min status (ics_numElems icstream) in
        let icstream :=
          set_numElems icstream (wrap64 (ics_numElems icstream - status)) in
        if ics_numElems icstream =? 0
        then (status, set_hasCmd icstream false, set_endOfBurst metadata true)
        else (status, icstream, metadata)
      else (status, icstream, metadata) in
    (* output metadata *)
    let flags := 0 in
    let flags := if endOfBurst metadata
                 then Z.lor flags SOAPY_SDR_END_BURST else flags in
    let flags := if hasTimestamp metadata
                 then Z.lor flags SOAPY_SDR_HAS_TIME else flags in
    let timeNs := ticksToTimeNs lib (timestamp metadata) rate in
    ((if 0 <=? status then status else SOAPY_SDR_STREAM_ERROR),
     icstream, flags, timeNs).

Definition readStream (lib : SoapyLib) (rate : Q)
    (icstream : IConnectionStream) (buffs : list (list Z))
    (numElems flags timeNs timeoutUs : Z) (script : list ReadReply)
    : option ReadResult :=
  (* wait for a command from activate stream up to the timeout specified *)
  if negb (ics_hasCmd icstream) then
    Some (mkReadResult SOAPY_SDR_TIMEOUT icstream flags timeNs buffs [] script
                       None)
  else
    (* handle the one packet flag by clipping *)
    let numElems := readStream_request icstream numElems flags in
    let cmdTicks := readStream_cmdTicks lib rate icstream in
    out ← _readStreamAligned icstream buffs numElems cmdTicks
             StreamMetadata_init (Z.quot timeoutUs 1000) script;
    let status := ao_status out in
    let metadata := al_md (ao_state out) in
    let buffs := al_buffs (ao_state out) in
    if status <? 0 then
      Some (mkReadResult status icstream flags timeNs buffs
                         (ao_calls out) (ao_rest out) (Some (status, metadata)))
    else
      let '(ret, icstream, flags, timeNs) :=
        readStream_finish lib rate icstream cmdTicks status metadata
                          flags timeNs in
      Some (mkReadResult ret icstream flags timeNs buffs
                         (ao_calls out) (ao_rest out) (Some (status, metadata))).

(** Successive [readStream] calls on one stream. *)
Record ReadArgs := mkReadArgs {
  ra_buffs : list (list Z);
  ra_numElems : Z;
  ra_flags : Z;
  ra_timeNs : Z;
  ra_timeoutUs : Z;
  ra_script : list ReadReply
}.

Fixpoint readStream_run (lib : SoapyLib) (rate : Q)
    (icstream : IConnectionStream) (calls : list ReadArgs)
    : option (list ReadResult) :=
  match calls with
  | [] => Some []
  | c :: calls' =>
      r ← readStream lib rate icstream (ra_buffs c) (ra_numElems c)
             (ra_flags c) (ra_timeNs c) (ra_timeoutUs c) (ra_script c);
      rs ← readStream_run lib rate (rr_stream r) calls';
      Some (r :: rs)
  end.


(** ** Stream API: writeStream *)

Record WriteCall := mkWriteCall {
  wc_id : Z;
  wc_numElems : Z;
  wc_timeoutMs : Z;
  wc_md : StreamMetadata
}.

(** The loop over channels 1, 2, ...: [ids] are the stream ids left to
    write, [script] the statuses the transport answers with. *)
Fixpoint writeRest (ids : list Z) (status : Z) (metadata : StreamMetadata)
    (script : list Z) (calls : list WriteCall) : option (Z * list WriteCall) :=
  match ids with
  | [] => Some (status, calls)
  | id :: ids' =>
      match script with
      | [] => None
      | status_i :: script' =>
          let calls := calls ++ [mkWriteCall id (wrap64 status) 1000 metadata] in
          if negb (status_i =? status)
          then Some (SOAPY_SDR_CORRUPTION, calls)
          else writeRest ids' status metadata script' calls
      end
  end.

Definition writeStream (lib : SoapyLib) (rate : Q)
    (icstream : IConnectionStream) (numElems flags timeNs timeoutUs : Z)
    (script : list Z) : option (Z * list WriteCall) :=
  let streamID := ics_streamID icstream in
  (* input metadata *)
  let metadata :=
    mkMeta (wrap64 (timeNsToTicks lib timeNs rate))
           (has_flag flags SOAPY_SDR_HAS_TIME)
           (has_flag flags SOAPY_SDR_END_BURST) false false in
  (* write the 0th channel: get number of samples written *)
  match script with
  | [] => None
  | status :: script' =>
      let calls := [mkWriteCall (default 0 (streamID !! 0%nat)) numElems
                                (Z.quot timeoutUs 1000) metadata] in
      if status =? 0 then Some (SOAPY_SDR_TIMEOUT, calls)
      else if status <? 0 then Some (SOAPY_SDR_STREAM_ERROR, calls)
      else writeRest (drop 1 streamID) status metadata script' calls
  end.

(** ** Stream API: readStreamStatus *)

(** Answer of [_conn->ReadStreamStatus], with the value [GetLastError()]
    has afterwards. *)
Record StatusReply := mkStatusReply {
  sr_ret : Z;
  sr_lastError : Z;
  sr_md : StreamMetadata
}.

(** [if (direction == SOAPY_SDR_TX) metadata.packetDropped = false;] *)
Definition maskDropped (direction : Z) (metadata : StreamMetadata)
    : StreamMetadata :=
  if direction =? SOAPY_SDR_TX
  then set_packetDropped metadata false else metadata.

(** [metadata.endOfBurst || metadata.lateTimestamp || metadata.packetDropped] *)
Definition hasEvent (metadata : StreamMetadata) : bool :=
  endOfBurst metadata || lateTimestamp metadata || packetDropped metadata.

Inductive PollRound :=
| Found (md : StreamMetadata)
| Failed (code : Z)
| NoEvent (md : StreamMetadata) (rest : list StatusReply)
| Starved.

(** One pass of [for (auto i : streamID)]. *)
Fixpoint pollChannels (direction : Z) (ids : list Z)
    (script : list StatusReply) (metadata : StreamMetadata) : PollRound :=
  match ids with
  | [] => NoEvent metadata script
  | _ :: ids' =>
      match script with
      | [] => Starved
      | r :: script' =>
          if negb (sr_ret r =? 0) then
            (* handle the default not implemented case and return not supported *)
            Failed (if sr_lastError r =? EPERM
                    then SOAPY_SDR_NOT_SUPPORTED else SOAPY_SDR_TIMEOUT)
          else
            let metadata := sr_md r in
            (* packet dropped doesnt mean anything for tx streams *)
            let metadata := maskDropped direction metadata in
            (* stop when event is detected *)
            if hasEvent metadata
            then Found metadata
            else pollChannels direction ids' script' metadata
      end
  end.

Record StatusResult := mkStatusResult {
  st_ret : Z;
  st_flags : Z;     (* int &flags *)
  st_timeNs : Z     (* long long &timeNs *)
}.

(** The [while (1)] loop.  [clock] holds, for every polling round that
    ends without an event, the outcome of the wall-clock test
    [seconds.count() > timeoutUs/1e6]. *)
Fixpoint statusLoop (lib : SoapyLib) (rate : Q) (direction : Z) (ids : list Z)
    (timeNs : Z) (clock : list bool) (script : list StatusReply)
    (metadata : StreamMetadata) : option StatusResult :=
  match pollChannels direction ids script metadata with
  | Starved => None
  | Failed code => Some (mkStatusResult code 0 timeNs)
  | Found metadata =>
      let timeNs := ticksToTimeNs lib (timestamp metadata) rate in
      (* output metadata *)
      let flags := 0 in
      let flags := if endOfBurst metadata
                   then Z.lor flags SOAPY_SDR_END_BURST else flags in
      let flags := if hasTimestamp metadata
                   then Z.lor flags SOAPY_SDR_HAS_TIME else flags in
      if lateTimestamp metadata
      then Some (mkStatusResult SOAPY_SDR_TIME_ERROR flags timeNs)
      else if packetDropped metadata
      then Some (mkStatusResult SOAPY_SDR_OVERFLOW flags timeNs)
      else Some (mkStatusResult 0 flags timeNs)
  | NoEvent metadata script' =>
      (* check timeout *)
      match clock with
      | [] => None
      | expired :: clock' =>
          if expired then Some (mkStatusResult SOAPY_SDR_TIMEOUT 0 timeNs)
          else statusLoop lib rate direction ids timeNs clock' script' metadata
      end
  end.

Definition readStreamStatus (lib : SoapyLib) (rate : Q)
    (icstream : IConnectionStream) (timeNs : Z) (clock : list bool)
    (script : list StatusReply) : option StatusResult :=
  statusLoop lib rate (ics_direction icstream) (ics_streamID icstream)
             timeNs clock script StreamMetadata_init.

(** ** Driver state *)

(** [std::set<std::pair<int, size_t>>]: kept as the strictly increasing
    list of its members, [begin()] being the head. *)
Definition pair_lt (a b : Z * Z) : bool :=
  (a.1 <? b.1) || ((a.1 =? b.1) && (a.2 <? b.2)).

Fixpoint set_emplace (x : Z * Z) (s : list (Z * Z)) : list (Z * Z) :=
  match s with
  | [] => [x]
  | y :: s' =>
      if pair_lt x y then x :: s
      else if pair_lt y x then y :: set_emplace x s'
      else s
  end.

Record SoapyLMS7 := mkDevice {
  _deviceArgs : gmap string string;
  _actualBw : gmap Z (gmap Z Q);
  _channelsToCal : list (Z * Z)
}.

Definition set_channelsToCal (dev : SoapyLMS7) (s : list (Z * Z)) : SoapyLMS7 :=
  mkDevice (_deviceArgs dev) (_actualBw dev) s.

(** Calls made to the RF chips and to the transport's stream control. *)
Inductive Event :=
| CalibrateRx (ch : Z) (bw : Q)
| CalibrateTx (ch : Z) (bw : Q)
| Modify_SPI_Reg_bits (ch : Z) (param : string) (value : Z)
| ControlStream (id : Z) (enable : bool)
| CloseStream (id : Z).

(** ** Stream config: setupStream *)

Inductive StreamFormat :=
| STREAM_COMPLEX_FLOAT32
| STREAM_12_BIT_IN_16
| STREAM_12_BIT_COMPRESSED.

Record StreamConfig := mkConfig {
  isTx : bool;
  channelID : Z;
  performanceLatency : Q;
  bufferLength : Z;
  format : StreamFormat
}.

(** Answer of [_conn->SetupStream] (status and the id it assigns) and of
    the [_conn->GetStreamSize] that follows a successful one. *)
Record SetupReply := mkSetupReply {
  su_status : Z;
  su_streamID : Z;
  su_streamSize : Z
}.

Record SetupResult := mkSetupResult {
  so_stream : option IConnectionStream;   (* None: an exception left the call *)
  so_configs : list StreamConfig;         (* every config given to SetupStream *)
  so_dev : SoapyLMS7
}.

Definition format_of (fmt : string) : option StreamFormat :=
  if String.eqb fmt SOAPY_SDR_CF32 then Some STREAM_COMPLEX_FLOAT32
  else if String.eqb fmt SOAPY_SDR_CS16 then Some STREAM_12_BIT_IN_16
  else if String.eqb fmt SOAPY_SDR_CS12 then Some STREAM_12_BIT_COMPRESSED
  else None.

(** [if (l < 0) l = 0; else if (l > 1) l = 1;] *)
Definition clampLatency (l : Q) : Q :=
  if negb (Qle_bool 0 l) then 0%Q
  else if negb (Qle_bool l 1) then 1%Q
  else l.

(** The configuration of one channel, as it stands when [SetupStream] is
    called; [None] when a parser or the format test throws. *)
Definition channelConfig (lib : SoapyLib) (dev : SoapyLMS7) (fmt : string)
    (args : gmap string string) (config : StreamConfig) (ch : Z)
    : option StreamConfig :=
  f ← format_of fmt;
  (* optional buffer length if specified (from device args) *)
  len ← match _deviceArgs dev !!
                (if isTx config then "txBufferLength" else "rxBufferLength")%string with
        | Some v => stoul lib v
        | None => Some (bufferLength config)
        end;
  (* optional buffer length if specified (takes precedent) *)
  len ← match args !! "bufferLength"%string with
        | Some v => stoul lib v
        | None => Some len
        end;
  (* optional packets latency, 1-maximum throughput, 0-lowest latency *)
  lat ← match args !! "latency"%string with
        | Some v =>
            l ← stof lib v;
            Some (clampLatency l)
        | None => Some (performanceLatency config)
        end;
  (* config.performanceLatency = 0.0; //SID *)
  let lat := 0%Q in
  Some (mkConfig (isTx config) ch lat len f).

Fixpoint setupChannels (lib : SoapyLib) (dev : SoapyLMS7) (fmt : string)
    (args : gmap string string) (channelIDs : list Z) (config : StreamConfig)
    (stream : IConnectionStream) (script : list SetupReply)
    (configs : list StreamConfig)
    : option (option IConnectionStream * list StreamConfig) :=
  match channelIDs with
  | [] => Some (Some stream, configs)
  | ch :: channelIDs' =>
      match channelConfig lib dev fmt args config ch with
      | None => Some (None, configs)
      | Some config =>
          (* create the stream *)
          match script with
          | [] => None
          | r :: script' =>
              let configs := configs ++ [config] in
              if negb (su_status r =? 0) then Some (None, configs)
              else
                let stream :=
                  mkStream (ics_streamID stream ++ [su_streamID r])
                           (ics_direction stream) (ics_elemSize stream)
                           (su_streamSize r) false
                           (ics_hasCmd stream) (ics_flags stream)
                           (ics_timeNs stream) (ics_numElems stream) in
                setupChannels lib dev fmt args channelIDs' config stream
                              script' configs
          end
      end
  end.

(** [config0] is the default-constructed [StreamConfig]; [stream0] stands
    for the fields [new IConnectionStream] leaves unset. *)
Definition setupStream (lib : SoapyLib) (dev : SoapyLMS7)
    (config0 : StreamConfig) (stream0 : IConnectionStream)
    (direction : Z) (fmt : string) (channels : list Z)
    (args : gmap string string) (script : list SetupReply)
    : option SetupResult :=
  (* store result into opaque stream object *)
  let stream :=
    mkStream [] direction (formatToSize lib fmt) (ics_elemMTU stream0)
             (ics_enabled stream0) false (ics_flags stream0)
             (ics_timeNs stream0) (ics_numElems stream0) in
  let config :=
    mkConfig (direction =? SOAPY_SDR_TX) (channelID config0) (1 # 2)
             (bufferLength config0) (format config0) in
  (* default to channel 0, if none were specified *)
  let channelIDs := match channels with [] => [0] | _ => channels end in
  r ← setupChannels lib dev fmt args channelIDs config stream script [];
  match r.1 with
  | None => Some (mkSetupResult None r.2 dev)
  | Some stream =>
      (* calibrate these channels when activated *)
      let toCal := foldl (fun s ch => set_emplace (direction, ch) s)
                         (_channelsToCal dev) channelIDs in
      Some (mkSetupResult (Some stream) r.2 (set_channelsToCal dev toCal))
  end.

Definition getStreamMTU (icstream : IConnectionStream) : Z := ics_elemMTU icstream.

(** ** activateStream, deactivateStream, closeStream *)

(** [for (auto i : streamID) { status = ControlStream(i, enable);
    if (status != 0) return SOAPY_SDR_STREAM_ERROR; }]: whether every call
    succeeded, and the calls made. *)
Fixpoint controlAll (enable : bool) (ids : list Z) (script : list Z)
    : option (bool * list Event) :=
  match ids with
  | [] => Some (true, [])
  | i :: ids' =>
      match script with
      | [] => None
      | status :: script' =>
          if negb (status =? 0) then Some (false, [ControlStream i enable])
          else
            '(ok, ctl) ← controlAll enable ids' script';
            Some (ok, ControlStream i enable :: ctl)
      end
  end.

(** The [while (not _channelsToCal.empty())] loop.  Returns what is left
    of the set, the calibrations made, and whether the loop ran to its
    end ([false]: [_actualBw.at] threw on the member now at the head). *)
Fixpoint calibrateChannels (actualBw : gmap Z (gmap Z Q))
    (toCal : list (Z * Z)) : list (Z * Z) * list Event * bool :=
  match toCal with
  | [] => ([], [], true)
  | (dir, ch) :: rest =>
      let bw := actualBw !! dir ≫= (.!! ch) in
      let rx := if dir =? SOAPY_SDR_RX
                then option_map (fun b => [CalibrateRx ch b]) bw else Some [] in
      let tx := if dir =? SOAPY_SDR_TX
                then option_map (fun b => [CalibrateTx ch b]) bw else Some [] in
      match rx with
      | None => (toCal, [], false)
      | Some e1 =>
          match tx with
          | None => (toCal, e1, false)
          | Some e2 =>
              let '(remaining, evs, finished) := calibrateChannels actualBw rest in
              (remaining, e1 ++ e2 ++ evs, finished)
          end
      end
  end.

Record ActivateResult := mkActivateResult {
  ac_ret : option Z;      (* None: an exception left the call *)
  ac_stream : IConnectionStream;
  ac_dev : SoapyLMS7;
  ac_events : list Event
}.

Definition activateStream (rate : Q) (dev : SoapyLMS7)
    (icstream : IConnectionStream) (flags timeNs numElems : Z)
    (script : list Z) : option ActivateResult :=
  let streamID := ics_streamID icstream in
  if Qeq_bool rate 0 then
    Some (mkActivateResult None icstream dev [])
  else
    (* perform self calibration with current bandwidth settings *)
    let '(remaining, cal, finished) :=
      calibrateChannels (_actualBw dev) (_channelsToCal dev) in
    let dev := set_channelsToCal dev remaining in
    if negb finished then Some (mkActivateResult None icstream dev cal)
    else
      let dc := [Modify_SPI_Reg_bits 0 "DC_BYP_RXTSP" 1] in
      (* stream requests used with rx *)
      let icstream :=
        mkStream (ics_streamID icstream) (ics_direction icstream)
                 (ics_elemSize icstream) (ics_elemMTU icstream)
                 (ics_enabled icstream) true flags timeNs numElems in
      if negb (ics_enabled icstream) then
        '(ok, ctl) ← controlAll true streamID script;
        if ok : bool
        then Some (mkActivateResult (Some 0) (set_enabled icstream true) dev
                                    (cal ++ dc ++ ctl))
        else Some (mkActivateResult (Some SOAPY_SDR_STREAM_ERROR) icstream dev
                                    (cal ++ dc ++ ctl))
      else Some (mkActivateResult (Some 0) icstream dev (cal ++ dc)).

Definition deactivateStream (icstream : IConnectionStream)
    (flags timeNs : Z) (script : list Z)
    : option (Z * IConnectionStream * list Event) :=
  let streamID := ics_streamID icstream in
  let icstream := set_hasCmd icstream false in
  if ics_enabled icstream then
    '(ok, ctl) ← controlAll false streamID script;
    if ok : bool then Some (0, set_enabled icstream false, ctl)
    else Some (SOAPY_SDR_STREAM_ERROR, icstream, ctl)
  else Some (0, icstream, []).

(** [closeStream] ignores the status of every call it makes. *)
Definition closeStream (icstream : IConnectionStream) : list Event :=
  let streamID := ics_streamID icstream in
  (* disable stream if left enabled *)
  (if ics_enabled icstream
   then map (fun i => ControlStream i false) streamID else [])
  ++ map CloseStream streamID.

(** ** Sequences of control calls on one device *)

Inductive ControlOp :=
| OpSetup (config0 : StreamConfig) (stream0 : IConnectionStream)
          (direction : Z) (fmt : string) (channels : list Z)
          (args : gmap string string) (script : list SetupReply)
| OpActivate (rate : Q) (icstream : IConnectionStream)
             (flags timeNs numElems : Z) (script : list Z).

Definition is_setup (op : ControlOp) : bool :=
  match op with OpSetup _ _ _ _ _ _ _ => true | _ => false end.

Definition is_activate (op : ControlOp) : bool :=
  match op with OpActivate _ _ _ _ _ _ => true | _ => false end.

(** One call, on the device and the log of events so far. *)
Definition runOp (lib : SoapyLib) (st : SoapyLMS7 * list Event)
    (op : ControlOp) : option (SoapyLMS7 * list Event) :=
  match op with
  | OpSetup config0 stream0 direction fmt channels args script =>
      r ← setupStream lib st.1 config0 stream0 direction fmt channels args script;
      Some (so_dev r, st.2)
  | OpActivate rate icstream flags timeNs numElems script =>
      r ← activateStream rate st.1 icstream flags timeNs numElems script;
      Some (ac_dev r, st.2 ++ ac_events r)
  end.

Fixpoint runOps (lib : SoapyLib) (st : SoapyLMS7 * list Event)
    (ops : list ControlOp) : option (SoapyLMS7 * list Event) :=
  match ops with
  | [] => Some st
  | op :: ops' => st' ← runOp lib st op; runOps lib st' ops'
  end.

(** Whether an event is the calibration of [(dir, ch)]. *)
Definition calibrates (dir ch : Z) (e : Event) : bool :=
  match e with
  | CalibrateRx c _ => (dir =? SOAPY_SDR_RX) && (c =? ch)
  | CalibrateTx c _ => (dir =? SOAPY_SDR_TX) && (c =? ch)
  | _ => false
  end.

Definition calibrations (dir ch : Z) (evs : list Event) : nat :=
  length (filter (fun e => calibrates dir ch e = true) evs).

(** ** Predicates used in the statements *)


(** A status answer that neither fails nor carries an event. *)
Definition quiet (direction : Z) (r : StatusReply) : Prop :=
  sr_ret r = 0 /\ hasEvent (maskDropped direction (sr_md r)) = false.

(** What a [readStreamStatus] call returns when [d] is the answer that
  ends it. *)
Definition statusVerdict (lib : SoapyLib) (rate : Q) (direction timeNs : Z)
  (d : StatusReply) : StatusResult :=
  if negb (sr_ret d =? 0)
  then mkStatusResult (if sr_lastError d =? EPERM
                       then SOAPY_SDR_NOT_SUPPORTED else SOAPY_SDR_TIMEOUT)
                      0 timeNs
  else
    let m := maskDropped direction (sr_md d) in
    mkStatusResult
      (if lateTimestamp m then SOAPY_SDR_TIME_ERROR
       else if packetDropped m then SOAPY_SDR_OVERFLOW else 0)
      (let flags := 0 in
       let flags := if endOfBurst m
                    then Z.lor flags SOAPY_SDR_END_BURST else flags in
       if hasTimestamp m then Z.lor flags SOAPY_SDR_HAS_TIME else flags)
      (ticksToTimeNs lib (timestamp m) rate).

(** The invariant of [std::set]: members in strictly increasing order. *)
Definition is_set (s : list (Z * Z)) : Prop :=
  StronglySorted (fun a b => pair_lt a b = true) s.

(** Calibration events, and stream control events. *)
Definition is_cal (e : Event) : bool :=
  match e with CalibrateRx _ _ | CalibrateTx _ _ => true | _ => false end.

Definition is_control (e : Event) : bool :=
  match e with ControlStream _ _ => true | _ => false end.

(** While activations follow one another, no pair is calibrated twice and
    a pair still in the set has not been calibrated. *)
Definition cal_inv (dev : SoapyLMS7) (evs : list Event) : Prop :=
  NoDup (_channelsToCal dev)
  /\ forall dir ch,
       (calibrations dir ch evs <= 1)%nat
       /\ ((dir, ch) ∈ _channelsToCal dev -> calibrations dir ch evs = 0%nat).

(** ** States of the alignment loop *)

(** The first [n] elements of [buf] are the samples taken at the ticks
    [tick], [tick + 1], ... *)
Definition begins_at (elemSize : Z) (buf : list Z) (tick n : Z) : Prop :=
  take (Z.to_nat (n * elemSize)) buf = samples tick n elemSize.

(** A [ReadStream] exchange in which the call asks for a count between 1
    and [M0] and the transport delivers at least one element and no more
    than asked, with a tick that is not 0 and lies [M0] below the end of
    the counter. *)
Definition proper (M0 : Z) (call : ReadCall) (reply : ReadReply) : Prop :=
  0 < rd_status reply <= rc_maxElems call
  /\ rc_maxElems call <= M0
  /\ 0 < timestamp (rd_md reply)
  /\ timestamp (rd_md reply) + M0 < 2 ^ 64.

(** The loop is in step: the channels before [i] are full and begin at
    the request time, channel [i] begins there too, the later ones are
    empty. *)
Definition aligned (n : nat) (es M0 : Z) (st : AlignState) : Prop :=
  let i := al_i st in
  let nw := al_numWritten st in
  let M := al_numElems st in
  let R := al_requestTime st in
  length nw = n /\ length (al_buffs st) = n /\ (i <= n)%nat
  /\ 0 < M <= M0
  /\ (R = 0 \/ (0 < R /\ R + M0 < 2 ^ 64))
  /\ (forall j, (j < n)%nat ->
        M0 * es <= Z.of_nat (length (bufAt (al_buffs st) j)))
  /\ (forall j, (i < j)%nat -> cnt nw j = 0)
  /\ (forall j, (j < i)%nat -> cnt nw j = M)
  /\ ((i < n)%nat ->
      0 <= cnt nw i < M /\ (R = 0 -> cnt nw i = 0 /\ i = 0%nat))
  /\ (forall j, (j <= i)%nat -> (j < n)%nat ->
        begins_at es (bufAt (al_buffs st) j) R (cnt nw j)).

(** The loop has restarted below a channel that already holds the whole
    target: reaching that channel again means asking it for nothing, or
    for a wrapped count. *)
Definition blocked (n : nat) (M0 : Z) (st : AlignState) : Prop :=
  length (al_numWritten st) = n
  /\ (forall j, 0 <= cnt (al_numWritten st) j <= M0)
  /\ 0 <= al_numElems st <= M0
  /\ exists c, (al_i st <= c < n)%nat
               /\ al_numElems st <= cnt (al_numWritten st) c.

(** ** Stream information *)

(** Neither function looks at the direction or at the channel. *)
Definition getStreamFormats (direction channel : Z) : list string :=
  [SOAPY_SDR_CF32; SOAPY_SDR_CS12; SOAPY_SDR_CS16].

(** The format returned, and the value stored into [fullScale]. *)
Definition getNativeStreamFormat (direction channel : Z) : string * Z :=
  (SOAPY_SDR_CS16, 2048).

(** [SoapySDR::ArgInfo::Type], the two values [getStreamArgsInfo] uses. *)
Inductive ArgType := ArgINT | ArgSTRING.

(** [SoapySDR::ArgInfo]: the fields [getStreamArgsInfo] fills in; a field
    it leaves alone is an empty string or an empty vector. *)
Record ArgInfo := mkArgInfo {
  ai_key : string;
  ai_value : string;
  ai_name : string;
  ai_description : string;
  ai_units : string;
  ai_type : ArgType;
  ai_options : list string;
  ai_optionNames : list string
}.

Definition getStreamArgsInfo (direction channel : Z) : list ArgInfo :=
  (* buffer length *)
  [mkArgInfo "bufferLength" "0" "Buffer Length"
             "The buffer transfer size over the link." "samples" ArgINT [] [];
  (* link format *)
   mkArgInfo "linkFormat" SOAPY_SDR_CS16 "Link Format"
             "The format of the samples over the link." "" ArgSTRING
             [SOAPY_SDR_CS16; SOAPY_SDR_CS12]
             ["Complex int16"; "Complex int12"]].

(** ** Predicates used in the further statements *)

(** The buffer length [setupStream] configures: the stream argument if
    there is one, else the device argument of the direction, else what the
    configuration holds. *)
Definition chosenBufferLength (lib : SoapyLib) (dev : SoapyLMS7)
    (args : gmap string string) (tx : bool) (current : Z) : option Z :=
  match args !! "bufferLength"%string with
  | Some v => stoul lib v
  | None =>
      match _deviceArgs dev !!
              (if tx then "txBufferLength" else "rxBufferLength")%string with
      | Some v => stoul lib v
      | None => Some current
      end
  end.

(** The arguments parse: [std::stoul] and [std::stof] throw on none of the
    values [setupStream] hands them. *)
Definition args_parse (lib : SoapyLib) (dev : SoapyLMS7)
    (args : gmap string string) (tx : bool) : Prop :=
  (forall v, _deviceArgs dev
             !! (if tx then "txBufferLength" else "rxBufferLength")%string
             = Some v -> is_Some (stoul lib v))
  /\ (forall v, args !! "bufferLength"%string = Some v -> is_Some (stoul lib v))
  /\ (forall v, args !! "latency"%string = Some v -> is_Some (stof lib v)).


(** ** A sample environment, for the concrete runs below *)

Definition demo_lib : SoapyLib :=
  mkLib (fun t _ => t) (fun t _ => t) (fun _ => 4)
        (fun _ => Some 1024) (fun _ => Some (7 # 10)%Q).

Definition demo_md (tick : Z) : StreamMetadata :=
  mkMeta tick true false false false.

(** A buffer with room for [elems] elements of two bytes. *)
Definition demo_buffer (elems : nat) : list Z := replicate (2 * elems) (-1).

(** An enabled RX stream of two-byte elements with a pending command. *)
Definition demo_stream (ids : list Z) (flags timeNs numElems : Z)
    : IConnectionStream :=
  mkStream ids SOAPY_SDR_RX 2 1020 true true flags timeNs numElems.

Definition demo_config0 : StreamConfig :=
  mkConfig false 0 0%Q 0 STREAM_12_BIT_IN_16.

Definition demo_stream0 : IConnectionStream :=
  mkStream [] 0 0 0 false false 0 0 0.

(** A device with bandwidths set for channel 0 and nothing to calibrate. *)
Definition demo_dev : SoapyLMS7 :=
  mkDevice ∅
           {[ SOAPY_SDR_RX := {[ 0 := 5%Q ]}; SOAPY_SDR_TX := {[ 0 := 5%Q ]} ]}
           [].


(** * Board controls panel (src/lms7002_wxgui/pnlBoardControls.cpp)

    The unit prefixes of the custom parameter box, and the two handlers
    that read and write every board parameter.  [LMS_IsOpen],
    [LMS_ReadCustomBoardParam] and [LMS_WriteCustomBoardParam] are
    external: their answers come from a script, their calls go to a log,
    and what the handlers show goes to a list of screen actions. *)

(** [char(x)] for an [int] x.  Whether plain [char] is signed is left to
    the implementation; [char_signed] says which build it is. *)
Definition to_char (char_signed : bool) (z : Z) : Z :=
  if char_signed then (z + 2 ^ 7) mod 2 ^ 8 - 2 ^ 7 else z mod 2 ^ 8.

(** [power2unitsString(char powerx3)], on the [int] handed to it: the
    argument is narrowed to [char] at the call, and the [switch] compares
    the promoted [char] with the [int] labels. *)
Definition power2unitsString (char_signed : bool) (powerx3 : Z) : string :=
  match to_char char_signed powerx3 with
  | -8 => "y"
  | -7 => "z"
  | -6 => "a"
  | -5 => "f"
  | -4 => "p"
  | -3 => "n"
  | -2 => "u"
  | -1 => "m"
  | 0 => ""
  | 1 => "k"
  | 2 => "M"
  | 3 => "G"
  | 4 => "T"
  | 5 => "P"
  | 6 => "E"
  | 7 => "Y"
  | _ => ""
  end.

(** The choices of the power-of-ten box, as the constructor fills it:
    [for (int i = -8; i <= 7; ++i) powerChoices.push_back(...)]. *)
Definition powerChoices (char_signed : bool) : list string :=
  map (fun k => power2unitsString char_signed (Z.of_nat k - 8)) (seq 0 16).


(** The fields of [ADC_DAC] and of [Param_GUI] the handlers use.  Of a
    widget only whether its spin control [wValue] exists matters. *)
Record ADC_DAC := mkADC_DAC {
  adc_name : string;
  adc_writable : bool;
  adc_value : Q;
  adc_channel : Z;
  adc_units : string
}.

Record Param_GUI := mkParam_GUI { wValue : bool }.

Record pnlBoardControls := mkPanel {
  isOpen : bool;               (* LMS_IsOpen(lmsControl, 1) *)
  additionalControls : bool;   (* the pointer is not null *)
  mParameters : list ADC_DAC;
  mGUI_widgets : list Param_GUI
}.


Inductive EventType := READ_ALL_VALUES | WRITE_ALL_VALUES.

(** What the handlers do to the screen and to the event queue. *)
Inductive UiAction :=
| MessageBox (message caption : string)
| PostEvent (eventType : EventType)
| SetTitle (i : nat) (label : string)
| SetSpin (i : nat) (v : Q)          (* wValue->SetValue *)
| SetReading (i : nat) (v : Q)       (* rValue->SetLabel, as %1.0f *)
| SetUnits (i : nat) (label : string).

(** Calls to [LMS_ReadCustomBoardParam] and [LMS_WriteCustomBoardParam]
    (whose units argument [OnWriteAll] leaves NULL), and the answer to a
    read. *)
Inductive BoardCall :=
| ReadParam (id : Z)
| WriteParam (id : Z) (v : Q).







(** The loop of [OnWriteAll]. *)
Fixpoint writeAll (params : list ADC_DAC) (script : list Z)
    : option (list BoardCall * bool) :=
  match params with
  | [] => Some ([], true)
  | param :: params' =>
      if negb (adc_writable param) then writeAll params' script
      else
        match script with
        | [] => None
        | status :: script' =>
            let call := WriteParam (adc_channel param) (adc_value param) in
            if negb (status =? 0) then Some ([call], false)
            else
              '(calls, ok) ← writeAll params' script';
              Some (call :: calls, ok)
        end
  end.

Definition OnWriteAll (p : pnlBoardControls) (script : list Z)
    : option (list BoardCall * list UiAction) :=
  if negb (isOpen p) then
    Some ([], [MessageBox "Device not connected" "Warning"])
  else
    '(calls, ok) ← writeAll (mParameters p) script;
    if ok : bool then
      Some (calls,
            if additionalControls p then [PostEvent WRITE_ALL_VALUES] else [])
    else Some (calls, [MessageBox "Failes to write values" "Warning"]).

(** * Properties *)

(** ** Machine integers *)

Lemma wrap64_small z : 0 <= z < 2 ^ 64 -> wrap64 z = z.
Proof. intros H. unfold wrap64. now apply Z.mod_small. Qed.

Lemma wrap64_range z : 0 <= wrap64 z < 2 ^ 64.
Proof. unfold wrap64. apply Z.mod_pos_bound. lia. Qed.

(** ** The fast-forward primitive *)

Section FastForward.
Context {A : Type}.
Implicit Types buff : list A.

Lemma memmove_front buff src n :
  (src + n <= length buff)%nat ->
  memmove buff 0 src n = take n (drop src buff) ++ drop n buff.
Proof.
  intros Hlen. unfold memmove. simpl.
  rewrite length_take, length_drop.
  now replace (n `min` (length buff - src))%nat with n by lia.
Qed.

Lemma memmove_length buff src n : length (memmove buff 0 src n) = length buff.
Proof.
  unfold memmove. simpl.
  rewrite length_app, length_drop, length_take, length_drop. lia.
Qed.

Lemma memmove_nothing buff n : memmove buff 0 0 n = buff.
Proof.
  unfold memmove. simpl. rewrite drop_0, length_take.
  destruct (decide (n <= length buff)%nat).
  - replace (n `min` length buff)%nat with n by lia. apply take_drop.
  - replace (n `min` length buff)%nat with (length buff) by lia.
    rewrite take_ge by lia. rewrite drop_all. apply app_nil_r.
Qed.
End FastForward.

(** C4.  For head times with [oldHeadTime <= desiredHeadTime], a buffer
    that holds its [numWritten] elements of [elemSize] bytes is left by
    [fastForward] with exactly [min (desiredHeadTime - oldHeadTime)
    numWritten] elements fewer, never more than were present; the elements
    that remain are the old ones behind the removed ones, moved to the
    start of the buffer; the bytes behind them and the capacity are left
    alone; and with equal head times neither the fill count nor the buffer
    changes. *)
Theorem fastForward_removes_min {A : Type} (buff : list A)
    (numWritten elemSize oldHeadTime desiredHeadTime : Z) :
  0 <= oldHeadTime -> oldHeadTime <= desiredHeadTime ->
  desiredHeadTime < 2 ^ 64 ->
  0 <= numWritten < 2 ^ 64 -> 0 <= elemSize ->
  numWritten * elemSize <= Z.of_nat (length buff) ->
  Z.of_nat (length buff) < 2 ^ 64 ->
  let numPop := Z.min (desiredHeadTime - oldHeadTime) numWritten in
  let kept := Z.to_nat ((numWritten - numPop) * elemSize) in
  let r := fastForward buff numWritten elemSize oldHeadTime desiredHeadTime in
  r.2 = numWritten - numPop
  /\ 0 <= numPop <= numWritten
  /\ take kept r.1
     = drop (Z.to_nat (numPop * elemSize))
            (take (Z.to_nat (numWritten * elemSize)) buff)
  /\ drop kept r.1 = drop kept buff
  /\ length r.1 = length buff
  /\ (desiredHeadTime = oldHeadTime -> r = (buff, numWritten)).
Proof.
  intros Hold Hle Hdes Hnw Hes Hfit Hcap numPop kept r.
  assert (Hpop : 0 <= numPop <= numWritten) by (subst numPop; lia).
  assert (Hd : wrap64 (desiredHeadTime - oldHeadTime)
               = desiredHeadTime - oldHeadTime) by (apply wrap64_small; lia).
  assert (Hm : wrap64 (numWritten - numPop) = numWritten - numPop)
    by (apply wrap64_small; lia).
  assert (Hpe : wrap64 (numPop * elemSize) = numPop * elemSize)
    by (apply wrap64_small; nia).
  assert (Hme : wrap64 ((numWritten - numPop) * elemSize)
                = (numWritten - numPop) * elemSize)
    by (apply wrap64_small; nia).
  assert (Hr : r = (memmove buff 0 (Z.to_nat (numPop * elemSize)) kept,
                    numWritten - numPop)).
  { subst r kept. unfold fastForward. rewrite Hd. fold numPop.
    now rewrite Hm, Hpe, Hme. }
  assert (Hsum : (Z.to_nat (numPop * elemSize) + kept
                  = Z.to_nat (numWritten * elemSize))%nat)
    by (subst kept; nia).
  assert (Hin : (Z.to_nat (numWritten * elemSize) <= length buff)%nat) by lia.
  rewrite Hr. simpl. repeat split; try lia.
  - rewrite memmove_front by lia.
    rewrite take_app_length' by (rewrite length_take, length_drop; lia).
    rewrite <- Hsum. now rewrite take_drop_commute.
  - rewrite memmove_front by lia.
    rewrite drop_app_length'; [done|].
    rewrite length_take, length_drop. lia.
  - apply memmove_length.
  - intros Heq. subst desiredHeadTime.
    assert (numPop = 0) by (subst numPop; lia).
    subst kept. replace (numPop * elemSize) with 0 by nia.
    change (Z.to_nat 0) with 0%nat. rewrite memmove_nothing.
    f_equal. lia.
Qed.

Lemma fastForward_removes_min_witness :
  let r := fastForward [10; 11; 20; 21; 30; 31; 40; 41; 0; 0] 4 2 100 103 in
  r.2 = 4 - Z.min (103 - 100) 4
  /\ 0 <= Z.min (103 - 100) 4 <= 4
  /\ take (Z.to_nat ((4 - Z.min (103 - 100) 4) * 2)) r.1
     = drop (Z.to_nat (Z.min (103 - 100) 4 * 2))
            (take (Z.to_nat (4 * 2)) [10; 11; 20; 21; 30; 31; 40; 41; 0; 0])
  /\ drop (Z.to_nat ((4 - Z.min (103 - 100) 4) * 2)) r.1
     = drop (Z.to_nat ((4 - Z.min (103 - 100) 4) * 2))
            [10; 11; 20; 21; 30; 31; 40; 41; 0; 0]
  /\ length r.1 = length [10; 11; 20; 21; 30; 31; 40; 41; 0; 0]
  /\ (103 = 100 -> r = ([10; 11; 20; 21; 30; 31; 40; 41; 0; 0], 4)).
Proof.
  apply (fastForward_removes_min [10; 11; 20; 21; 30; 31; 40; 41; 0; 0]
                                 4 2 100 103); simpl; lia.
Defined.
(** ** readStream *)

Lemma readStream_idle lib rate s buffs numElems flags timeNs timeoutUs script :
  ics_hasCmd s = false ->
  readStream lib rate s buffs numElems flags timeNs timeoutUs script
  = Some (mkReadResult SOAPY_SDR_TIMEOUT s flags timeNs buffs [] script None).
Proof. intros H. unfold readStream. now rewrite H. Qed.

Lemma readStream_armed lib rate s buffs numElems flags timeNs timeoutUs script out :
  ics_hasCmd s = true ->
  _readStreamAligned s buffs (readStream_request s numElems flags)
    (readStream_cmdTicks lib rate s) StreamMetadata_init
    (Z.quot timeoutUs 1000) script = Some out ->
  0 <= ao_status out ->
  readStream lib rate s buffs numElems flags timeNs timeoutUs script
  = let f := readStream_finish lib rate s (readStream_cmdTicks lib rate s)
               (ao_status out) (al_md (ao_state out)) flags timeNs in
    Some (mkReadResult f.1.1.1 f.1.1.2 f.1.2 f.2 (al_buffs (ao_state out))
            (ao_calls out) (ao_rest out)
            (Some (ao_status out, al_md (ao_state out)))).
Proof.
  intros Hcmd Hal Hst. unfold readStream. rewrite Hcmd, Hal. simpl.
  destruct (Z.ltb_spec (ao_status out) 0); [lia|].
  now destruct readStream_finish as [[[? ?] ?] ?].
Qed.

Lemma has_flag_out eob ht bit :
  bit = SOAPY_SDR_END_BURST \/ bit = SOAPY_SDR_HAS_TIME ->
  has_flag
    (let flags := 0 in
     let flags := if eob : bool then Z.lor flags SOAPY_SDR_END_BURST else flags in
     if ht : bool then Z.lor flags SOAPY_SDR_HAS_TIME else flags) bit
  = if Z.eqb bit SOAPY_SDR_END_BURST then eob else ht.
Proof. intros [-> | ->]; destruct eob, ht; reflexivity. Qed.

Lemma has_flag_clear f :
  has_flag (Z.land f (Z.lnot SOAPY_SDR_HAS_TIME)) SOAPY_SDR_HAS_TIME = false.
Proof.
  unfold has_flag. rewrite <- Z.land_assoc.
  replace (Z.land (Z.lnot SOAPY_SDR_HAS_TIME) SOAPY_SDR_HAS_TIME) with 0 by reflexivity.
  now rewrite Z.land_0_r.
Qed.

(** C3.  A [readStream] call on a pending command that carries the
    HAS_TIME flag, whose aligned read succeeded and came back with a
    timestamp: when the commanded tick is earlier than that timestamp the
    call returns TIME_ERROR and the command is cleared; when it is later
    the call returns STREAM_ERROR (the alignment failure) and the stream is
    left as it was; when they are equal the HAS_TIME flag is removed from
    the pending command and from nothing else. *)
Theorem readStream_time_check lib rate s buffs numElems flags timeNs timeoutUs
    script out :
  ics_hasCmd s = true ->
  has_flag (ics_flags s) SOAPY_SDR_HAS_TIME = true ->
  _readStreamAligned s buffs (readStream_request s numElems flags)
    (readStream_cmdTicks lib rate s) StreamMetadata_init
    (Z.quot timeoutUs 1000) script = Some out ->
  0 <= ao_status out ->
  hasTimestamp (al_md (ao_state out)) = true ->
  let cmdTicks := wrap64 (timeNsToTicks lib (ics_timeNs s) rate) in
  let returned := timestamp (al_md (ao_state out)) in
  exists r,
    readStream lib rate s buffs numElems flags timeNs timeoutUs script = Some r
    /\ (cmdTicks < returned ->
        rr_ret r = SOAPY_SDR_TIME_ERROR /\ ics_hasCmd (rr_stream r) = false)
    /\ (returned < cmdTicks ->
        rr_ret r = SOAPY_SDR_STREAM_ERROR /\ rr_stream r = s)
    /\ (cmdTicks = returned ->
        ics_flags (rr_stream r)
        = Z.land (ics_flags s) (Z.lnot SOAPY_SDR_HAS_TIME)
        /\ has_flag (ics_flags (rr_stream r)) SOAPY_SDR_HAS_TIME = false).
Proof.
  intros Hcmd Htime Hal Hst Hts cmdTicks returned.
  eexists. split; [apply (readStream_armed _ _ _ _ _ _ _ _ _ _ Hcmd Hal Hst)|].
  assert (Hc : readStream_cmdTicks lib rate s = cmdTicks)
    by (unfold readStream_cmdTicks; now rewrite Htime).
  rewrite Hc. unfold readStream_finish. rewrite Htime, Hts. fold returned.
  cbn [andb].
  destruct (Z.ltb_spec cmdTicks returned) as [Hlt | Hge].
  { cbn. repeat split; intros; try lia; reflexivity. }
  destruct (Z.eqb_spec cmdTicks returned) as [Heq | Hne].
  2:{ cbn. repeat split; intros; try lia; reflexivity. }
  cbn [negb].
  split; [lia|]. split; [lia|]. intros _.
  assert (Hflags : forall f : Z * IConnectionStream * Z * Z,
             ics_flags f.1.1.2
             = Z.land (ics_flags s) (Z.lnot SOAPY_SDR_HAS_TIME) ->
             ics_flags f.1.1.2
             = Z.land (ics_flags s) (Z.lnot SOAPY_SDR_HAS_TIME)
             /\ has_flag (ics_flags f.1.1.2) SOAPY_SDR_HAS_TIME = false).
  { intros f Hf. split; [exact Hf|]. rewrite Hf. apply has_flag_clear. }
  cbn [rr_stream]. apply Hflags.
  repeat (case_match; simplify_eq/=); reflexivity.
Qed.







Lemma readStream_time_check_witness :
  exists r,
    readStream demo_lib 1%Q (demo_stream [11] SOAPY_SDR_HAS_TIME 100 0)
               [demo_buffer 10] 10 0 0 1000 [mkReply 10 (demo_md 100)]
    = Some r
    /\ has_flag (ics_flags (rr_stream r)) SOAPY_SDR_HAS_TIME = false.
Proof.
  edestruct (readStream_time_check demo_lib 1%Q
               (demo_stream [11] SOAPY_SDR_HAS_TIME 100 0)
               [demo_buffer 10] 10 0 0 1000 [mkReply 10 (demo_md 100)])
    as (r & Hr & _ & _ & Heq).
  - reflexivity.
  - reflexivity.
  - vm_compute. reflexivity.
  - simpl. lia.
  - reflexivity.
  - exists r. split; [exact Hr|]. apply Heq. reflexivity.
Defined.

(** The same command against hardware that has already passed the
    commanded tick: TIME_ERROR, and the next call times out. *)
Example readStream_late_command :
  readStream_run demo_lib 1%Q (demo_stream [11] SOAPY_SDR_HAS_TIME 100 0)
    [mkReadArgs [demo_buffer 10] 10 0 0 1000 [mkReply 10 (demo_md 130)];
     mkReadArgs [demo_buffer 10] 10 0 0 1000 [mkReply 10 (demo_md 140)]]
  = Some [mkReadResult SOAPY_SDR_TIME_ERROR
            (set_hasCmd (demo_stream [11] SOAPY_SDR_HAS_TIME 100 0) false)
            0 0
            [[130; 130; 131; 131; 132; 132; 133; 133; 134; 134;
              135; 135; 136; 136; 137; 137; 138; 138; 139; 139]]
            [mkReadCall 11 0 10 1] []
            (Some (10, demo_md 130));
          mkReadResult SOAPY_SDR_TIMEOUT
            (set_hasCmd (demo_stream [11] SOAPY_SDR_HAS_TIME 100 0) false)
            0 0 [demo_buffer 10] [] [mkReply 10 (demo_md 140)] None].
Proof. vm_compute. reflexivity. Qed.



(** ** writeStream *)

Lemma writeRest_spec md n : forall ids script calls,
  (length ids <= length script)%nat ->
  exists ret more,
    writeRest ids n md script calls = Some (ret, calls ++ more)
    /\ Forall (fun c => wc_numElems c = wrap64 n /\ wc_timeoutMs c = 1000
                        /\ wc_md c = md) more
    /\ ((exists i st, (i < length ids)%nat /\ script !! i = Some st /\ st <> n)
        -> ret = SOAPY_SDR_CORRUPTION)
    /\ ((forall i st, (i < length ids)%nat -> script !! i = Some st -> st = n)
        -> ret = n /\ map wc_id more = ids).
Proof.
  induction ids as [|id ids IH]; intros script calls Hlen.
  { exists n, []. cbn. rewrite app_nil_r. repeat split; try done.
    intros (i & st & Hi & _). cbn in Hi. lia. }
  destruct script as [|st0 script]; [cbn in Hlen; lia|].
  cbn [writeRest]. destruct (Z.eqb_spec st0 n) as [-> | Hne]; cbn [negb].
  - destruct (IH script (calls ++ [mkWriteCall id (wrap64 n) 1000 md]))
      as (ret & more & Hw & Hall & Hbad & Hgood); [cbn in Hlen; lia|].
    exists ret, (mkWriteCall id (wrap64 n) 1000 md :: more).
    rewrite Hw, <- app_assoc. split; [done|]. split; [constructor; done|].
    split.
    + intros (i & st & Hi & Hst & Hneq). apply Hbad.
      destruct i as [|i]; [cbn in Hst; congruence|].
      exists i, st. cbn in Hi, Hst. repeat split; [lia | done | done].
    + intros Hsame.
      destruct Hgood as [-> Hids].
      { intros i st Hi Hst. apply (Hsame (S i) st); [cbn; lia | done]. }
      split; [done|]. cbn. now rewrite Hids.
  - exists SOAPY_SDR_CORRUPTION, [mkWriteCall id (wrap64 n) 1000 md].
    split; [done|]. split; [repeat constructor|]. split; [done|].
    intros Hsame. exfalso. apply Hne. apply (Hsame 0%nat st0); [cbn; lia | done].
Qed.

(** C6.  A [writeStream] call whose channel 0 write succeeds with a count
    [n > 0], on a transport that answers every write: channel 0 is written
    first, with the caller's count; every write issued to a later channel
    asks for exactly [n] elements; if some later channel answers with a
    count other than [n] the call returns CORRUPTION; and if all of them
    answer [n], every channel has been written and the call returns [n]. *)
Theorem writeStream_matches_channel0 lib rate s numElems flags timeNs timeoutUs
    n answers :
  0 < n < 2 ^ 64 ->
  (length (ics_streamID s) - 1 <= length answers)%nat ->
  let others := (length (ics_streamID s) - 1)%nat in
  exists ret c0 rest,
    writeStream lib rate s numElems flags timeNs timeoutUs (n :: answers)
    = Some (ret, c0 :: rest)
    /\ wc_numElems c0 = numElems
    /\ Forall (fun c => wc_numElems c = n) rest
    /\ ((exists i st, (i < others)%nat /\ answers !! i = Some st /\ st <> n)
        -> ret = SOAPY_SDR_CORRUPTION)
    /\ ((forall i st, (i < others)%nat -> answers !! i = Some st -> st = n)
        -> ret = n /\ map wc_id rest = drop 1 (ics_streamID s)).
Proof.
  intros Hn Hlen others. unfold writeStream.
  destruct (Z.eqb_spec n 0); [lia|]. destruct (Z.ltb_spec n 0); [lia|].
  set (md := mkMeta _ _ _ _ _).
  set (c0 := mkWriteCall _ numElems _ md).
  assert (Hothers : length (drop 1 (ics_streamID s)) = others)
    by (rewrite length_drop; reflexivity).
  destruct (writeRest_spec md n (drop 1 (ics_streamID s)) answers [c0])
    as (ret & more & Hw & Hall & Hbad & Hgood); [lia|].
  exists ret, c0, more. rewrite Hw. split; [done|]. split; [done|].
  rewrite Hothers in Hbad, Hgood. split; [|done].
  eapply Forall_impl; [exact Hall|]. intros c (Hc & _). rewrite Hc.
  apply wrap64_small. lia.
Qed.

Lemma writeStream_matches_channel0_witness :
  exists ret c0 rest,
    writeStream demo_lib 1%Q (demo_stream [11; 12] 0 0 0) 64 0 0 5000 [64; 60]
    = Some (ret, c0 :: rest)
    /\ Forall (fun c => wc_numElems c = 64) rest
    /\ ret = SOAPY_SDR_CORRUPTION.
Proof.
  destruct (writeStream_matches_channel0 demo_lib 1%Q
              (demo_stream [11; 12] 0 0 0) 64 0 0 5000 64 [60])
    as (ret & c0 & rest & Hw & _ & Hall & Hbad & _).
  - lia.
  - simpl. lia.
  - exists ret, c0, rest. split; [exact Hw|]. split; [exact Hall|].
    apply Hbad. exists 0%nat, 60. split; [simpl; lia|]. split; [reflexivity | lia].
Defined.

(** ** readStreamStatus *)

Section Status.
Variables (lib : SoapyLib) (rate : Q) (direction : Z) (ids : list Z).

(** A round in which every channel stays quiet ends without an event. *)
Lemma pollChannels_quiet : forall qs tail md,
  Forall (quiet direction) qs ->
  length qs = length ids ->
  exists md', pollChannels direction ids (qs ++ tail) md = NoEvent md' tail.
Proof using Type.
  induction ids as [|id ids' IH]; intros qs tail md Hq Hlen.
  { destruct qs; [|discriminate]. now exists md. }
  destruct qs as [|q qs]; [discriminate|].
  apply Forall_cons in Hq as [[Hret Hev] Hq].
  cbn [app pollChannels]. rewrite Hret, Hev. cbn.
  apply IH; [done | cbn in Hlen; lia].
Qed.

(** The first answer that is not quiet ends the round, and the call. *)
Lemma pollChannels_decisive : forall qs d rest md,
  Forall (quiet direction) qs ->
  (length qs < length ids)%nat ->
  ~ quiet direction d ->
  pollChannels direction ids (qs ++ d :: rest) md
  = if negb (sr_ret d =? 0)
    then Failed (if sr_lastError d =? EPERM
                 then SOAPY_SDR_NOT_SUPPORTED else SOAPY_SDR_TIMEOUT)
    else Found (maskDropped direction (sr_md d)).
Proof using Type.
  induction ids as [|id ids' IH]; intros qs d rest md Hq Hlen Hd.
  { cbn in Hlen. lia. }
  destruct qs as [|q qs].
  - cbn [app pollChannels].
    destruct (Z.eqb_spec (sr_ret d) 0) as [Hz | Hnz]; cbn [negb]; [|done].
    destruct (hasEvent _) eqn:Hev; [done|].
    exfalso. apply Hd. now split.
  - apply Forall_cons in Hq as [[Hret Hev] Hq].
    cbn [app pollChannels]. rewrite Hret, Hev. cbn.
    apply IH; [done | cbn in Hlen; lia | done].
Qed.

Lemma statusLoop_decisive timeNs d rest :
  ~ quiet direction d -> (0 < length ids)%nat ->
  forall k qs clock md,
    Forall (quiet direction) qs ->
    (length qs < (S k) * length ids)%nat ->
    (k * length ids <= length qs)%nat ->
    statusLoop lib rate direction ids timeNs
               (replicate k false ++ clock) (qs ++ d :: rest) md
    = Some (statusVerdict lib rate direction timeNs d).
Proof using Type.
  intros Hd Hn. induction k as [|k IH]; intros qs clock md Hq Hlt Hge.
  - destruct clock as [|b clock]; cbn [replicate app statusLoop];
      rewrite pollChannels_decisive by (done || lia);
      unfold statusVerdict; destruct (negb (sr_ret d =? 0)); try done;
      cbv zeta; now repeat case_match.
  - rewrite <- (take_drop (length ids) qs), <- app_assoc.
    rewrite <- (take_drop (length ids) qs) in Hq.
    apply Forall_app in Hq as [Hq1 Hq2].
    destruct (pollChannels_quiet (take (length ids) qs)
                (drop (length ids) qs ++ d :: rest) md Hq1) as [md' Hp].
    { rewrite length_take. lia. }
    cbn [replicate app statusLoop]. rewrite Hp.
    apply IH; [done | rewrite length_drop; lia | rewrite length_drop; lia].
Qed.

Lemma statusLoop_expired timeNs : forall j qs tail clock md,
  Forall (quiet direction) qs ->
  length qs = (S j * length ids)%nat ->
  statusLoop lib rate direction ids timeNs
             (replicate j false ++ true :: clock) (qs ++ tail) md
  = Some (mkStatusResult SOAPY_SDR_TIMEOUT 0 timeNs).
Proof using Type.
  induction j as [|j IH]; intros qs tail clock md Hq Hlen.
  - destruct (pollChannels_quiet qs tail md Hq) as [md' Hp]; [lia|].
    cbn [replicate app statusLoop]. now rewrite Hp.
  - rewrite <- (take_drop (length ids) qs), <- app_assoc.
    rewrite <- (take_drop (length ids) qs) in Hq.
    apply Forall_app in Hq as [Hq1 Hq2].
    destruct (pollChannels_quiet (take (length ids) qs)
                (drop (length ids) qs ++ tail) md Hq1) as [md' Hp].
    { rewrite length_take. lia. }
    cbn [replicate app statusLoop]. rewrite Hp.
    apply IH; [done | rewrite length_drop; lia].
Qed.
End Status.

(** C7 (amended).  In a [readStreamStatus] call the answers of the
    transport are taken channel by channel, round after round, up to the
    first one that fails or that carries an event: end-of-burst, a late
    timestamp, or, the dropped-packet flag being cleared on a TX stream, a
    dropped packet.  If that answer fails, the call returns NOT_SUPPORTED
    when the last error is EPERM and TIMEOUT otherwise.  If it carries an
    event, the call returns TIME_ERROR for a late timestamp, else OVERFLOW
    for a dropped packet, else 0, its output flags carrying end-of-burst
    and has-time as the answer has them.  If the wall clock runs out after
    a round without any such answer, the call returns TIMEOUT. *)
Theorem readStreamStatus_outcome lib rate s timeNs :
  let direction := ics_direction s in
  let n := length (ics_streamID s) in
  (forall qs d rest clock,
     Forall (quiet direction) qs -> ~ quiet direction d -> (0 < n)%nat ->
     let m := maskDropped direction (sr_md d) in
     exists res,
       readStreamStatus lib rate s timeNs
         (replicate (length qs / n) false ++ clock) (qs ++ d :: rest)
       = Some res
       /\ (direction = SOAPY_SDR_TX -> packetDropped m = false)
       /\ (sr_ret d <> 0 -> sr_lastError d = EPERM ->
           st_ret res = SOAPY_SDR_NOT_SUPPORTED)
       /\ (sr_ret d <> 0 -> sr_lastError d <> EPERM ->
           st_ret res = SOAPY_SDR_TIMEOUT)
       /\ (sr_ret d = 0 -> lateTimestamp m = true ->
           st_ret res = SOAPY_SDR_TIME_ERROR)
       /\ (sr_ret d = 0 -> lateTimestamp m = false -> packetDropped m = true ->
           st_ret res = SOAPY_SDR_OVERFLOW)
       /\ (sr_ret d = 0 -> lateTimestamp m = false -> packetDropped m = false ->
           st_ret res = 0)
       /\ (sr_ret d = 0 ->
           has_flag (st_flags res) SOAPY_SDR_END_BURST = endOfBurst m
           /\ has_flag (st_flags res) SOAPY_SDR_HAS_TIME = hasTimestamp m
           /\ st_timeNs res = ticksToTimeNs lib (timestamp m) rate)
       /\ (sr_ret d <> 0 -> st_flags res = 0 /\ st_timeNs res = timeNs))
  /\ (forall j qs tail clock,
        Forall (quiet direction) qs -> length qs = (S j * n)%nat ->
        readStreamStatus lib rate s timeNs
          (replicate j false ++ true :: clock) (qs ++ tail)
        = Some (mkStatusResult SOAPY_SDR_TIMEOUT 0 timeNs)).
Proof.
  intros direction n. split.
  - intros qs d rest clock Hq Hd Hn m.
    exists (statusVerdict lib rate direction timeNs d). split.
    { unfold readStreamStatus. fold direction n.
      apply statusLoop_decisive; try done.
      - pose proof (Nat.div_mod_eq (length qs) n).
        pose proof (Nat.mod_upper_bound (length qs) n). lia.
      - pose proof (Nat.div_mod_eq (length qs) n). lia. }
    unfold statusVerdict. fold m.
    split.
    { intros Htx. subst m. unfold maskDropped. rewrite Htx. reflexivity. }
    destruct (Z.eqb_spec (sr_ret d) 0) as [Hz | Hnz]; cbn [negb].
    + repeat split; intros; try done; cbn [st_ret st_flags st_timeNs].
      * now rewrite H0.
      * now rewrite H0, H1.
      * now rewrite H0, H1.
      * now destruct (endOfBurst m), (hasTimestamp m).
      * now destruct (endOfBurst m), (hasTimestamp m).
    + repeat split; intros; try done; cbn [st_ret].
      * destruct (Z.eqb_spec (sr_lastError d) EPERM); done.
      * destruct (Z.eqb_spec (sr_lastError d) EPERM); done.
  - intros j qs tail clock Hq Hlen. unfold readStreamStatus.
    now apply statusLoop_expired.
Qed.

Lemma readStreamStatus_outcome_witness :
  exists res,
    readStreamStatus demo_lib 1%Q (demo_stream [11; 12] 0 0 0) 0
      [false; true]
      [mkStatusReply 0 0 (demo_md 5); mkStatusReply 0 0 (demo_md 6);
       mkStatusReply 0 0 (demo_md 7);
       mkStatusReply 0 0 (mkMeta 8 true false false true)]
    = Some res
    /\ st_ret res = SOAPY_SDR_OVERFLOW.
Proof.
  destruct (proj1 (readStreamStatus_outcome demo_lib 1%Q
                     (demo_stream [11; 12] 0 0 0) 0)
              [mkStatusReply 0 0 (demo_md 5); mkStatusReply 0 0 (demo_md 6);
               mkStatusReply 0 0 (demo_md 7)]
              (mkStatusReply 0 0 (mkMeta 8 true false false true)) [] [true])
    as (res & Hres & _ & _ & _ & _ & Hover & _).
  - repeat constructor.
  - intros [_ Hq]. discriminate Hq.
  - simpl. lia.
  - exists res. split; [exact Hres|]. now apply Hover.
Defined.

(** C7, as stated, fails: a status poll that fails with an error other
    than EPERM, and a poll that stays quiet until the wall clock runs out,
    both return TIMEOUT, which is none of TIME_ERROR, OVERFLOW,
    NOT_SUPPORTED and 0. *)
Lemma readStreamStatus_timeout_not_listed :
  readStreamStatus demo_lib 1%Q (demo_stream [11] 0 0 0) 0 []
    [mkStatusReply (-1) 5 StreamMetadata_init]
  = Some (mkStatusResult SOAPY_SDR_TIMEOUT 0 0)
  /\ readStreamStatus demo_lib 1%Q (demo_stream [11] 0 0 0) 0 [true]
       [mkStatusReply 0 0 StreamMetadata_init]
     = Some (mkStatusResult SOAPY_SDR_TIMEOUT 0 0)
  /\ SOAPY_SDR_TIMEOUT <> 0
  /\ SOAPY_SDR_TIMEOUT <> SOAPY_SDR_TIME_ERROR
  /\ SOAPY_SDR_TIMEOUT <> SOAPY_SDR_OVERFLOW
  /\ SOAPY_SDR_TIMEOUT <> SOAPY_SDR_NOT_SUPPORTED.
Proof. repeat split; discriminate. Qed.

(** ** activateStream *)

Lemma controlAll_fails enable : forall ids script k st,
  (k < length ids)%nat -> script !! k = Some st -> st <> 0 ->
  exists evs, controlAll enable ids script = Some (false, evs).
Proof.
  induction ids as [|i ids IH]; intros script k st Hk Hst Hne.
  { cbn in Hk. lia. }
  destruct script as [|st0 script]; [discriminate|].
  cbn [controlAll]. destruct (Z.eqb_spec st0 0) as [-> | Hnz]; cbn [negb].
  - destruct k as [|k]; [cbn in Hst; congruence|].
    destruct (IH script k st) as [evs Hevs]; [cbn in Hk; lia | done | done|].
    rewrite Hevs. cbn. eauto.
  - eauto.
Qed.

Lemma alignLoop_calls ids elemSize timeoutMs : forall script st calls out,
  alignLoop ids elemSize timeoutMs script st calls = Some out ->
  exists more, ao_calls out = calls ++ more.
Proof.
  induction script as [|r script IH]; intros st calls out Hout;
    cbn [alignLoop] in Hout;
    destruct (length ids <=? al_i st)%nat.
  - simplify_eq. exists []. cbn. now rewrite app_nil_r.
  - discriminate.
  - simplify_eq. exists []. cbn. now rewrite app_nil_r.
  - destruct (alignBody elemSize r st) as [st' | code st'].
    + apply IH in Hout as [more Hmore]. rewrite Hmore, <- app_assoc. eauto.
    + simplify_eq. cbn. eauto.
Qed.

(** With at least one channel, an aligned read starts with a [ReadStream]
    on the first of them. *)
Lemma readStreamAligned_first_call stream id ids buffs numElems requestTime md
    timeoutMs script out :
  ics_streamID stream = id :: ids ->
  _readStreamAligned stream buffs numElems requestTime md timeoutMs script
  = Some out ->
  exists more,
    ao_calls out = mkReadCall id 0 (wrap64 numElems) timeoutMs :: more.
Proof.
  intros Hids. unfold _readStreamAligned. rewrite Hids.
  destruct script as [|r script]; cbn [alignLoop length replicate al_i Nat.leb];
    [discriminate|].
  cbn [al_numWritten al_numElems cnt lookup list_lookup default].
  intros Hout.
  assert (Hcall : exists more,
            ao_calls out = [] ++ [mkReadCall id 0 (wrap64 numElems) timeoutMs]
                              ++ more).
  { cbn in Hout. rewrite Z.mul_0_r, Z.sub_0_r in Hout.
    change (wrap64 0) with 0 in Hout.
    destruct alignBody as [st' | code st'].
    - apply alignLoop_calls in Hout as [more Hmore]. eauto.
    - simplify_eq. exists []. reflexivity. }
  exact Hcall.
Qed.

(** A [ReadStream] answered with a status that is not positive ends the
    loop. *)
Lemma alignBody_fails es r st :
  rd_status r <= 0 -> exists code st', alignBody es r st = Return code st'.
Proof.
  intros Hs. unfold alignBody.
  destruct (Z.eqb_spec (rd_status r) 0); [eauto|].
  destruct (Z.ltb_spec (rd_status r) 0); [eauto | lia].
Qed.

(** The loop returns on every transport that, at some point, answers a
    [ReadStream] with a timeout or a failure. *)
Lemma alignLoop_returns ids es timeoutMs : forall script st calls j reply,
  script !! j = Some reply -> rd_status reply <= 0 ->
  exists out, alignLoop ids es timeoutMs script st calls = Some out.
Proof.
  induction script as [|r script IH]; intros st calls j reply Hj Hs;
    [discriminate|].
  cbn [alignLoop]. destruct (length ids <=? al_i st)%nat; [eauto|].
  destruct (alignBody es r st) as [st' | code st'] eqn:Hbody; [|eauto].
  destruct j as [|j].
  - cbn in Hj. injection Hj as ->.
    destruct (alignBody_fails es reply st Hs) as (code & st'' & Hret).
    congruence.
  - cbn in Hj. eapply IH; eauto.
Qed.

(** C10.  An [activateStream] call on a stream that is not enabled, on a
    configured device whose calibrations go through, in which some
    [ControlStream(enable)] answers with a failure: the call returns
    STREAM_ERROR and leaves the stream not enabled, yet with the command
    pending and the new flags, time and count recorded.  A [readStream]
    that follows does not take the no-command path; it attempts an
    aligned read on the stream that was never enabled:
    - whenever it returns, it has called the alignment helper, and its
      first transport call is a [ReadStream] on the first channel;
    - it does return, in that way, on every transport that at some point
      answers a [ReadStream] with a timeout (0) or a failure;
    - on a transport that answers the first [ReadStream] so, it returns
      TIMEOUT or STREAM_ERROR after exactly that one call, the command
      still pending. *)
Theorem activateStream_failure_leaves_command rate dev s flags timeNs numElems
    script k st :
  ics_enabled s = false ->
  Qeq_bool rate 0 = false ->
  (calibrateChannels (_actualBw dev) (_channelsToCal dev)).2 = true ->
  (k < length (ics_streamID s))%nat -> script !! k = Some st -> st <> 0 ->
  exists res,
    activateStream rate dev s flags timeNs numElems script = Some res
    /\ ac_ret res = Some SOAPY_SDR_STREAM_ERROR
    /\ ics_enabled (ac_stream res) = false
    /\ ics_hasCmd (ac_stream res) = true
    /\ ics_flags (ac_stream res) = flags
    /\ ics_timeNs (ac_stream res) = timeNs
    /\ ics_numElems (ac_stream res) = numElems
    /\ (forall lib rate' buffs n fl t timeoutUs rscript r,
          readStream lib rate' (ac_stream res) buffs n fl t timeoutUs rscript
          = Some r ->
          (exists status md, rr_aligned r = Some (status, md))
          /\ exists id more,
               head (ics_streamID s) = Some id
               /\ rr_calls r
                  = mkReadCall id 0
                      (wrap64 (readStream_request (ac_stream res) n fl))
                      (Z.quot timeoutUs 1000) :: more)
    /\ (forall lib rate' buffs n fl t timeoutUs rscript j reply,
          rscript !! j = Some reply -> rd_status reply <= 0 ->
          exists r status md id more,
            readStream lib rate' (ac_stream res) buffs n fl t timeoutUs rscript
            = Some r
            /\ rr_aligned r = Some (status, md)
            /\ head (ics_streamID s) = Some id
            /\ rr_calls r
               = mkReadCall id 0
                   (wrap64 (readStream_request (ac_stream res) n fl))
                   (Z.quot timeoutUs 1000) :: more)
    /\ (forall lib rate' buffs n fl t timeoutUs reply rest,
          rd_status reply <= 0 ->
          exists r id,
            readStream lib rate' (ac_stream res) buffs n fl t timeoutUs
                       (reply :: rest)
            = Some r
            /\ head (ics_streamID s) = Some id
            /\ rr_ret r = (if rd_status reply =? 0 then SOAPY_SDR_TIMEOUT
                           else SOAPY_SDR_STREAM_ERROR)
            /\ rr_calls r
               = [mkReadCall id 0
                    (wrap64 (readStream_request (ac_stream res) n fl))
                    (Z.quot timeoutUs 1000)]
            /\ rr_rest r = rest
            /\ rr_stream r = ac_stream res).
Proof.
  intros Hen Hrate Hcal Hk Hst Hne.
  destruct (controlAll_fails true _ _ _ _ Hk Hst Hne) as [evs Hctl].
  unfold activateStream. rewrite Hrate.
  destruct calibrateChannels as [[remaining cal] finished]. cbn in Hcal.
  subst finished. cbn [negb ics_enabled]. rewrite Hen. cbn [negb].
  rewrite Hctl. cbn [mbind option_bind].
  set (s1 := mkStream (ics_streamID s) (ics_direction s) (ics_elemSize s)
               (ics_elemMTU s) false true flags timeNs numElems).
  destruct (ics_streamID s) as [|id ids] eqn:Hids; [cbn in Hk; lia|].
  assert (Hids1 : ics_streamID s1 = id :: ids) by reflexivity.
  assert (Hread : forall lib rate' buffs n fl t timeoutUs rscript r,
            readStream lib rate' s1 buffs n fl t timeoutUs rscript = Some r ->
            (exists status md, rr_aligned r = Some (status, md))
            /\ exists more,
                 rr_calls r
                 = mkReadCall id 0 (wrap64 (readStream_request s1 n fl))
                              (Z.quot timeoutUs 1000) :: more).
  { intros lib rate' buffs n fl t timeoutUs rscript r H.
    unfold readStream in H. cbn [ics_hasCmd s1 negb] in H.
    destruct _readStreamAligned as [out|] eqn:Hal; [|discriminate].
    destruct (readStreamAligned_first_call _ _ _ _ _ _ _ _ _ _ Hids1 Hal)
      as [more Hmore].
    cbn in H.
    destruct (ao_status out <? 0); [simplify_eq; cbn; eauto|].
    destruct readStream_finish as [[[? ?] ?] ?]. simplify_eq. cbn. eauto. }
  assert (Hsome : forall lib rate' buffs n fl t timeoutUs rscript j reply,
            rscript !! j = Some reply -> rd_status reply <= 0 ->
            exists r,
              readStream lib rate' s1 buffs n fl t timeoutUs rscript = Some r).
  { intros lib rate' buffs n fl t timeoutUs rscript j reply Hj Hs.
    unfold readStream. cbn [ics_hasCmd s1 negb]. unfold _readStreamAligned.
    destruct (alignLoop_returns (ics_streamID s1) (ics_elemSize s1)
                (Z.quot timeoutUs 1000) rscript
                (mkAlign 0 (replicate (length (ics_streamID s1)) 0)
                   (readStream_request s1 n fl)
                   (readStream_cmdTicks lib rate' s1) StreamMetadata_init buffs)
                [] j reply Hj Hs) as [out ->].
    cbn [mbind option_bind].
    destruct (ao_status out <? 0); [eauto|].
    destruct readStream_finish as [[[? ?] ?] ?]. eauto. }
  eexists. split; [reflexivity|]. cbn [ac_ret ac_stream]. fold s1.
  split; [done|]. split; [done|]. split; [done|]. split; [done|].
  split; [done|]. split; [done|]. split; [|split].
  - intros lib rate' buffs n fl t timeoutUs rscript r H.
    destruct (Hread _ _ _ _ _ _ _ _ _ H) as [Hal [more Hmore]].
    split; [exact Hal|]. exists id, more. split; [done | exact Hmore].
  - intros lib rate' buffs n fl t timeoutUs rscript j reply Hj Hs.
    destruct (Hsome lib rate' buffs n fl t timeoutUs rscript j reply Hj Hs)
      as [r Hr].
    destruct (Hread _ _ _ _ _ _ _ _ _ Hr) as [(status & md & Hal) [more Hmore]].
    exists r, status, md, id, more. done.
  - intros lib rate' buffs n fl t timeoutUs reply rest Hs.
    unfold readStream. cbn [ics_hasCmd s1 negb]. unfold _readStreamAligned.
    rewrite Hids1. cbn [length replicate alignLoop al_i Nat.leb].
    unfold alignBody.
    cbn [al_i al_numWritten al_numElems al_requestTime al_md al_buffs].
    destruct (Z.eqb_spec (rd_status reply) 0) as [Hz | Hz].
    + cbn. eexists _, id. split; [reflexivity|]. cbn.
      rewrite Z.mul_0_r, Z.sub_0_r. done.
    + destruct (Z.ltb_spec (rd_status reply) 0); [|lia].
      cbn. eexists _, id. split; [reflexivity|]. cbn.
      rewrite Z.mul_0_r, Z.sub_0_r. done.
Qed.

Lemma activateStream_failure_leaves_command_witness :
  let s := mkStream [11; 12] SOAPY_SDR_RX 2 1020 false false 0 0 0 in
  let buffs := [demo_buffer 10; demo_buffer 10] in
  exists res,
    activateStream 1%Q demo_dev s SOAPY_SDR_HAS_TIME 100 0 [0; -1] = Some res
    /\ ac_ret res = Some SOAPY_SDR_STREAM_ERROR
    /\ ics_enabled (ac_stream res) = false
    /\ ics_hasCmd (ac_stream res) = true
    /\ (exists r status md id more,
          readStream demo_lib 1%Q (ac_stream res) buffs 10 0 0 100000
                     [mkReply 4 (demo_md 100); mkReply 0 (demo_md 0)]
          = Some r
          /\ rr_aligned r = Some (status, md)
          /\ head (ics_streamID s) = Some id
          /\ rr_calls r
             = mkReadCall id 0
                 (wrap64 (readStream_request (ac_stream res) 10 0))
                 (Z.quot 100000 1000) :: more)
    /\ (exists r id,
          readStream demo_lib 1%Q (ac_stream res) buffs 10 0 0 100000
                     [mkReply 0 (demo_md 0)]
          = Some r
          /\ head (ics_streamID s) = Some id
          /\ rr_ret r = (if rd_status (mkReply 0 (demo_md 0)) =? 0
                         then SOAPY_SDR_TIMEOUT else SOAPY_SDR_STREAM_ERROR)
          /\ rr_calls r
             = [mkReadCall id 0
                  (wrap64 (readStream_request (ac_stream res) 10 0))
                  (Z.quot 100000 1000)]
          /\ rr_rest r = []
          /\ rr_stream r = ac_stream res).
Proof.
  intros s buffs.
  refine (match activateStream_failure_leaves_command 1%Q demo_dev s SOAPY_SDR_HAS_TIME 100 0 [0; -1] 1%nat (-1)
                  _ _ _ _ _ _ with
          | ex_intro _ res (conj Hres (conj Hret (conj Hen (conj Hcmd
              (conj _ (conj _ (conj _ (conj _ (conj Htotal Hone))))))))) =>
              ex_intro _ res
                (conj Hres (conj Hret (conj Hen (conj Hcmd
                   (conj (Htotal demo_lib 1%Q buffs 10 0 0 100000
                            [mkReply 4 (demo_md 100); mkReply 0 (demo_md 0)]
                            1%nat (mkReply 0 (demo_md 0)) _ _)
                         (Hone demo_lib 1%Q buffs 10 0 0 100000
                            (mkReply 0 (demo_md 0)) [] _))))))
          end).
  - reflexivity.
  - reflexivity.
  - reflexivity.
  - simpl. lia.
  - reflexivity.
  - lia.
  - reflexivity.
  - simpl. lia.
  - simpl. lia.
Defined.

(** ** The pending calibration set *)

Lemma pair_lt_spec a b :
  pair_lt a b = true <-> a.1 < b.1 \/ (a.1 = b.1 /\ a.2 < b.2).
Proof.
  unfold pair_lt. rewrite orb_true_iff, andb_true_iff.
  rewrite !Z.ltb_lt, Z.eqb_eq. tauto.
Qed.

Lemma pair_lt_trans a b c :
  pair_lt a b = true -> pair_lt b c = true -> pair_lt a c = true.
Proof. rewrite !pair_lt_spec. lia. Qed.

Lemma pair_lt_irrefl a : pair_lt a a = false.
Proof.
  destruct (pair_lt a a) eqn:H; [|done]. apply pair_lt_spec in H. lia.
Qed.

Lemma pair_lt_total a b :
  pair_lt a b = false -> pair_lt b a = false -> a = b.
Proof.
  intros Hab Hba. destruct a as [a1 a2], b as [b1 b2].
  assert (~ (a1 < b1 \/ (a1 = b1 /\ a2 < b2))) as H1.
  { intros H. apply (pair_lt_spec (a1, a2) (b1, b2)) in H. congruence. }
  assert (~ (b1 < a1 \/ (b1 = a1 /\ b2 < a2))) as H2.
  { intros H. apply (pair_lt_spec (b1, b2) (a1, a2)) in H. congruence. }
  f_equal; lia.
Qed.

Lemma is_set_NoDup s : is_set s -> NoDup s.
Proof.
  induction 1 as [|x s Hs IH Hall]; [apply NoDup_nil_2|].
  apply NoDup_cons. split; [|done].
  intros Hin. rewrite Forall_forall in Hall. specialize (Hall _ Hin).
  now rewrite pair_lt_irrefl in Hall.
Qed.

Lemma set_emplace_elem x s p : p ∈ set_emplace x s <-> p = x \/ p ∈ s.
Proof.
  induction s as [|y s IH]; cbn [set_emplace].
  - rewrite list_elem_of_singleton, elem_of_nil. tauto.
  - destruct (pair_lt x y) eqn:Hxy; [apply elem_of_cons|].
    destruct (pair_lt y x) eqn:Hyx.
    + rewrite !elem_of_cons, IH. tauto.
    + rewrite (pair_lt_total _ _ Hxy Hyx), elem_of_cons. tauto.
Qed.

Lemma set_emplace_is_set x s : is_set s -> is_set (set_emplace x s).
Proof.
  unfold is_set. induction 1 as [|y s Hs IH Hall]; cbn [set_emplace].
  { repeat constructor. }
  destruct (pair_lt x y) eqn:Hxy.
  - constructor; [now constructor|]. constructor; [done|].
    eapply Forall_impl; [exact Hall|]. intros z Hz. cbn in Hz.
    eapply pair_lt_trans; eauto.
  - destruct (pair_lt y x) eqn:Hyx; [|now constructor].
    constructor; [done|]. rewrite Forall_forall. intros z Hz.
    apply set_emplace_elem in Hz as [-> | Hz]; [done|].
    rewrite Forall_forall in Hall. now apply Hall.
Qed.

Lemma emplace_all_is_set direction chs : forall s,
  is_set s ->
  is_set (foldl (fun s ch => set_emplace (direction, ch) s) s chs).
Proof.
  induction chs as [|ch chs IH]; intros s Hs; [done|].
  cbn. apply IH. now apply set_emplace_is_set.
Qed.

Lemma emplace_all_elem direction chs p : forall s,
  p ∈ foldl (fun s ch => set_emplace (direction, ch) s) s chs
  <-> p ∈ s \/ (p.1 = direction /\ p.2 ∈ chs).
Proof.
  induction chs as [|ch chs IH]; intros s; cbn.
  - rewrite elem_of_nil. tauto.
  - rewrite IH, set_emplace_elem, elem_of_cons. destruct p as [d c]. cbn.
    split.
    + intros [[Heq | ?] | [? ?]]; [simplify_eq|..]; tauto.
    + intros [? | [<- [-> | ?]]]; tauto.
Qed.

Lemma calibrations_app dir ch a b :
  calibrations dir ch (a ++ b)
  = (calibrations dir ch a + calibrations dir ch b)%nat.
Proof. unfold calibrations. now rewrite filter_app, length_app. Qed.

Lemma calibrations_none dir ch evs :
  Forall (fun e => is_cal e = false) evs -> calibrations dir ch evs = 0%nat.
Proof.
  unfold calibrations. induction 1 as [|e evs He _ IH]; [done|].
  rewrite filter_cons. destruct e; try discriminate; cbn;
    now rewrite decide_False by done.
Qed.

Lemma calibrations_rx dir ch c b :
  calibrations dir ch [CalibrateRx c b]
  = if (dir =? SOAPY_SDR_RX) && (c =? ch) then 1%nat else 0%nat.
Proof.
  unfold calibrations. rewrite filter_cons. cbn [calibrates].
  destruct ((dir =? SOAPY_SDR_RX) && (c =? ch));
    [now rewrite decide_True | now rewrite decide_False].
Qed.

Lemma calibrations_tx dir ch c b :
  calibrations dir ch [CalibrateTx c b]
  = if (dir =? SOAPY_SDR_TX) && (c =? ch) then 1%nat else 0%nat.
Proof.
  unfold calibrations. rewrite filter_cons. cbn [calibrates].
  destruct ((dir =? SOAPY_SDR_TX) && (c =? ch));
    [now rewrite decide_True | now rewrite decide_False].
Qed.

(** The calibration loop takes the members in order, calibrates each RX
    or TX member once, and stops early only where a bandwidth is missing. *)
Lemma calibrateChannels_spec actualBw : forall toCal remaining cal finished,
  NoDup toCal ->
  calibrateChannels actualBw toCal = (remaining, cal, finished) ->
  exists processed,
    toCal = processed ++ remaining
    /\ (finished = true -> remaining = [])
    /\ Forall (fun e => is_cal e = true) cal
    /\ forall dir ch,
         (calibrations dir ch cal <= 1)%nat
         /\ ((dir, ch) ∉ processed -> calibrations dir ch cal = 0%nat)
         /\ ((dir, ch) ∈ processed ->
             dir = SOAPY_SDR_RX \/ dir = SOAPY_SDR_TX ->
             calibrations dir ch cal = 1%nat).
Proof.
  induction toCal as [|[d c] rest IH]; intros remaining cal finished Hnd Hc.
  { cbn in Hc. simplify_eq. exists [].
    split; [done|]. split; [done|]. split; [done|]. intros dir ch.
    split; [cbn; lia|]. split; [done|].
    intros Hin. now apply elem_of_nil in Hin. }
  apply NoDup_cons in Hnd as [Hfresh Hnd].
  cbn [calibrateChannels] in Hc.
  set (bw := actualBw !! d ≫= (.!! c)) in Hc.
  assert (Hstop : (remaining, cal, finished) = ((d, c) :: rest, [], false) ->
            exists processed,
              (d, c) :: rest = processed ++ remaining
              /\ (finished = true -> remaining = [])
              /\ Forall (fun e => is_cal e = true) cal
              /\ forall dir ch,
                   (calibrations dir ch cal <= 1)%nat
                   /\ ((dir, ch) ∉ processed -> calibrations dir ch cal = 0%nat)
                   /\ ((dir, ch) ∈ processed ->
                       dir = SOAPY_SDR_RX \/ dir = SOAPY_SDR_TX ->
                       calibrations dir ch cal = 1%nat)).
  { intros Heq. simplify_eq. exists [].
    split; [done|]. split; [done|]. split; [done|]. intros dir ch.
    split; [cbn; lia|]. split; [done|].
    intros Hin. now apply elem_of_nil in Hin. }
  destruct (calibrateChannels actualBw rest) as [[rem' evs] fin'] eqn:Hrec.
  destruct (IH _ _ _ Hnd eq_refl) as (processed & Hsplit & Hfin & Hcal & Hcount).
  assert (Hgo : forall e,
            (remaining, cal, finished) = (rem', e ++ evs, fin') ->
            Forall (fun e => is_cal e = true) e ->
            (forall dir ch,
               calibrations dir ch e
               = if (dir =? d) && (ch =? c)
                    && ((d =? SOAPY_SDR_RX) || (d =? SOAPY_SDR_TX))
                 then 1%nat else 0%nat) ->
            exists processed,
              (d, c) :: rest = processed ++ remaining
              /\ (finished = true -> remaining = [])
              /\ Forall (fun e => is_cal e = true) cal
              /\ forall dir ch,
                   (calibrations dir ch cal <= 1)%nat
                   /\ ((dir, ch) ∉ processed -> calibrations dir ch cal = 0%nat)
                   /\ ((dir, ch) ∈ processed ->
                       dir = SOAPY_SDR_RX \/ dir = SOAPY_SDR_TX ->
                       calibrations dir ch cal = 1%nat)).
  { intros e Heq He Hone. simplify_eq. exists ((d, c) :: processed).
    split; [done|]. split; [done|]. split; [now apply Forall_app|].
    intros dir ch. rewrite calibrations_app, Hone.
    destruct (Hcount dir ch) as (Hle & Hout & Hin).
    assert (Hhere : (dir, ch) = (d, c) -> calibrations dir ch evs = 0%nat).
    { intros Heq. apply Hout. intros Hp. apply Hfresh. rewrite <- Heq.
      apply elem_of_app. now left. }
    destruct (Z.eqb_spec dir d) as [-> | Hd];
      destruct (Z.eqb_spec ch c) as [-> | Hch]; cbn [andb].
    - rewrite (Hhere eq_refl).
      destruct ((d =? SOAPY_SDR_RX) || (d =? SOAPY_SDR_TX)) eqn:Hdir.
      + repeat split; try lia. intros Hnot. exfalso. apply Hnot.
        apply elem_of_cons. now left.
      + repeat split; try lia; intros _ [-> | ->]; discriminate.
    - repeat split; try lia.
      + intros Hnot. apply Hout. intros Hp. apply Hnot.
        apply elem_of_cons. now right.
      + intros Hp Hdir. apply elem_of_cons in Hp as [Heq | Hp];
          [congruence|]. cbn. now apply Hin.
    - repeat split; try lia.
      + intros Hnot. apply Hout. intros Hp. apply Hnot.
        apply elem_of_cons. now right.
      + intros Hp Hdir. apply elem_of_cons in Hp as [Heq | Hp];
          [congruence|]. cbn. now apply Hin.
    - repeat split; try lia.
      + intros Hnot. apply Hout. intros Hp. apply Hnot.
        apply elem_of_cons. now right.
      + intros Hp Hdir. apply elem_of_cons in Hp as [Heq | Hp];
          [congruence|]. cbn. now apply Hin. }
  destruct (Z.eqb_spec d SOAPY_SDR_RX) as [-> | Hrx].
  - change (SOAPY_SDR_RX =? SOAPY_SDR_TX) with false in Hc.
    destruct bw as [b|]; cbn in Hc; [|now apply Hstop].
    apply (Hgo [CalibrateRx c b]); [done | repeat constructor|].
    intros dir ch. rewrite calibrations_rx.
    rewrite (Z.eqb_sym c ch). now rewrite andb_true_r.
  - destruct (Z.eqb_spec d SOAPY_SDR_TX) as [-> | Htx].
    + destruct bw as [b|]; cbn in Hc; [|now apply Hstop].
      apply (Hgo [CalibrateTx c b]); [done | repeat constructor|].
      intros dir ch. rewrite calibrations_tx.
      rewrite (Z.eqb_sym c ch). now rewrite andb_true_r.
    + cbn in Hc. apply (Hgo []); [done | constructor|].
      intros dir ch. cbn.
      destruct (Z.eqb_spec d SOAPY_SDR_RX); [done|].
      destruct (Z.eqb_spec d SOAPY_SDR_TX); [done|].
      now rewrite andb_false_r.
Qed.

Lemma controlAll_events enable : forall ids script ok ctl,
  controlAll enable ids script = Some (ok, ctl) ->
  Forall (fun e => is_control e = true) ctl.
Proof.
  induction ids as [|i ids IH]; intros script ok ctl Hc; cbn in Hc.
  { simplify_eq. constructor. }
  destruct script as [|st script]; [discriminate|].
  destruct (negb (st =? 0)); [simplify_eq; repeat constructor|].
  destruct (controlAll enable ids script) as [[ok' ctl']|] eqn:Hrec;
    [|discriminate].
  cbn in Hc. simplify_eq. constructor; [done|]. eauto.
Qed.

(** What one [activateStream] call does to the set and to the log. *)
Lemma activateStream_calibrates rate dev s flags timeNs numElems script res :
  NoDup (_channelsToCal dev) ->
  activateStream rate dev s flags timeNs numElems script = Some res ->
  exists processed cal others,
    _channelsToCal dev = processed ++ _channelsToCal (ac_dev res)
    /\ ac_events res = cal ++ others
    /\ Forall (fun e => is_cal e = true) cal
    /\ Forall (fun e => is_cal e = false) others
    /\ (forall dir ch,
          (calibrations dir ch cal <= 1)%nat
          /\ ((dir, ch) ∉ processed -> calibrations dir ch cal = 0%nat)
          /\ ((dir, ch) ∈ processed ->
              dir = SOAPY_SDR_RX \/ dir = SOAPY_SDR_TX ->
              calibrations dir ch cal = 1%nat))
    /\ (forall code, ac_ret res = Some code ->
          _channelsToCal (ac_dev res) = []
          /\ exists ctl,
               others = Modify_SPI_Reg_bits 0 "DC_BYP_RXTSP" 1 :: ctl
               /\ Forall (fun e => is_control e = true) ctl).
Proof.
  intros Hnd Hact. unfold activateStream in Hact.
  destruct (Qeq_bool rate 0).
  { simplify_eq. exists [], [], []. cbn.
    split; [done|]. split; [done|]. split; [done|]. split; [done|].
    split; [|done]. intros dir ch. split; [lia|]. split; [done|].
    intros Hin. now apply elem_of_nil in Hin. }
  destruct (calibrateChannels (_actualBw dev) (_channelsToCal dev))
    as [[remaining cal] finished] eqn:Hcal.
  destruct (calibrateChannels_spec _ _ _ _ _ Hnd Hcal)
    as (processed & Hsplit & Hfin & Hevs & Hcount).
  destruct finished; cbn [negb] in Hact.
  2:{ simplify_eq. exists processed, cal, []. cbn. rewrite app_nil_r.
      repeat split; try done; apply Hcount. }
  specialize (Hfin eq_refl). subst remaining.
  cbn [ics_enabled] in Hact.
  assert (Hctl : forall ctl,
            Forall (fun e => is_control e = true) ctl ->
            Forall (fun e => is_cal e = false)
                   (Modify_SPI_Reg_bits 0 "DC_BYP_RXTSP" 1 :: ctl)).
  { intros ctl Hall. constructor; [done|].
    eapply Forall_impl; [exact Hall|]. now intros []. }
  destruct (ics_enabled s); cbn [negb] in Hact.
  - simplify_eq. exists processed, cal, [Modify_SPI_Reg_bits 0 "DC_BYP_RXTSP" 1].
    cbn. repeat split; try done; try apply Hcount.
    + now apply Hctl.
    + exists []. now split.
  - destruct (controlAll true (ics_streamID s) script) as [[ok ctl]|] eqn:Hc;
      [|discriminate].
    apply controlAll_events in Hc. cbn in Hact.
    destruct ok; simplify_eq;
      exists processed, cal, (Modify_SPI_Reg_bits 0 "DC_BYP_RXTSP" 1 :: ctl);
      cbn; repeat split; try done; try apply Hcount; try (now apply Hctl);
      exists ctl; now split.
Qed.

Lemma setupStream_is_set lib dev config0 stream0 direction fmt channels args
    script res :
  is_set (_channelsToCal dev) ->
  setupStream lib dev config0 stream0 direction fmt channels args script
  = Some res ->
  is_set (_channelsToCal (so_dev res)).
Proof.
  intros Hs Hsetup. unfold setupStream in Hsetup.
  destruct setupChannels as [[[stream|] configs]|]; cbn in Hsetup;
    simplify_eq; cbn; [|done].
  now apply emplace_all_is_set.
Qed.

Lemma runOps_app lib ops1 : forall st ops2,
  runOps lib st (ops1 ++ ops2)
  = runOps lib st ops1 ≫= fun st' => runOps lib st' ops2.
Proof.
  induction ops1 as [|op ops1 IH]; intros st ops2; [done|].
  cbn. destruct (runOp lib st op) as [st'|]; cbn; [apply IH | done].
Qed.

Lemma runOps_setups lib : forall ops dev evs dev' evs',
  forallb is_setup ops = true ->
  is_set (_channelsToCal dev) ->
  runOps lib (dev, evs) ops = Some (dev', evs') ->
  evs' = evs /\ is_set (_channelsToCal dev').
Proof.
  induction ops as [|op ops IH]; intros dev evs dev' evs' Hall Hs Hrun.
  { cbn in Hrun. now simplify_eq. }
  cbn in Hall. apply andb_true_iff in Hall as [Hop Hall].
  destruct op; [|discriminate]. cbn in Hrun.
  destruct setupStream as [res|] eqn:Hsetup; [|discriminate]. cbn in Hrun.
  apply (IH _ _ _ _ Hall) in Hrun; [done|].
  eapply setupStream_is_set; eauto.
Qed.

Lemma runOps_activates lib : forall ops dev evs dev' evs',
  forallb is_activate ops = true ->
  cal_inv dev evs ->
  runOps lib (dev, evs) ops = Some (dev', evs') ->
  cal_inv dev' evs'.
Proof.
  induction ops as [|op ops IH]; intros dev evs dev' evs' Hall Hinv Hrun.
  { cbn in Hrun. now simplify_eq. }
  cbn in Hall. apply andb_true_iff in Hall as [Hop Hall].
  destruct op; [discriminate|]. cbn in Hrun.
  destruct activateStream as [res|] eqn:Hact; [|discriminate]. cbn in Hrun.
  apply (IH _ _ _ _ Hall) in Hrun; [done|].
  destruct Hinv as [Hnd Hinv].
  destruct (activateStream_calibrates _ _ _ _ _ _ _ _ Hnd Hact)
    as (processed & cal & others & Hsplit & Hevs & _ & Hothers & Hcount & _).
  rewrite Hsplit in Hnd, Hinv. apply NoDup_app in Hnd as (_ & Hdisj & Hnd').
  split; [done|]. intros dir ch.
  rewrite Hevs, !calibrations_app, (calibrations_none _ _ others Hothers).
  destruct (Hinv dir ch) as [Hle Hin].
  destruct (Hcount dir ch) as (Hle' & Hout & _).
  destruct (decide ((dir, ch) ∈ processed)) as [Hp | Hp].
  - rewrite Hin by (apply elem_of_app; now left).
    split; [lia|]. intros Hrem. exfalso. now apply (Hdisj _ Hp).
  - rewrite (Hout Hp). split; [lia|]. intros Hrem.
    rewrite Hin by (apply elem_of_app; now right). lia.
Qed.

(** C5.  (1) From a driver whose pending calibration set is empty, after
    any [setupStream] calls followed by any [activateStream] calls, no
    (direction, channel) pair has been calibrated more than once.
    (2) A [setupStream] that returns a stream leaves a duplicate-free set
    holding what it held before and every channel just configured.
    (3) An [activateStream] that returns leaves the set empty; in its
    events the calibrations come first, before the stream is enabled, one
    for every RX or TX member the set had and none for a pair that was not
    in it, so an activation that finds the set empty calibrates nothing. *)
Theorem calibration_at_most_once lib :
  (forall dev0 setups activates dev evs,
     _channelsToCal dev0 = [] ->
     forallb is_setup setups = true ->
     forallb is_activate activates = true ->
     runOps lib (dev0, []) (setups ++ activates) = Some (dev, evs) ->
     forall dir ch, (calibrations dir ch evs <= 1)%nat)
  /\ (forall dev config0 stream0 direction fmt channels args script res stream,
        is_set (_channelsToCal dev) ->
        setupStream lib dev config0 stream0 direction fmt channels args script
        = Some res ->
        so_stream res = Some stream ->
        let channelIDs := match channels with [] => [0] | _ => channels end in
        is_set (_channelsToCal (so_dev res))
        /\ NoDup (_channelsToCal (so_dev res))
        /\ forall p, p ∈ _channelsToCal (so_dev res)
                     <-> p ∈ _channelsToCal dev
                         \/ (p.1 = direction /\ p.2 ∈ channelIDs))
  /\ (forall rate dev s flags timeNs numElems script res code,
        is_set (_channelsToCal dev) ->
        activateStream rate dev s flags timeNs numElems script = Some res ->
        ac_ret res = Some code ->
        _channelsToCal (ac_dev res) = []
        /\ exists cal ctl,
             ac_events res
             = cal ++ Modify_SPI_Reg_bits 0 "DC_BYP_RXTSP" 1 :: ctl
             /\ Forall (fun e => is_cal e = true) cal
             /\ Forall (fun e => is_control e = true) ctl
             /\ forall dir ch,
                  ((dir, ch) ∈ _channelsToCal dev ->
                   dir = SOAPY_SDR_RX \/ dir = SOAPY_SDR_TX ->
                   calibrations dir ch cal = 1%nat)
                  /\ ((dir, ch) ∉ _channelsToCal dev ->
                      calibrations dir ch cal = 0%nat)).
Proof.
  split; [|split].
  - intros dev0 setups activates dev evs Hempty Hsetups Hacts Hrun dir ch.
    rewrite runOps_app in Hrun.
    destruct (runOps lib (dev0, []) setups) as [[dev1 evs1]|] eqn:Hrun1;
      [|discriminate].
    cbn in Hrun.
    apply runOps_setups in Hrun1 as [-> Hset];
      [|done | rewrite Hempty; constructor].
    apply runOps_activates in Hrun; [now apply Hrun | done|].
    split; [now apply is_set_NoDup|]. intros dir' ch'. cbn. split; [lia | done].
  - intros dev config0 stream0 direction fmt channels args script res stream
      Hset Hsetup Hstream channelIDs.
    pose proof (setupStream_is_set _ _ _ _ _ _ _ _ _ _ Hset Hsetup) as Hset'.
    split; [done|]. split; [now apply is_set_NoDup|].
    unfold setupStream in Hsetup.
    destruct setupChannels as [[[stream'|] configs]|]; cbn in Hsetup;
      simplify_eq. cbn.
    intros p. apply emplace_all_elem.
  - intros rate dev s flags timeNs numElems script res code Hset Hact Hret.
    destruct (activateStream_calibrates _ _ _ _ _ _ _ _
                (is_set_NoDup _ Hset) Hact)
      as (processed & cal & others & Hsplit & Hevs & Hcal & _ & Hcount & Hdone).
    destruct (Hdone _ Hret) as (Hempty & ctl & -> & Hctl).
    split; [done|]. exists cal, ctl. split; [done|]. split; [done|].
    split; [done|]. rewrite Hempty, app_nil_r in Hsplit. subst processed.
    intros dir ch. destruct (Hcount dir ch) as (_ & Hout & Hin). now split.
Qed.

Lemma calibration_at_most_once_witness :
  exists dev evs,
    runOps demo_lib (demo_dev, [])
      ([OpSetup demo_config0 demo_stream0 SOAPY_SDR_RX "CS16" [0] ∅
                [mkSetupReply 0 11 1020];
        OpSetup demo_config0 demo_stream0 SOAPY_SDR_RX "CS16" [0] ∅
                [mkSetupReply 0 12 1020]]
       ++ [OpActivate 1%Q (demo_stream [11] 0 0 0) 0 0 0 [];
           OpActivate 1%Q (demo_stream [12] 0 0 0) 0 0 0 []])
    = Some (dev, evs)
    /\ calibrations SOAPY_SDR_RX 0 evs = 1%nat
    /\ forall dir ch, (calibrations dir ch evs <= 1)%nat.
Proof.
  eexists _, _. split; [vm_compute; reflexivity|]. split; [reflexivity|].
  eapply (proj1 (calibration_at_most_once demo_lib) demo_dev
            [OpSetup demo_config0 demo_stream0 SOAPY_SDR_RX "CS16" [0] ∅
                     [mkSetupReply 0 11 1020];
             OpSetup demo_config0 demo_stream0 SOAPY_SDR_RX "CS16" [0] ∅
                     [mkSetupReply 0 12 1020]]
            [OpActivate 1%Q (demo_stream [11] 0 0 0) 0 0 0 [];
             OpActivate 1%Q (demo_stream [12] 0 0 0) 0 0 0 []]).
  - reflexivity.
  - reflexivity.
  - reflexivity.
  - vm_compute. reflexivity.
Defined.

(** ** setupStream *)

Lemma channelConfig_latency lib dev fmt args config ch config' :
  channelConfig lib dev fmt args config ch = Some config' ->
  performanceLatency config' = 0%Q.
Proof.
  unfold channelConfig. intros H.
  repeat (match type of H with
          | context [mbind _ ?x] => destruct x; cbn in H
          end; try discriminate).
  now simplify_eq.
Qed.

Lemma setupChannels_spec lib dev fmt args : forall channelIDs config stream
    script configs r configs',
  setupChannels lib dev fmt args channelIDs config stream script configs
  = Some (r, configs') ->
  (exists more, configs' = configs ++ more
                /\ Forall (fun c => performanceLatency c = 0%Q) more)
  /\ forall stream', r = Some stream' ->
       (length channelIDs <= length script)%nat
       /\ ics_streamID stream'
          = ics_streamID stream
            ++ map su_streamID (take (length channelIDs) script)
       /\ ics_elemMTU stream'
          = match last (take (length channelIDs) script) with
            | Some reply => su_streamSize reply
            | None => ics_elemMTU stream
            end.
Proof.
  induction channelIDs as [|ch channelIDs IH];
    intros config stream script configs r configs' Hsetup.
  { cbn in Hsetup. simplify_eq. split.
    - exists []. now rewrite app_nil_r.
    - intros stream' Heq. simplify_eq. cbn. rewrite app_nil_r.
      split; [lia|]. split; [done|]. now rewrite take_0. }
  cbn [setupChannels] in Hsetup.
  destruct (channelConfig lib dev fmt args config ch) as [config1|] eqn:Hcfg.
  2:{ simplify_eq. split; [|done]. exists []. now rewrite app_nil_r. }
  apply channelConfig_latency in Hcfg.
  destruct script as [|reply script]; [discriminate|].
  destruct (su_status reply =? 0); cbn [negb] in Hsetup.
  2:{ simplify_eq. split; [|done]. exists [config1]. split; [done|].
      now repeat constructor. }
  apply IH in Hsetup as [(more & -> & Hmore) Hstream].
  split.
  - exists (config1 :: more). rewrite <- app_assoc. split; [done|].
    now constructor.
  - intros stream' Heq. destruct (Hstream _ Heq) as (Hlen & Hids & Hmtu).
    cbn in Hids, Hmtu. cbn [length take map].
    split; [lia|]. split.
    { rewrite Hids. rewrite <- (assoc_L (++)). reflexivity. }
    rewrite Hmtu. destruct (take (length channelIDs) script) as [|x l] eqn:Ht;
      [reflexivity|]. rewrite last_cons_cons.
    destruct (last (x :: l)) eqn:Hl; [done|]. now apply last_None in Hl.
Qed.

(** Whatever the caller asks for, every configuration handed to the
    transport carries the latency 0. *)
Lemma setupStream_latency_always_zero lib dev config0 stream0 direction fmt
    channels args script res :
  setupStream lib dev config0 stream0 direction fmt channels args script
  = Some res ->
  Forall (fun c => performanceLatency c = 0%Q) (so_configs res).
Proof.
  unfold setupStream. intros Hsetup.
  destruct setupChannels as [[r configs]|] eqn:Hch; [|discriminate].
  apply setupChannels_spec in Hch as [(more & -> & Hmore) _].
  cbn in Hsetup. destruct r; simplify_eq; exact Hmore.
Qed.

(** C8.  The code at the failing input: a single RX channel set up with
    the argument latency = 0.7.  The caller's value, parsed and clamped to
    [0,1], is 7/10; the configuration that reaches the transport carries
    the latency 0. *)
Theorem setupStream_latency_overridden :
  exists res,
    setupStream demo_lib demo_dev demo_config0 demo_stream0 SOAPY_SDR_RX
                "CS16" [0] {[ "latency"%string := "0.7"%string ]}
                [mkSetupReply 0 11 1020]
    = Some res
    /\ map performanceLatency (so_configs res) = [0%Q]
    /\ clampLatency <$> stof demo_lib "0.7" = Some (7 # 10)%Q.
Proof. eexists. split; [vm_compute; reflexivity|]. split; reflexivity. Qed.

(** C9 (amended).  A stream returned by [setupStream] holds one stream id
    per configured channel, in order, and its MTU is the stream size the
    transport reported for the last of them (hence for channel 0 when
    there is one channel, or when all report the same size); no later
    [activateStream], [deactivateStream] or [readStream] changes the MTU
    of a stream. *)
Theorem setupStream_mtu_of_last_channel lib dev config0 stream0 direction fmt
    channels args script res stream :
  setupStream lib dev config0 stream0 direction fmt channels args script
  = Some res ->
  so_stream res = Some stream ->
  let n := length (match channels with [] => [0] | _ => channels end) in
  ics_streamID stream = map su_streamID (take n script)
  /\ (exists reply, script !! (n - 1)%nat = Some reply
                    /\ getStreamMTU stream = su_streamSize reply)
  /\ (n = 1%nat ->
      exists reply, script !! 0%nat = Some reply
                    /\ getStreamMTU stream = su_streamSize reply)
  /\ (forall rate dev' s flags timeNs numElems ctl res',
        activateStream rate dev' s flags timeNs numElems ctl = Some res' ->
        getStreamMTU (ac_stream res') = getStreamMTU s)
  /\ (forall s flags timeNs ctl code s' evs,
        deactivateStream s flags timeNs ctl = Some (code, s', evs) ->
        getStreamMTU s' = getStreamMTU s)
  /\ (forall lib' rate s buffs numElems flags timeNs timeoutUs rscript r,
        readStream lib' rate s buffs numElems flags timeNs timeoutUs rscript
        = Some r ->
        getStreamMTU (rr_stream r) = getStreamMTU s).
Proof.
  intros Hsetup Hstream n.
  unfold setupStream in Hsetup.
  destruct setupChannels as [[r configs]|] eqn:Hch; [|discriminate].
  cbn in Hsetup. destruct r as [stream'|]; simplify_eq/=.
  apply setupChannels_spec in Hch as [_ Hspec].
  destruct (Hspec _ eq_refl) as (Hlen & Hids & Hmtu). fold n in Hlen, Hids, Hmtu.
  cbn in Hids.
  assert (Hn : (0 < n)%nat) by (subst n; destruct channels; cbn; lia).
  assert (Hlast : exists reply, script !! (n - 1)%nat = Some reply
                                /\ getStreamMTU stream = su_streamSize reply).
  { rewrite last_lookup, length_take in Hmtu.
    replace (Init.Nat.pred (n `min` length script)) with (n - 1)%nat in Hmtu
      by lia.
    rewrite lookup_take_lt in Hmtu by lia.
    destruct (script !! (n - 1)%nat) as [reply|] eqn:Hl.
    - now exists reply.
    - apply lookup_ge_None in Hl. lia. }
  split; [done|]. split; [exact Hlast|]. split.
  { intros Hone. rewrite Hone in Hlast. exact Hlast. }
  split; [|split].
  - intros rate dev' s flags timeNs numElems ctl res' Hact.
    unfold activateStream in Hact.
    destruct (Qeq_bool rate 0); [now simplify_eq|].
    destruct calibrateChannels as [[remaining cal] []]; cbn in Hact;
      [|now simplify_eq].
    destruct (ics_enabled s); cbn in Hact; [now simplify_eq|].
    destruct controlAll as [[[] ?]|]; cbn in Hact; now simplify_eq.
  - intros s flags timeNs ctl code s' evs Hde.
    unfold deactivateStream in Hde. cbn in Hde.
    destruct (ics_enabled s); [|now simplify_eq].
    destruct controlAll as [[[] ?]|]; cbn in Hde; now simplify_eq.
  - intros lib' rate s buffs numElems flags timeNs timeoutUs rscript r Hr.
    unfold readStream in Hr.
    destruct (ics_hasCmd s); cbn in Hr; [|now simplify_eq].
    destruct _readStreamAligned as [out|]; cbn in Hr; [|discriminate].
    destruct (ao_status out <? 0); [now simplify_eq|].
    destruct readStream_finish as [[[ret s1] fl] t] eqn:Hfin.
    simplify_eq. cbn. unfold readStream_finish in Hfin.
    repeat (case_match; simplify_eq/=); done.
Qed.

Lemma setupStream_mtu_of_last_channel_witness :
  exists res stream,
    setupStream demo_lib demo_dev demo_config0 demo_stream0 SOAPY_SDR_RX
                "CS16" [0; 1] ∅
                [mkSetupReply 0 11 1020; mkSetupReply 0 12 1020]
    = Some res
    /\ so_stream res = Some stream
    /\ ics_streamID stream = [11; 12]
    /\ exists reply,
         [mkSetupReply 0 11 1020; mkSetupReply 0 12 1020] !! 1%nat = Some reply
         /\ getStreamMTU stream = su_streamSize reply.
Proof.
  eexists _, _. split; [vm_compute; reflexivity|]. split; [reflexivity|].
  edestruct (setupStream_mtu_of_last_channel demo_lib demo_dev demo_config0
               demo_stream0 SOAPY_SDR_RX "CS16" [0; 1] ∅
               [mkSetupReply 0 11 1020; mkSetupReply 0 12 1020])
    as (Hids & Hmtu & _).
  - vm_compute. reflexivity.
  - reflexivity.
  - split; [exact Hids | exact Hmtu].
Defined.

(** C9, as stated, fails: with two channels whose streams report the
    sizes 1020 and 1360, the stream's MTU is 1360, not the 1020 of
    channel 0. *)
Lemma setupStream_mtu_not_channel0 :
  exists res stream,
    setupStream demo_lib demo_dev demo_config0 demo_stream0 SOAPY_SDR_RX
                "CS16" [0; 1] ∅
                [mkSetupReply 0 11 1020; mkSetupReply 0 12 1360]
    = Some res
    /\ so_stream res = Some stream
    /\ ics_streamID stream = [11; 12]
    /\ getStreamMTU stream = 1360
    /\ getStreamMTU stream <> 1020.
Proof.
  eexists _, _. split; [vm_compute; reflexivity|].
  repeat split; discriminate.
Qed.

(** ** The alignment helper *)

Lemma samples_nil ts es : samples ts 0 es = [].
Proof. reflexivity. Qed.

Lemma flat_map_replicate_length {A} (f : nat -> A) k : forall l,
  length (flat_map (fun x => replicate k (f x)) l) = (length l * k)%nat.
Proof.
  induction l as [|x l IH]; [done|].
  cbn [flat_map]. rewrite length_app, length_replicate, IH. cbn. lia.
Qed.

Lemma samples_length ts n es :
  0 <= n -> 0 <= es -> length (samples ts n es) = Z.to_nat (n * es).
Proof.
  intros Hn Hes. unfold samples.
  rewrite flat_map_replicate_length, length_seq. nia.
Qed.

Lemma samples_app ts a b es :
  0 <= ts -> 0 <= a -> 0 <= b -> ts + a + b <= 2 ^ 64 ->
  samples ts (a + b) es = samples ts a es ++ samples (ts + a) b es.
Proof.
  intros Hts Ha Hb Hfit. unfold samples.
  rewrite Z2Nat.inj_add by lia. rewrite seq_app, flat_map_app. f_equal.
  cbn [Nat.add].
  assert (Hseq : seq (Z.to_nat a) (Z.to_nat b)
                 = Nat.add (Z.to_nat a) <$> seq 0 (Z.to_nat b))
    by (rewrite fmap_add_seq; f_equal; lia).
  rewrite Hseq. clear Hseq.
  assert (Hgen : forall l : list nat,
            flat_map (fun k => replicate (Z.to_nat es) (wrap64 (ts + Z.of_nat k)))
                     (Nat.add (Z.to_nat a) <$> l)
            = flat_map (fun k => replicate (Z.to_nat es)
                                           (wrap64 (ts + a + Z.of_nat k))) l).
  { induction l as [|x l IH]; [done|]. cbn. rewrite IH. do 2 f_equal.
    f_equal. lia. }
  apply Hgen.
Qed.

Lemma samples_drop ts n p es :
  0 <= ts -> 0 <= p <= n -> ts + n <= 2 ^ 64 -> 0 <= es ->
  drop (Z.to_nat (p * es)) (samples ts n es) = samples (ts + p) (n - p) es.
Proof.
  intros Hts Hp Hfit Hes.
  replace n with (p + (n - p)) at 1 by lia.
  rewrite samples_app by lia.
  rewrite drop_app_length'; [done|]. symmetry. apply samples_length; lia.
Qed.

Lemma store_length {A} (buf : list A) off data :
  length (store buf off data) = length buf.
Proof.
  unfold store. rewrite !length_app, !length_take, length_drop. lia.
Qed.

Lemma store_take {A} (buf : list A) off data :
  (off + length data <= length buf)%nat ->
  take (off + length data) (store buf off data) = take off buf ++ data.
Proof.
  intros Hfit. unfold store.
  rewrite (take_ge data) by lia.
  rewrite app_assoc. rewrite take_app_length'; [done|].
  rewrite length_app, length_take. lia.
Qed.

Lemma fastForward_eq {A} (buff : list A) numWritten elemSize old desired :
  0 <= old -> old <= desired -> desired < 2 ^ 64 ->
  0 <= numWritten < 2 ^ 64 -> 0 <= elemSize ->
  numWritten * elemSize < 2 ^ 64 ->
  let numPop := Z.min (desired - old) numWritten in
  fastForward buff numWritten elemSize old desired
  = (memmove buff 0 (Z.to_nat (numPop * elemSize))
             (Z.to_nat ((numWritten - numPop) * elemSize)),
     numWritten - numPop).
Proof.
  intros Hold Hle Hdes Hnw Hes Hfit numPop.
  assert (Hpop : 0 <= numPop <= numWritten) by (subst numPop; lia).
  unfold fastForward.
  rewrite (wrap64_small (desired - old)) by lia. fold numPop.
  rewrite (wrap64_small (numWritten - numPop)) by lia.
  rewrite (wrap64_small (numPop * elemSize)) by nia.
  now rewrite (wrap64_small ((numWritten - numPop) * elemSize)) by nia.
Qed.

Lemma memmove_take {A} (buff : list A) src n :
  (src + n <= length buff)%nat ->
  take n (memmove buff 0 src n) = drop src (take (src + n) buff).
Proof.
  intros Hfit. rewrite memmove_front by lia.
  assert (Hlen : length (take n (drop src buff)) = n)
    by (rewrite length_take, length_drop; lia).
  rewrite take_app_length' by done.
  now rewrite take_drop_commute.
Qed.

Lemma cnt_insert_eq l i x : (i < length l)%nat -> cnt (<[i:=x]> l) i = x.
Proof. intros H. unfold cnt. now rewrite list_lookup_insert_eq. Qed.

Lemma cnt_insert_ne l i j x : i <> j -> cnt (<[i:=x]> l) j = cnt l j.
Proof. intros H. unfold cnt. now rewrite list_lookup_insert_ne. Qed.

Lemma bufAt_insert_eq l i x : (i < length l)%nat -> bufAt (<[i:=x]> l) i = x.
Proof. intros H. unfold bufAt. now rewrite list_lookup_insert_eq. Qed.

Lemma bufAt_insert_ne l i j x : i <> j -> bufAt (<[i:=x]> l) j = bufAt l j.
Proof. intros H. unfold bufAt. now rewrite list_lookup_insert_ne. Qed.

Lemma fastForward_count {A} (buff : list A) numWritten elemSize old desired :
  0 <= numWritten < 2 ^ 64 ->
  0 <= (fastForward buff numWritten elemSize old desired).2 <= numWritten.
Proof.
  intros Hnw. unfold fastForward. cbn [snd].
  pose proof (wrap64_range (desired - old)).
  rewrite wrap64_small by lia. lia.
Qed.

Lemma fastForwardPrior_S elemSize requestTime ts k buffs numWritten :
  fastForwardPrior elemSize requestTime ts (S k) buffs numWritten
  = let acc := fastForwardPrior elemSize requestTime ts k buffs numWritten in
    let r := fastForward (bufAt acc.1 k) (cnt acc.2 k) elemSize requestTime ts in
    (<[k:=r.1]> acc.1, <[k:=r.2]> acc.2).
Proof.
  unfold fastForwardPrior. rewrite seq_S, foldl_app. cbn [foldl Nat.add].
  now destruct fastForward.
Qed.

Lemma fastForwardPrior_counts elemSize requestTime ts buffs numWritten :
  (forall j, 0 <= cnt numWritten j < 2 ^ 64) ->
  forall k,
    let acc := fastForwardPrior elemSize requestTime ts k buffs numWritten in
    length acc.2 = length numWritten
    /\ length acc.1 = length buffs
    /\ (forall j, (k <= j)%nat -> cnt acc.2 j = cnt numWritten j)
    /\ (forall j, (k <= j)%nat -> bufAt acc.1 j = bufAt buffs j)
    /\ (forall j, 0 <= cnt acc.2 j <= cnt numWritten j).
Proof.
  intros Hrange. induction k as [|k IH]; cbv zeta.
  { cbn. repeat split; try done; apply Hrange. }
  rewrite fastForwardPrior_S. cbv zeta in IH |- *.
  destruct IH as (Hl2 & Hl1 & Hcnt & Hbuf & Hle).
  set (acc := fastForwardPrior elemSize requestTime ts k buffs numWritten)
    in *.
  cbn [fst snd]. rewrite !length_insert.
  split; [done|]. split; [done|]. split; [|split].
  - intros j Hj. rewrite cnt_insert_ne by lia. apply Hcnt. lia.
  - intros j Hj. rewrite bufAt_insert_ne by lia. apply Hbuf. lia.
  - intros j. destruct (decide (k = j)) as [<- | Hne].
    + destruct (decide (k < length acc.2)%nat) as [Hin | Hout].
      * rewrite cnt_insert_eq by done.
        pose proof (fastForward_count (bufAt acc.1 k) (cnt acc.2 k) elemSize
                      requestTime ts) as Hff.
        specialize (Hle k). specialize (Hrange k). lia.
      * rewrite list_insert_ge by lia. apply Hle.
    + rewrite cnt_insert_ne by done. apply Hle.
Qed.

Lemma alignBody_counts es r st :
  0 < rd_status r < 2 ^ 64 ->
  (forall j, 0 <= cnt (al_numWritten st) j < 2 ^ 64) ->
  (al_i st < length (al_numWritten st))%nat ->
  let i := al_i st in
  let N := cnt (al_numWritten st) i in
  match alignBody es r st with
  | Return code _ => code < 0
  | Continue st' =>
      length (al_numWritten st') = length (al_numWritten st)
      /\ (al_i st' <= S i)%nat
      /\ (forall j, (i < j)%nat ->
            cnt (al_numWritten st') j = cnt (al_numWritten st) j)
      /\ (forall j, (j < i)%nat ->
            0 <= cnt (al_numWritten st') j <= cnt (al_numWritten st) j)
      /\ 0 <= cnt (al_numWritten st') i <= wrap64 (N + rd_status r)
      /\ (al_numElems st' = al_numElems st
          \/ al_numElems st' = rd_status r
          \/ al_numElems st' = cnt (al_numWritten st') i)
  end.
Proof.
  intros Hs Hrange Hi i N. unfold alignBody. fold i. fold N.
  destruct (Z.eqb_spec (rd_status r) 0); [lia|].
  destruct (Z.ltb_spec (rd_status r) 0); [lia|].
  rewrite (wrap64_small (rd_status r)) by lia.
  set (N1 := wrap64 (N + rd_status r)).
  pose proof (wrap64_range (N + rd_status r)) as HN1. fold N1 in HN1.
  set (nw1 := <[i:=N1]> (al_numWritten st)).
  assert (Hnw1 : cnt nw1 i = N1) by (apply cnt_insert_eq; done).
  assert (Hl1 : length nw1 = length (al_numWritten st))
    by apply length_insert.
  assert (Hidx : forall (k : nat) (b : bool), (k <= i)%nat ->
            ((if b then S k else k) <= S i)%nat)
    by (intros k []; lia).
  assert (Hhead : forall k, (k <= i)%nat ->
            forall buffs' : list (list Z),
            let st' := forNext (mkAlign k nw1 (rd_status r)
                                        (timestamp (rd_md r)) (rd_md r) buffs') in
            length (al_numWritten st') = length (al_numWritten st)
            /\ (al_i st' <= S i)%nat
            /\ (forall j, (i < j)%nat ->
                  cnt (al_numWritten st') j = cnt (al_numWritten st) j)
            /\ (forall j, (j < i)%nat ->
                  0 <= cnt (al_numWritten st') j <= cnt (al_numWritten st) j)
            /\ 0 <= cnt (al_numWritten st') i <= N1
            /\ (al_numElems st' = al_numElems st
                \/ al_numElems st' = rd_status r
                \/ al_numElems st' = cnt (al_numWritten st') i)).
  { intros k Hk buffs'. cbn. split; [done|]. split; [now apply Hidx|].
    split; [intros j Hj; apply cnt_insert_ne; lia|].
    split; [intros j Hj; unfold nw1; rewrite cnt_insert_ne by lia;
            specialize (Hrange j); lia|].
    split; [lia | tauto]. }
  destruct (al_requestTime st =? 0); [apply Hhead; lia|].
  destruct (wrap64 (al_requestTime st + N) =? timestamp (rd_md r)).
  { cbn. split; [done|]. split; [now apply Hidx|].
    split; [intros j Hj; apply cnt_insert_ne; lia|].
    split; [intros j Hj; unfold nw1; rewrite cnt_insert_ne by lia;
            specialize (Hrange j); lia|].
    split; [lia | tauto]. }
  destruct (timestamp (rd_md r) <? wrap64 (al_requestTime st + N)).
  { destruct (negb (N =? 0)); [reflexivity|].
    destruct (fastForward _ N1 es (timestamp (rd_md r)) (al_requestTime st))
      as [buf' N'] eqn:Hff.
    pose proof (fastForward_count
                  (store (bufAt (al_buffs st) i) (Z.to_nat (wrap64 (es * N)))
                         (samples (timestamp (rd_md r)) (rd_status r) es))
                  N1 es (timestamp (rd_md r)) (al_requestTime st) HN1) as Hc.
    rewrite Hff in Hc. cbn [snd] in Hc.
    cbn. rewrite !length_insert.
    assert (HN' : cnt (<[i:=N']> nw1) i = N')
      by (apply cnt_insert_eq; lia).
    split; [done|]. split; [now apply Hidx|].
    split; [intros j Hj; unfold nw1; rewrite !cnt_insert_ne by lia; done|].
    split; [intros j Hj; unfold nw1; rewrite !cnt_insert_ne by lia;
            specialize (Hrange j); lia|].
    split; [lia|]. rewrite HN'.
    destruct (Nat.eqb i 0 && negb (N' =? 0)); tauto. }
  destruct (wrap64 (al_requestTime st + N) <? timestamp (rd_md r));
    [|apply Hhead; lia].
  set (buffs1 := <[i:=store (bufAt (al_buffs st) i) (Z.to_nat (wrap64 (es * N)))
                      (samples (timestamp (rd_md r)) (rd_status r) es)]>
                   (al_buffs st)).
  destruct (fastForwardPrior es (al_requestTime st) (timestamp (rd_md r)) i
              buffs1 nw1) as [buffs2 nw2] eqn:Hprior.
  assert (Hr1 : forall j, 0 <= cnt nw1 j < 2 ^ 64).
  { intros j. destruct (decide (i = j)) as [<- | Hne];
      [rewrite Hnw1; lia | unfold nw1; rewrite cnt_insert_ne by done; apply Hrange]. }
  pose proof (fastForwardPrior_counts es (al_requestTime st)
                (timestamp (rd_md r)) buffs1 nw1 Hr1 i) as Hp.
  cbv zeta in Hp. rewrite Hprior in Hp. cbn [fst snd] in Hp.
  destruct Hp as (Hl2 & _ & Hsame & _ & Hle).
  destruct (fastForward _ N1 es _ (timestamp (rd_md r))) as [buf' N'] eqn:Hff.
  pose proof (fastForward_count
                (store (bufAt (al_buffs st) i) (Z.to_nat (wrap64 (es * N)))
                       (samples (timestamp (rd_md r)) (rd_status r) es))
                N1 es (wrap64 (timestamp (rd_md r) - N))
                (timestamp (rd_md r)) HN1) as Hc.
  rewrite Hff in Hc. cbn [snd] in Hc.
  cbn. rewrite !length_insert.
  assert (HN' : cnt (<[i:=N']> nw2) i = N')
    by (apply cnt_insert_eq; lia).
  split; [lia|]. split; [destruct (_ =? _); lia|].
  split; [intros j Hj; rewrite cnt_insert_ne by lia; rewrite Hsame by lia;
          unfold nw1; now rewrite cnt_insert_ne by lia|].
  split; [intros j Hj; rewrite cnt_insert_ne by lia;
          specialize (Hle j); unfold nw1 in Hle;
          rewrite cnt_insert_ne in Hle by lia; exact Hle|].
  split; [lia | tauto].
Qed.

Lemma wrap64_neg z : - 2 ^ 64 <= z < 0 -> wrap64 z = z + 2 ^ 64.
Proof.
  intros H. unfold wrap64.
  rewrite <- (Z.mod_add z 1 (2 ^ 64)) by lia.
  apply Z.mod_small. lia.
Qed.

(** A call that asks for a sensible count is one made below the target. *)
Lemma proper_request M0 M N s :
  M0 < 2 ^ 63 -> 0 <= M <= M0 -> 0 <= N <= M0 ->
  0 < s <= wrap64 (M - N) -> wrap64 (M - N) <= M0 ->
  N < M /\ s <= M - N.
Proof.
  intros HM0 HM HN Hs Hreq.
  destruct (Z_lt_le_dec N M) as [Hlt | Hge].
  - rewrite wrap64_small in Hs by lia. lia.
  - exfalso. destruct (Z.eq_dec N M) as [-> | Hne].
    + rewrite Z.sub_diag in Hs. change (wrap64 0) with 0 in Hs. lia.
    + rewrite wrap64_neg in Hreq by lia. lia.
Qed.

Lemma blocked_step n es M0 r st :
  M0 < 2 ^ 63 ->
  blocked n M0 st -> (al_i st < n)%nat ->
  0 < rd_status r
    <= wrap64 (al_numElems st - cnt (al_numWritten st) (al_i st)) ->
  wrap64 (al_numElems st - cnt (al_numWritten st) (al_i st)) <= M0 ->
  match alignBody es r st with
  | Return code _ => code < 0
  | Continue st' => blocked n M0 st'
  end.
Proof.
  intros HM0 (Hlen & Hrange & HM & c & Hc & Hfull) Hi Hs Hreq.
  destruct (proper_request M0 _ _ _ HM0 HM (Hrange (al_i st)) Hs Hreq)
    as [Hlt Hle].
  assert (Hic : (al_i st < c)%nat).
  { destruct (decide (al_i st = c)) as [Heq | ?]; [|lia].
    rewrite Heq in Hlt. lia. }
  assert (Hr : forall j, 0 <= cnt (al_numWritten st) j < 2 ^ 64)
    by (intros j; specialize (Hrange j); lia).
  pose proof (alignBody_counts es r st ltac:(lia) Hr ltac:(lia)) as Hstep.
  cbv zeta in Hstep.
  destruct (alignBody es r st) as [st' | code st']; [|exact Hstep].
  destruct Hstep as (Hlen' & Hi' & Hgt & Hlt' & Hat & HM').
  pose proof (Hrange (al_i st)) as HN.
  rewrite wrap64_small in Hat by lia.
  split; [lia|]. split; [|split].
  - intros j. destruct (lt_eq_lt_dec j (al_i st)) as [[Hj | ->] | Hj].
    + specialize (Hlt' j Hj). specialize (Hrange j). lia.
    + lia.
    + rewrite (Hgt j Hj). apply Hrange.
  - lia.
  - exists c. split; [lia|]. rewrite (Hgt c Hic). lia.
Qed.

Lemma begins_at_0 es buf tick : begins_at es buf tick 0.
Proof. unfold begins_at. now rewrite Z.mul_0_l, take_0. Qed.

Lemma aligned_forNext n es M0 i nw M R md buffs :
  (i < n)%nat -> length nw = n -> length buffs = n ->
  0 < M <= M0 -> 0 < R -> R + M0 < 2 ^ 64 ->
  (forall j, (j < n)%nat -> M0 * es <= Z.of_nat (length (bufAt buffs j))) ->
  (forall j, (i < j)%nat -> cnt nw j = 0) ->
  (forall j, (j < i)%nat -> cnt nw j = M) ->
  0 <= cnt nw i <= M ->
  (forall j, (j <= i)%nat -> begins_at es (bufAt buffs j) R (cnt nw j)) ->
  aligned n es M0 (forNext (mkAlign i nw M R md buffs)).
Proof.
  intros Hi Hlen Hlenb HM HR HR' Hcap Hgt Hlt Hat Hbuf.
  unfold aligned, forNext. cbn.
  destruct (Z.eqb_spec (cnt nw i) M) as [Heq | Hne].
  - split; [done|]. split; [done|]. split; [lia|]. split; [done|].
    split; [right; lia|]. split; [done|].
    split; [intros j Hj; apply Hgt; lia|].
    split.
    { intros j Hj. destruct (decide (j = i)) as [-> | ?]; [done|].
      apply Hlt. lia. }
    split.
    { intros _. rewrite (Hgt (S i)) by lia. split; [lia|]. intros ?. lia. }
    intros j Hj Hjn. destruct (decide (j = S i)) as [-> | ?].
    + rewrite (Hgt (S i)) by lia. apply begins_at_0.
    + apply Hbuf. lia.
  - split; [done|]. split; [done|]. split; [lia|]. split; [done|].
    split; [right; lia|]. split; [done|]. split; [done|]. split; [done|].
    split; [intros _; split; [lia|]; intros ?; lia|].
    intros j Hj _. now apply Hbuf.
Qed.

Lemma aligned_step n es M0 r st :
  0 <= es -> 0 < M0 < 2 ^ 63 -> M0 * es < 2 ^ 64 ->
  aligned n es M0 st -> (al_i st < n)%nat ->
  0 < rd_status r
    <= wrap64 (al_numElems st - cnt (al_numWritten st) (al_i st)) ->
  0 < timestamp (rd_md r) -> timestamp (rd_md r) + M0 < 2 ^ 64 ->
  match alignBody es r st with
  | Return code _ => code < 0
  | Continue st' => aligned n es M0 st' \/ blocked n M0 st'
  end.
Proof.
  intros Hes HM0 Hbytes Hal Hi Hs Hts Hts'.
  destruct Hal as (Hlen & Hlenb & _ & HM & HR & Hcap & Hgt & Hlt & Hat & Hbuf).
  destruct (Hat Hi) as [HN HR0].
  rewrite wrap64_small in Hs by lia.
  unfold alignBody.
  set (i := al_i st) in *. set (nw := al_numWritten st) in *.
  set (M := al_numElems st) in *. set (R := al_requestTime st) in *.
  set (N := cnt nw i) in *. set (s := rd_status r) in *.
  set (ts := timestamp (rd_md r)) in *. set (buffs := al_buffs st) in *.
  destruct (Z.eqb_spec s 0); [lia|]. destruct (Z.ltb_spec s 0); [lia|].
  rewrite (wrap64_small s) by lia.
  rewrite (wrap64_small (N + s)) by lia.
  rewrite (wrap64_small (es * N)) by nia.
  set (buf1 := store (bufAt buffs i) (Z.to_nat (es * N)) (samples ts s es)).
  set (nw1 := <[i:=N + s]> nw). set (buffs1 := <[i:=buf1]> buffs).
  assert (Hcapi : M0 * es <= Z.of_nat (length (bufAt buffs i)))
    by (apply Hcap; lia).
  assert (F0 : take (Z.to_nat (es * N)) (bufAt buffs i) = samples R N es).
  { rewrite Z.mul_comm. apply (Hbuf i); lia. }
  assert (Hsl : length (samples ts s es) = Z.to_nat (s * es))
    by (apply samples_length; lia).
  assert (F1 : take (Z.to_nat ((N + s) * es)) buf1
               = samples R N es ++ samples ts s es).
  { replace (Z.to_nat ((N + s) * es))
      with (Z.to_nat (es * N) + length (samples ts s es))%nat by (rewrite Hsl; nia).
    unfold buf1. rewrite store_take by (rewrite Hsl; nia). now rewrite F0. }
  assert (Hnw1 : cnt nw1 i = N + s) by (apply cnt_insert_eq; lia).
  assert (Hnw1' : forall j, j <> i -> cnt nw1 j = cnt nw j)
    by (intros j Hj; apply cnt_insert_ne; lia).
  assert (Hb1 : bufAt buffs1 i = buf1) by (apply bufAt_insert_eq; lia).
  assert (Hb1' : forall j, j <> i -> bufAt buffs1 j = bufAt buffs j)
    by (intros j Hj; apply bufAt_insert_ne; lia).
  assert (Hl1 : length nw1 = n) by (unfold nw1; now rewrite length_insert).
  assert (Hlb1 : length buffs1 = n)
    by (unfold buffs1; now rewrite length_insert).
  assert (Hcap1 : forall j, (j < n)%nat ->
            M0 * es <= Z.of_nat (length (bufAt buffs1 j))).
  { intros j Hj. destruct (decide (j = i)) as [-> | Hne].
    - rewrite Hb1. unfold buf1. now rewrite store_length.
    - rewrite Hb1' by done. now apply Hcap. }
  (* a fresh head: the segment just read, alone in channel 0 *)
  assert (Hfresh : i = 0%nat -> forall nw' buffs',
            length nw' = n -> length buffs' = n ->
            (forall j, (j < n)%nat ->
               M0 * es <= Z.of_nat (length (bufAt buffs' j))) ->
            cnt nw' 0 = s -> (forall j, (0 < j)%nat -> cnt nw' j = 0) ->
            begins_at es (bufAt buffs' 0) ts s ->
            aligned n es M0
              (forNext (mkAlign 0 nw' s ts (rd_md r) buffs'))).
  { intros Hi0 nw' buffs' Hl' Hlb' Hcap' H0 Hrest Hbeg.
    apply aligned_forNext; [lia | done | done | lia | done | done | done
                           | done | intros j Hj; lia | rewrite H0; lia |].
    intros j Hj. replace j with 0%nat by lia. now rewrite H0. }
  clearbody i nw M R buffs.
  assert (Hrange1 : forall j, 0 <= cnt nw1 j <= M0).
  { intros j. destruct (lt_eq_lt_dec j i) as [[Hj | ->] | Hj].
    - rewrite Hnw1' by lia. rewrite (Hlt j Hj). lia.
    - rewrite Hnw1. lia.
    - rewrite Hnw1' by lia. rewrite (Hgt j Hj). lia. }
  destruct (Z.eqb_spec R 0) as [HR00 | HRne].
  { (* unspecified request time *)
    destruct (HR0 HR00) as [HN0 Hi0]. cbv zeta. left. subst i.
    apply Hfresh; [done | done | done | done | | |].
    - rewrite Hnw1. lia.
    - intros j Hj. rewrite Hnw1' by lia. apply Hgt. lia.
    - unfold begins_at. rewrite Hb1.
      replace (s * es) with ((N + s) * es) by lia.
      now rewrite F1, HN0, samples_nil. }
  destruct HR as [? | [HRpos HRfit]]; [done|].
  rewrite (wrap64_small (R + N)) by lia.
  destruct (Z.eqb_spec (R + N) ts) as [Hcont | Hgap].
  { (* contiguous *)
    left. apply aligned_forNext; [lia | done | done | lia | lia | lia | done
                                 | | | |].
    - intros j Hj. rewrite Hnw1' by lia. now apply Hgt.
    - intros j Hj. rewrite Hnw1' by lia. now apply Hlt.
    - rewrite Hnw1. lia.
    - intros j Hj. destruct (decide (j = i)) as [-> | Hne].
      + unfold begins_at. rewrite Hb1, Hnw1, F1, <- Hcont.
        symmetry. apply samples_app; lia.
      + rewrite Hb1', Hnw1' by done. apply Hbuf; lia. }
  destruct (Z.ltb_spec ts (R + N)) as [Hearly | Hlate].
  { (* the segment starts before the request time *)
    destruct (Z.eqb_spec N 0) as [HN0 | HNne]; cbn [negb]; [|reflexivity].
    rewrite fastForward_eq by nia.
    set (pop := Z.min (R - ts) (N + s)).
    set (N' := N + s - pop).
    set (buf' := memmove buf1 0 (Z.to_nat (pop * es)) (Z.to_nat (N' * es))).
    assert (Hpop : 0 < pop <= s) by (subst pop; lia).
    assert (HN' : 0 <= N' < s) by (subst N'; lia).
    set (M' := if Nat.eqb i 0 && negb (N' =? 0) then N' else M).
    assert (HM' : 0 < M' <= M0 /\ N' <= M'
                  /\ ((0 < i)%nat -> M' = M)).
    { subst M'. destruct (Nat.eqb_spec i 0) as [-> | Hi0]; cbn [andb].
      - destruct (Z.eqb_spec N' 0); cbn [negb]; repeat split; lia.
      - repeat split; lia. }
    destruct HM' as (HM'1 & HM'2 & HM'3).
    left. apply aligned_forNext; [lia | | | lia | lia | lia | | | | |].
    - now rewrite length_insert.
    - now rewrite length_insert.
    - intros j Hj. destruct (decide (j = i)) as [-> | Hne].
      + rewrite bufAt_insert_eq by lia. unfold buf'.
        rewrite memmove_length. rewrite <- Hb1. now apply Hcap1.
      + rewrite bufAt_insert_ne by done. now apply Hcap1.
    - intros j Hj. rewrite cnt_insert_ne, Hnw1' by lia. now apply Hgt.
    - intros j Hj. rewrite cnt_insert_ne, Hnw1' by lia.
      rewrite (Hlt j Hj). symmetry. apply HM'3. lia.
    - rewrite cnt_insert_eq by lia. lia.
    - intros j Hj. destruct (decide (j = i)) as [-> | Hne].
      + rewrite bufAt_insert_eq, cnt_insert_eq by lia.
        unfold begins_at, buf'.
        assert (Hlen1 : Z.of_nat (length buf1) >= M0 * es).
        { unfold buf1. rewrite store_length. lia. }
        assert (Hsum : pop * es + N' * es = (N + s) * es)
          by (subst N'; ring).
        assert (Hbound : (N + s) * es <= M0 * es)
          by (apply Z.mul_le_mono_nonneg_r; lia).
        assert (Hp0 : 0 <= pop * es) by (apply Z.mul_nonneg_nonneg; lia).
        assert (Hn0 : 0 <= N' * es) by (apply Z.mul_nonneg_nonneg; lia).
        rewrite memmove_take by lia.
        replace (Z.to_nat (pop * es) + Z.to_nat (N' * es))%nat
          with (Z.to_nat ((N + s) * es)) by lia.
        rewrite F1, HN0, samples_nil. cbn [app].
        rewrite samples_drop by lia.
        replace (s - pop) with N' by (subst N'; lia).
        destruct (Z.eq_dec N' 0) as [-> | Hnz]; [reflexivity|].
        f_equal. subst pop N'. lia.
      + rewrite bufAt_insert_ne, cnt_insert_ne, Hb1', Hnw1' by done.
        apply Hbuf; lia. }
  destruct (Z.ltb_spec (R + N) ts) as [Hover | ?]; [|lia].
  (* overflow in the middle of a contiguous buffer *)
  rewrite (wrap64_small (ts - N)) by lia.
  destruct (fastForwardPrior es R ts i buffs1 nw1) as [buffs2 nw2] eqn:Hprior.
  assert (Hr1 : forall j, 0 <= cnt nw1 j < 2 ^ 64)
    by (intros j; specialize (Hrange1 j); lia).
  pose proof (fastForwardPrior_counts es R ts buffs1 nw1 Hr1 i) as Hp.
  cbv zeta in Hp. rewrite Hprior in Hp. cbn [fst snd] in Hp.
  destruct Hp as (Hl2 & Hlb2 & Hsame & Hsameb & Hle).
  rewrite fastForward_eq by nia.
  replace (Z.min (ts - (ts - N)) (N + s)) with N by lia.
  replace (N + s - N) with s by lia.
  set (buf' := memmove buf1 0 (Z.to_nat (N * es)) (Z.to_nat (s * es))).
  cbv zeta.
  destruct (Nat.eq_dec i 0%nat) as [Hi0 | Hipos].
  - (* on channel 0: a new head *)
    left. subst i. cbn in Hprior. injection Hprior as <- <-.
    apply Hfresh; [done | | | | | |].
    + now rewrite length_insert.
    + now rewrite length_insert.
    + intros j Hj. destruct (decide (j = 0%nat)) as [-> | Hne].
      * rewrite bufAt_insert_eq by lia. unfold buf'.
        rewrite memmove_length. rewrite <- Hb1. now apply Hcap1.
      * rewrite bufAt_insert_ne by done. now apply Hcap1.
    + apply cnt_insert_eq. lia.
    + intros j Hj. rewrite cnt_insert_ne, Hnw1' by lia. apply Hgt. lia.
    + rewrite bufAt_insert_eq by lia. unfold begins_at, buf'.
      assert (Hlen1 : Z.of_nat (length buf1) >= M0 * es).
      { unfold buf1. rewrite store_length. lia. }
      rewrite memmove_take by nia.
      replace (Z.to_nat (N * es) + Z.to_nat (s * es))%nat
        with (Z.to_nat ((N + s) * es)) by nia.
      rewrite F1. rewrite drop_app_length'; [done|].
      symmetry. apply samples_length; lia.
  - (* on a later channel: that channel now holds the whole target *)
    right. unfold blocked, forNext. cbn. rewrite length_insert.
    split; [lia|]. split; [|split; [lia|]].
    + intros j. destruct (decide (j = i)) as [-> | Hne].
      * rewrite cnt_insert_eq by lia. lia.
      * rewrite cnt_insert_ne by done.
        specialize (Hle j). specialize (Hrange1 j). lia.
    + exists i. rewrite cnt_insert_eq by lia.
      split; [|lia]. destruct (_ =? _); lia.
Qed.

Lemma cnt_replicate n j : cnt (replicate n 0) j = 0.
Proof.
  unfold cnt. destruct (replicate n 0 !! j) as [x|] eqn:Hl; [|done].
  now apply lookup_replicate in Hl as [-> _].
Qed.

Lemma to_int_small z : 0 <= z < 2 ^ 31 -> to_int z = z.
Proof. intros H. unfold to_int. rewrite Z.mod_small; lia. Qed.

Lemma alignLoop_aligned ids es timeoutMs M0 :
  0 <= es -> 0 < M0 < 2 ^ 31 -> M0 * es < 2 ^ 64 ->
  forall script st calls out,
    aligned (length ids) es M0 st \/ blocked (length ids) M0 st ->
    alignLoop ids es timeoutMs script st calls = Some out ->
    (forall more, ao_calls out = calls ++ more ->
                  Forall2 (proper M0) more (take (length more) script)) ->
    0 <= ao_status out ->
    let fin := ao_state out in
    timestamp (al_md fin) = al_requestTime fin
    /\ ao_status out = al_numElems fin
    /\ forall j, (j < length ids)%nat ->
         cnt (al_numWritten fin) j = al_numElems fin
         /\ begins_at es (bufAt (al_buffs fin) j) (al_requestTime fin)
                      (al_numElems fin).
Proof.
  intros Hes HM0 Hbytes.
  induction script as [|r script IH]; intros st calls out Hinv Hloop Hproper Hok;
    cbn [alignLoop] in Hloop;
    destruct (Nat.leb_spec (length ids) (al_i st)) as [Hend | Hi].
  1,3: (* the loop is over *)
    injection Hloop as <-; cbn;
    destruct Hinv as [Hal | (_ & _ & _ & c & Hc & _)]; [|lia];
    destruct Hal as (_ & _ & Hle & HM & _ & _ & _ & Hlt & _ & Hbuf);
    (split; [done|]); (split; [apply to_int_small; lia|]);
    intros j Hj; (split; [apply Hlt; lia|]);
    rewrite <- (Hlt j) by lia; apply Hbuf; lia.
  { discriminate. }
  set (call := mkReadCall (default 0 (ids !! al_i st))
                 (wrap64 (es * cnt (al_numWritten st) (al_i st)))
                 (wrap64 (al_numElems st - cnt (al_numWritten st) (al_i st)))
                 timeoutMs) in Hloop.
  assert (Hcall : proper M0 call r
                  /\ forall st', alignBody es r st = Continue st' ->
                       forall more, ao_calls out = (calls ++ [call]) ++ more ->
                         Forall2 (proper M0) more (take (length more) script)).
  { destruct (alignBody es r st) as [st' | code st'] eqn:Hbody.
    - destruct (alignLoop_calls _ _ _ _ _ _ _ Hloop) as [more Hmore].
      rewrite <- app_assoc in Hmore. specialize (Hproper _ Hmore).
      cbn in Hproper. apply Forall2_cons in Hproper as [Hp Hrest].
      split; [done|]. intros st'' _ more' Hmore'.
      rewrite <- app_assoc in Hmore'. rewrite Hmore in Hmore'.
      apply app_inv_head in Hmore'. now simplify_eq.
    - injection Hloop as <-. specialize (Hproper [call] eq_refl).
      cbn in Hproper. apply Forall2_cons in Hproper as [Hp _].
      split; [done|]. intros ? [=]. }
  destruct Hcall as [(Hs & Hreq & Hts & Hts') Hrest]. cbn in Hs, Hreq.
  assert (Hstep : match alignBody es r st with
                  | Return code _ => code < 0
                  | Continue st' =>
                      aligned (length ids) es M0 st'
                      \/ blocked (length ids) M0 st'
                  end).
  { destruct Hinv as [Hal | Hbl].
    - now apply aligned_step; try lia.
    - pose proof (blocked_step (length ids) es M0 r st ltac:(lia) Hbl Hi Hs Hreq)
        as Hb.
      destruct (alignBody es r st); [now right | done]. }
  destruct (alignBody es r st) as [st' | code st'].
  - apply (IH st' (calls ++ [call]) out Hstep Hloop); [|done].
    intros more Hmore. exact (Hrest st' eq_refl more Hmore).
  - injection Hloop as <-. cbn in Hok. lia.
Qed.

(** X16.  Where the helper keeps its promise: in a successful call whose
    exchanges with the transport are all [proper] (no tick 0, no request
    for zero or for a wrapped count, no answer longer than asked), every
    channel holds exactly the returned count, and every buffer begins at
    the returned metadata timestamp. *)
Theorem readStreamAligned_aligns stream buffs numElems requestTime md timeoutMs
    script out :
  let n := length (ics_streamID stream) in
  let es := ics_elemSize stream in
  0 <= es -> 0 < numElems < 2 ^ 31 -> numElems * es < 2 ^ 64 ->
  requestTime = 0 \/ (0 < requestTime /\ requestTime + numElems < 2 ^ 64) ->
  length buffs = n ->
  (forall j, (j < n)%nat -> numElems * es <= Z.of_nat (length (bufAt buffs j))) ->
  _readStreamAligned stream buffs numElems requestTime md timeoutMs script
  = Some out ->
  Forall2 (proper numElems) (ao_calls out)
          (take (length (ao_calls out)) script) ->
  0 <= ao_status out ->
  let fin := ao_state out in
  timestamp (al_md fin) = al_requestTime fin
  /\ ao_status out = al_numElems fin
  /\ forall j, (j < n)%nat ->
       cnt (al_numWritten fin) j = ao_status out
       /\ begins_at es (bufAt (al_buffs fin) j) (timestamp (al_md fin))
                    (ao_status out).
Proof.
  intros n es Hes HM Hbytes HR Hlen Hcap Hrun Hproper Hok fin.
  unfold _readStreamAligned in Hrun.
  assert (Hinit : aligned n es numElems
                    (mkAlign 0 (replicate n 0) numElems requestTime md buffs)).
  { unfold aligned. cbn.
    split; [apply length_replicate|]. split; [done|]. split; [lia|].
    split; [lia|]. split; [done|]. split; [done|].
    split; [intros; apply cnt_replicate|]. split; [intros; lia|].
    split; [intros _; rewrite cnt_replicate; split; [lia | done]|].
    intros j _ _. rewrite cnt_replicate. apply begins_at_0. }
  destruct (alignLoop_aligned (ics_streamID stream) es timeoutMs numElems
              Hes HM Hbytes script _ [] out (or_introl Hinit) Hrun)
    as (Hts & Hst & Hall); [|done|].
  - intros more Hmore. cbn in Hmore. now subst more.
  - fold fin in Hts, Hst, Hall. split; [done|]. split; [done|].
    intros j Hj. rewrite Hts, Hst. now apply Hall.
Qed.

(** A run of this kind: a gap on channel 0 moves the head from tick 50 to
    tick 60, channel 1 starts two ticks early and is fast-forwarded. *)
Example readStreamAligned_aligns_example :
  exists out,
    _readStreamAligned (demo_stream [11; 12] 0 0 0)
      [demo_buffer 10; demo_buffer 10] 10 50 StreamMetadata_init 100
      [mkReply 4 (demo_md 50); mkReply 6 (demo_md 60);
       mkReply 6 (demo_md 58); mkReply 2 (demo_md 64)]
    = Some out
    /\ ao_status out = 6
    /\ timestamp (al_md (ao_state out)) = 60
    /\ map rc_maxElems (ao_calls out) = [10; 6; 6; 2]
    /\ forall j, (j < 2)%nat ->
         cnt (al_numWritten (ao_state out)) j = 6
         /\ begins_at 2 (bufAt (al_buffs (ao_state out)) j) 60 6.
Proof.
  eexists. split; [vm_compute; reflexivity|].
  split; [reflexivity|]. split; [reflexivity|]. split; [reflexivity|].
  refine (proj2 (proj2 (readStreamAligned_aligns
                         (demo_stream [11; 12] 0 0 0)
                         [demo_buffer 10; demo_buffer 10] 10 50
                         StreamMetadata_init 100
                         [mkReply 4 (demo_md 50); mkReply 6 (demo_md 60);
                          mkReply 6 (demo_md 58); mkReply 2 (demo_md 64)]
                         _ _ _ _ _ _ _ _ _ _))).
  - simpl. lia.
  - lia.
  - simpl. lia.
  - right. lia.
  - reflexivity.
  - intros j Hj. destruct j as [|[|j]]; [simpl; lia | simpl; lia | simpl in Hj; lia].
  - vm_compute. reflexivity.
  - cbn [ao_calls length take].
    repeat (apply Forall2_cons; split); try (apply Forall2_nil; done);
      unfold proper; cbn; lia.
  - simpl. lia.
Defined.

(** C1.  The code at the failing input: a free-running read (request
    time 0) of ten elements over two channels.  Channel 0 delivers ten
    samples taken from tick 0 on, channel 1 ten samples taken from tick 7
    on.  The call succeeds with the count 10 and the metadata timestamp 7;
    channel 1's buffer begins at tick 7, channel 0's at tick 0. *)
Theorem readStreamAligned_heads_differ :
  exists out,
    _readStreamAligned (demo_stream [11; 12] 0 0 0)
      [demo_buffer 10; demo_buffer 10] 10 0 StreamMetadata_init 100
      [mkReply 10 (demo_md 0); mkReply 10 (demo_md 7)]
    = Some out
    /\ ao_status out = 10
    /\ timestamp (al_md (ao_state out)) = 7
    /\ al_numWritten (ao_state out) = [10; 10]
    /\ head (bufAt (al_buffs (ao_state out)) 0) = Some 0
    /\ head (bufAt (al_buffs (ao_state out)) 1) = Some 7.
Proof. eexists. split; [vm_compute; reflexivity|]. repeat split. Qed.

(** The same loss of alignment with a request time and ticks that are
    not 0.  Channel 1 answers late (two samples from tick 105), which
    trims channel 0 to five elements and sets the target to two; the next
    read on channel 0 asks for [2 - 5] elements, is answered across
    another gap (five samples from tick 200) and restarts from channel 0,
    where no channel comes before it: the two samples channel 1 holds from
    tick 105 stay in place, a read that continues from tick 202 completes
    it, and the call succeeds with heads at ticks 200 and 105. *)
Example readStreamAligned_stale_channel :
  exists out,
    _readStreamAligned (demo_stream [11; 12] 0 0 0)
      [demo_buffer 10; demo_buffer 10] 10 100 StreamMetadata_init 100
      [mkReply 10 (demo_md 100); mkReply 2 (demo_md 105);
       mkReply 5 (demo_md 200); mkReply 3 (demo_md 202)]
    = Some out
    /\ ao_status out = 5
    /\ timestamp (al_md (ao_state out)) = 200
    /\ al_numWritten (ao_state out) = [5; 5]
    /\ map rc_maxElems (ao_calls out) = [10; 10; 2 ^ 64 - 3; 3]
    /\ head (bufAt (al_buffs (ao_state out)) 0) = Some 200
    /\ head (bufAt (al_buffs (ao_state out)) 1) = Some 105.
Proof. eexists. split; [vm_compute; reflexivity|]. repeat split. Qed.

(** Channel 1 starting five ticks late, with ticks that are not 0:
    channel 0 drops its first five elements and reads five more, and both
    buffers begin at tick 105.  The loop then turns to channel 1, which is
    full already, and asks it for 0 elements; a transport that answers 0
    to that makes the call return TIMEOUT. *)
Example readStreamAligned_overrun :
  exists out,
    _readStreamAligned (demo_stream [11; 12] 0 0 0)
      [demo_buffer 10; demo_buffer 10] 10 100 StreamMetadata_init 100
      [mkReply 10 (demo_md 100); mkReply 10 (demo_md 105);
       mkReply 5 (demo_md 110); mkReply 0 (demo_md 0)]
    = Some out
    /\ ao_status out = SOAPY_SDR_TIMEOUT
    /\ al_numWritten (ao_state out) = [10; 10]
    /\ map rc_maxElems (ao_calls out) = [10; 10; 5; 0]
    /\ head (bufAt (al_buffs (ao_state out)) 0) = Some 105
    /\ head (bufAt (al_buffs (ao_state out)) 1) = Some 105.
Proof. eexists. split; [vm_compute; reflexivity|]. repeat split. Qed.

(** * Further properties of the streaming path *)

(** ** Stream information and setupStream *)

(** The formats [setupStream] has a link format for are the advertised
    ones. *)
Lemma format_of_advertised fmt direction channel :
  fmt ∈ getStreamFormats direction channel <-> is_Some (format_of fmt).
Proof.
  unfold getStreamFormats, format_of.
  rewrite !elem_of_cons, elem_of_nil.
  destruct (String.eqb_spec fmt SOAPY_SDR_CF32) as [-> | H1]; [split; eauto|].
  destruct (String.eqb_spec fmt SOAPY_SDR_CS16) as [-> | H2]; [split; eauto|].
  destruct (String.eqb_spec fmt SOAPY_SDR_CS12) as [-> | H3]; [split; eauto|].
  split; [tauto|]. intros [? [=]].
Qed.

(** X1.  What the driver advertises agrees with what [setupStream] takes:
    a format is in the list of [getStreamFormats] exactly when
    [setupStream] has a link format for it; the native format of
    [getNativeStreamFormat] is in that list; and every stream argument of
    [getStreamArgsInfo] has as many option names as options, an argument
    with options (linkFormat) having the native format as its default,
    the default among its options, and only advertised formats as
    options. *)
Theorem stream_information_consistent direction channel :
  let formats := getStreamFormats direction channel in
  let native := (getNativeStreamFormat direction channel).1 in
  (forall fmt, fmt ∈ formats <-> is_Some (format_of fmt))
  /\ native ∈ formats
  /\ forall info, info ∈ getStreamArgsInfo direction channel ->
       length (ai_options info) = length (ai_optionNames info)
       /\ (ai_options info <> [] ->
           ai_value info = native
           /\ ai_value info ∈ ai_options info
           /\ forall o, o ∈ ai_options info -> o ∈ formats).
Proof.
  intros formats native. split; [|split].
  - intros fmt. apply format_of_advertised.
  - subst formats native. unfold getStreamFormats, getNativeStreamFormat. cbn.
    rewrite !elem_of_cons. right; right; now left.
  - intros info Hin. unfold getStreamArgsInfo in Hin.
    rewrite !elem_of_cons, elem_of_nil in Hin.
    destruct Hin as [-> | [-> | []]]; cbn; (split; [done|]); [done|].
    intros _. split; [done|]. split; [rewrite elem_of_cons; now left|].
    intros o. subst formats. unfold getStreamFormats.
    rewrite !elem_of_cons, !elem_of_nil. intros [-> | [-> | []]]; tauto.
Qed.

(** X2.  A [setupStream] call with a format that is not advertised, or
    with a buffer length (device or stream argument) or a latency that
    does not parse, throws while the first channel is being configured:
    no [SetupStream] call reaches the transport, whatever the channels,
    and the device, its pending calibrations included, is left as it
    was. *)
Theorem setupStream_throws_before_transport lib dev config0 stream0 direction
    fmt channels args script channel :
  let key := if direction =? SOAPY_SDR_TX
             then "txBufferLength"%string else "rxBufferLength"%string in
  fmt ∉ getStreamFormats direction channel
  \/ (exists v, _deviceArgs dev !! key = Some v /\ stoul lib v = None)
  \/ (exists v, args !! "bufferLength"%string = Some v /\ stoul lib v = None)
  \/ (exists v, args !! "latency"%string = Some v /\ stof lib v = None) ->
  setupStream lib dev config0 stream0 direction fmt channels args script
  = Some (mkSetupResult None [] dev).
Proof.
  intros key Hbad. unfold setupStream.
  set (config := mkConfig _ _ _ _ _). set (stream := mkStream _ _ _ _ _ _ _ _ _).
  assert (Hnone : forall ch, channelConfig lib dev fmt args config ch = None).
  { intros ch. unfold channelConfig. cbn [isTx config]. fold key.
    destruct (format_of fmt) as [f|] eqn:Hf; [|done]. cbn.
    destruct Hbad as [Hfmt | [(v & Hv & Hp) | [(v & Hv & Hp) | (v & Hv & Hp)]]].
    - exfalso. apply Hfmt. apply format_of_advertised. now rewrite Hf.
    - now rewrite Hv, Hp.
    - destruct (_deviceArgs dev !! key) as [dv|];
        [destruct (stoul lib dv); [|done]|]; cbn; now rewrite Hv, Hp.
    - destruct (_deviceArgs dev !! key) as [dv|];
        [destruct (stoul lib dv); [|done]|]; cbn;
        (destruct (args !! "bufferLength"%string) as [bv|];
         [destruct (stoul lib bv); [|done]|]); cbn; now rewrite Hv, Hp. }
  destruct channels as [|ch channels]; cbn [setupChannels]; now rewrite Hnone.
Qed.

Lemma setupStream_throws_before_transport_witness :
  setupStream demo_lib demo_dev demo_config0 demo_stream0 SOAPY_SDR_RX "CU8"
              [0; 1] ∅ [mkSetupReply 0 11 1020; mkSetupReply 0 12 1020]
  = Some (mkSetupResult None [] demo_dev).
Proof.
  apply (setupStream_throws_before_transport demo_lib demo_dev demo_config0
           demo_stream0 SOAPY_SDR_RX "CU8" [0; 1] ∅
           [mkSetupReply 0 11 1020; mkSetupReply 0 12 1020] 0).
  left. unfold getStreamFormats. rewrite !elem_of_cons, elem_of_nil.
  intros [H | [H | [H | []]]]; discriminate H.
Defined.

Lemma channelConfig_parses lib dev fmt args config ch f :
  format_of fmt = Some f -> args_parse lib dev args (isTx config) ->
  exists c, channelConfig lib dev fmt args config ch = Some c
            /\ isTx c = isTx config.
Proof.
  intros Hf (Hdev & Hlen & Hlat). unfold channelConfig. rewrite Hf. cbn.
  destruct (_deviceArgs dev !! _) as [dv|] eqn:Hd.
  - destruct (Hdev dv eq_refl) as [dl ->]. cbn.
    destruct (args !! "bufferLength"%string) as [bv|] eqn:Hb.
    + destruct (Hlen bv eq_refl) as [bl ->]. cbn.
      destruct (args !! "latency"%string) as [lv|] eqn:Hl;
        [destruct (Hlat lv eq_refl) as [l ->]|]; cbn; eauto.
    + cbn. destruct (args !! "latency"%string) as [lv|] eqn:Hl;
        [destruct (Hlat lv eq_refl) as [l ->]|]; cbn; eauto.
  - cbn. destruct (args !! "bufferLength"%string) as [bv|] eqn:Hb.
    + destruct (Hlen bv eq_refl) as [bl ->]. cbn.
      destruct (args !! "latency"%string) as [lv|] eqn:Hl;
        [destruct (Hlat lv eq_refl) as [l ->]|]; cbn; eauto.
    + cbn. destruct (args !! "latency"%string) as [lv|] eqn:Hl;
        [destruct (Hlat lv eq_refl) as [l ->]|]; cbn; eauto.
Qed.

Lemma setupChannels_ok lib dev fmt args f : format_of fmt = Some f ->
  forall channelIDs config stream script configs,
    args_parse lib dev args (isTx config) ->
    (length channelIDs <= length script)%nat ->
    Forall (fun r => su_status r = 0) (take (length channelIDs) script) ->
    exists stream' configs',
      setupChannels lib dev fmt args channelIDs config stream script configs
      = Some (Some stream', configs')
      /\ length configs' = (length configs + length channelIDs)%nat
      /\ ics_direction stream' = ics_direction stream
      /\ ics_elemSize stream' = ics_elemSize stream
      /\ ics_hasCmd stream' = ics_hasCmd stream
      /\ (channelIDs <> [] -> ics_enabled stream' = false).
Proof.
  intros Hf.
  induction channelIDs as [|ch channelIDs IH];
    intros config stream script configs Hparse Hlen Hok; cbn [setupChannels].
  { exists stream, configs. cbn. repeat split; [lia | done]. }
  destruct (channelConfig_parses lib dev fmt args config ch f Hf Hparse)
    as (c & -> & Htx).
  destruct script as [|reply script]; [cbn in Hlen; lia|].
  cbn in Hok. apply Forall_cons in Hok as [Hst Hok]. rewrite Hst. cbn [Z.eqb negb].
  set (stream1 := mkStream _ _ _ _ _ _ _ _ _).
  destruct (IH c stream1 script (configs ++ [c]))
    as (stream' & configs' & Hsetup & Hn & Hdir & Hes & Hcmd & Hen);
    [now rewrite Htx | cbn in Hlen; lia | done|].
  exists stream', configs'. split; [exact Hsetup|].
  split; [rewrite Hn, length_app; cbn; lia|].
  split; [done|]. split; [done|]. split; [done|]. intros _.
  destruct channelIDs as [|ch' channelIDs]; [|now apply Hen].
  cbn in Hsetup. now simplify_eq.
Qed.

(** X3.  With an advertised format, arguments that parse and a transport
    that accepts every channel, [setupStream] returns a stream: one
    [SetupStream] call per channel (channel 0 when none is given), the
    stream ids in the order the transport assigned them, the direction
    asked for, the element size of the format, not enabled and with no
    command pending. *)
Theorem setupStream_succeeds lib dev config0 stream0 direction fmt channels args
    script channel :
  let channelIDs := match channels with [] => [0] | _ => channels end in
  let n := length channelIDs in
  fmt ∈ getStreamFormats direction channel ->
  args_parse lib dev args (direction =? SOAPY_SDR_TX) ->
  (n <= length script)%nat ->
  Forall (fun r => su_status r = 0) (take n script) ->
  exists res stream,
    setupStream lib dev config0 stream0 direction fmt channels args script
    = Some res
    /\ so_stream res = Some stream
    /\ length (so_configs res) = n
    /\ ics_streamID stream = map su_streamID (take n script)
    /\ ics_direction stream = direction
    /\ ics_elemSize stream = formatToSize lib fmt
    /\ ics_enabled stream = false
    /\ ics_hasCmd stream = false.
Proof.
  intros channelIDs n Hfmt Hparse Hlen Hok.
  apply format_of_advertised in Hfmt as [f Hf].
  unfold setupStream. fold channelIDs.
  set (config := mkConfig _ _ _ _ _). set (stream := mkStream _ _ _ _ _ _ _ _ _).
  destruct (setupChannels_ok lib dev fmt args f Hf channelIDs config stream
              script [])
    as (stream' & configs' & Hsetup & Hn & Hdir & Hes & Hcmd & Hen);
    [exact Hparse | exact Hlen | exact Hok|].
  rewrite Hsetup. cbn.
  destruct (setupChannels_spec _ _ _ _ _ _ _ _ _ _ _ Hsetup) as [_ Hspec].
  destruct (Hspec stream' eq_refl) as (_ & Hids & _).
  eexists _, stream'. split; [reflexivity|]. cbn.
  split; [done|]. split; [exact Hn|]. split; [exact Hids|].
  split; [exact Hdir|]. split; [exact Hes|].
  split; [|exact Hcmd]. apply Hen. subst channelIDs. now destruct channels.
Qed.

Lemma setupStream_succeeds_witness :
  exists res stream,
    setupStream demo_lib demo_dev demo_config0 demo_stream0 SOAPY_SDR_RX "CF32"
                [] ∅ [mkSetupReply 0 11 1020]
    = Some res
    /\ so_stream res = Some stream
    /\ length (so_configs res) = length [0]
    /\ ics_streamID stream
       = map su_streamID (take (length [0]) [mkSetupReply 0 11 1020])
    /\ ics_direction stream = SOAPY_SDR_RX
    /\ ics_elemSize stream = formatToSize demo_lib "CF32"
    /\ ics_enabled stream = false
    /\ ics_hasCmd stream = false.
Proof.
  apply (setupStream_succeeds demo_lib demo_dev demo_config0 demo_stream0
           SOAPY_SDR_RX "CF32" [] ∅ [mkSetupReply 0 11 1020] 0).
  - unfold getStreamFormats. rewrite elem_of_cons. now left.
  - repeat split; intros v Hv; vm_compute in Hv; discriminate Hv.
  - simpl. lia.
  - repeat constructor.
Defined.

Lemma setupChannels_fails lib dev fmt args f : format_of fmt = Some f ->
  forall channelIDs config stream script configs k reply,
    args_parse lib dev args (isTx config) ->
    (k < length channelIDs)%nat ->
    Forall (fun r => su_status r = 0) (take k script) ->
    script !! k = Some reply -> su_status reply <> 0 ->
    exists configs',
      setupChannels lib dev fmt args channelIDs config stream script configs
      = Some (None, configs')
      /\ length configs' = (length configs + S k)%nat.
Proof.
  intros Hf.
  induction channelIDs as [|ch channelIDs IH];
    intros config stream script configs k reply Hparse Hk Hok Hreply Hbad;
    [cbn in Hk; lia|].
  cbn [setupChannels].
  destruct (channelConfig_parses lib dev fmt args config ch f Hf Hparse)
    as (c & -> & Htx).
  destruct script as [|r script]; [discriminate|].
  destruct k as [|k].
  - cbn in Hreply. injection Hreply as ->.
    destruct (Z.eqb_spec (su_status reply) 0); [done|]. cbn [negb].
    eexists. split; [reflexivity|]. rewrite length_app. cbn. lia.
  - cbn in Hok, Hreply. apply Forall_cons in Hok as [Hst Hok].
    rewrite Hst. cbn [Z.eqb negb].
    set (stream1 := mkStream _ _ _ _ _ _ _ _ _).
    destruct (IH c stream1 script (configs ++ [c]) k reply)
      as (configs' & -> & Hn);
      [now rewrite Htx | cbn in Hk; lia | exact Hok | exact Hreply | exact Hbad|].
    eexists. split; [reflexivity|]. rewrite Hn, length_app. cbn. lia.
Qed.

(** X4.  When the transport refuses the channel at position [k], after
    accepting the ones before it, [setupStream] throws: it has made
    exactly [k + 1] [SetupStream] calls, none for the channels behind
    the refused one, and it leaves the device as it was, so that none of
    the channels is registered for calibration. *)
Theorem setupStream_transport_failure lib dev config0 stream0 direction fmt
    channels args script channel k reply :
  let channelIDs := match channels with [] => [0] | _ => channels end in
  fmt ∈ getStreamFormats direction channel ->
  args_parse lib dev args (direction =? SOAPY_SDR_TX) ->
  (k < length channelIDs)%nat ->
  Forall (fun r => su_status r = 0) (take k script) ->
  script !! k = Some reply -> su_status reply <> 0 ->
  exists configs,
    setupStream lib dev config0 stream0 direction fmt channels args script
    = Some (mkSetupResult None configs dev)
    /\ length configs = S k.
Proof.
  intros channelIDs Hfmt Hparse Hk Hok Hreply Hbad.
  apply format_of_advertised in Hfmt as [f Hf].
  unfold setupStream. fold channelIDs.
  set (config := mkConfig _ _ _ _ _). set (stream := mkStream _ _ _ _ _ _ _ _ _).
  destruct (setupChannels_fails lib dev fmt args f Hf channelIDs config stream
              script [] k reply) as (configs & -> & Hn); try done.
  cbn. exists configs. split; [done|]. exact Hn.
Qed.

Lemma setupStream_transport_failure_witness :
  exists configs,
    setupStream demo_lib
      (mkDevice ∅ ∅ [(SOAPY_SDR_TX, 4)]) demo_config0 demo_stream0
      SOAPY_SDR_RX "CS16" [0; 1; 2] ∅
      [mkSetupReply 0 11 1020; mkSetupReply (-1) 0 0]
    = Some (mkSetupResult None configs (mkDevice ∅ ∅ [(SOAPY_SDR_TX, 4)]))
    /\ length configs = 2%nat.
Proof.
  apply (setupStream_transport_failure demo_lib
           (mkDevice ∅ ∅ [(SOAPY_SDR_TX, 4)]) demo_config0 demo_stream0
           SOAPY_SDR_RX "CS16" [0; 1; 2] ∅
           [mkSetupReply 0 11 1020; mkSetupReply (-1) 0 0] 0 1%nat
           (mkSetupReply (-1) 0 0)).
  - unfold getStreamFormats. rewrite !elem_of_cons. right; right; now left.
  - repeat split; intros v Hv; vm_compute in Hv; discriminate Hv.
  - simpl. lia.
  - repeat constructor.
  - reflexivity.
  - simpl. lia.
Defined.

Lemma channelConfig_fields lib dev fmt args config ch c :
  channelConfig lib dev fmt args config ch = Some c ->
  channelID c = ch /\ isTx c = isTx config
  /\ format_of fmt = Some (format c)
  /\ chosenBufferLength lib dev args (isTx config) (bufferLength config)
     = Some (bufferLength c)
  /\ chosenBufferLength lib dev args (isTx config) (bufferLength c)
     = Some (bufferLength c).
Proof.
  unfold channelConfig, chosenBufferLength. intros H.
  destruct (format_of fmt) as [f|]; [|discriminate]. cbn in H.
  destruct (_deviceArgs dev !! _) as [dv|].
  - destruct (stoul lib dv) as [dl|]; [|discriminate]. cbn in H.
    destruct (args !! "bufferLength"%string) as [av|].
    + destruct (stoul lib av) as [al|]; [|discriminate]. cbn in H.
      destruct (args !! "latency"%string) as [lv|];
        [destruct (stof lib lv); [|discriminate]|]; cbn in H;
        injection H as <-; cbn; done.
    + cbn in H.
      destruct (args !! "latency"%string) as [lv|];
        [destruct (stof lib lv); [|discriminate]|]; cbn in H;
        injection H as <-; cbn; done.
  - cbn in H.
    destruct (args !! "bufferLength"%string) as [av|].
    + destruct (stoul lib av) as [al|]; [|discriminate]. cbn in H.
      destruct (args !! "latency"%string) as [lv|];
        [destruct (stof lib lv); [|discriminate]|]; cbn in H;
        injection H as <-; cbn; done.
    + cbn in H.
      destruct (args !! "latency"%string) as [lv|];
        [destruct (stof lib lv); [|discriminate]|]; cbn in H;
        injection H as <-; cbn; done.
Qed.

Lemma setupChannels_configs lib dev fmt args : forall channelIDs config stream
    script configs r configs',
  setupChannels lib dev fmt args channelIDs config stream script configs
  = Some (r, configs') ->
  exists more,
    configs' = configs ++ more
    /\ (length more <= length channelIDs)%nat
    /\ Forall2 (fun c ch =>
                  channelID c = ch /\ isTx c = isTx config
                  /\ format_of fmt = Some (format c)
                  /\ chosenBufferLength lib dev args (isTx config)
                                        (bufferLength config)
                     = Some (bufferLength c))
               more (take (length more) channelIDs).
Proof.
  induction channelIDs as [|ch channelIDs IH];
    intros config stream script configs r configs' Hsetup;
    cbn [setupChannels] in Hsetup.
  { injection Hsetup as <- <-. exists []. rewrite app_nil_r.
    split; [done|]. split; [done|]. constructor. }
  destruct (channelConfig lib dev fmt args config ch) as [c|] eqn:Hc.
  2:{ injection Hsetup as <- <-. exists []. rewrite app_nil_r.
      split; [done|]. split; [cbn; lia|]. constructor. }
  apply channelConfig_fields in Hc as (Hid & Htx & Hf & Hlen & Hlen').
  destruct script as [|reply script]; [discriminate|].
  destruct (negb (su_status reply =? 0)).
  { injection Hsetup as <- <-. exists [c]. split; [done|].
    split; [cbn; lia|]. cbn. constructor; [done|constructor]. }
  apply IH in Hsetup as (more & -> & Hle & Hall).
  exists (c :: more). rewrite <- app_assoc. split; [done|].
  split; [cbn; lia|]. cbn. constructor; [done|].
  eapply Forall2_impl; [exact Hall|]. cbn.
  intros c' ch' (H1 & H2 & H3 & H4). rewrite Htx in H2, H4.
  split; [done|]. split; [done|]. split; [done|].
  rewrite <- H4. unfold chosenBufferLength in *.
  destruct (args !! "bufferLength"%string); [done|].
  destruct (_deviceArgs dev !! _); [done|]. congruence.
Qed.

(** X5.  The configurations [setupStream] hands to the transport, whether
    it returns or throws: one per channel, in the order of the channel
    list, each with the channel id, the TX flag of the direction, the
    link format of the stream format, and the buffer length chosen by
    precedence: the stream argument bufferLength, else the device
    argument txBufferLength or rxBufferLength of the direction, else the
    default of the configuration. *)
Theorem setupStream_configs lib dev config0 stream0 direction fmt channels args
    script res :
  setupStream lib dev config0 stream0 direction fmt channels args script
  = Some res ->
  let channelIDs := match channels with [] => [0] | _ => channels end in
  let tx := direction =? SOAPY_SDR_TX in
  (length (so_configs res) <= length channelIDs)%nat
  /\ Forall2 (fun c ch =>
                channelID c = ch /\ isTx c = tx
                /\ format_of fmt = Some (format c)
                /\ chosenBufferLength lib dev args tx (bufferLength config0)
                   = Some (bufferLength c))
             (so_configs res) (take (length (so_configs res)) channelIDs).
Proof.
  intros Hsetup channelIDs tx. unfold setupStream in Hsetup.
  fold channelIDs in Hsetup.
  destruct setupChannels as [[r configs]|] eqn:Hch; [|discriminate].
  apply setupChannels_configs in Hch as (more & Heq & Hle & Hall).
  cbn in Heq, Hall. subst configs.
  assert (Hc : so_configs res = more) by (cbn in Hsetup; destruct r; now simplify_eq).
  rewrite Hc. split; [exact Hle|]. exact Hall.
Qed.

Lemma setupStream_configs_witness :
  exists res,
    setupStream demo_lib demo_dev demo_config0 demo_stream0 SOAPY_SDR_TX "CS12"
                [3; 5] {[ "bufferLength"%string := "4096"%string ]}
                [mkSetupReply 0 11 1020; mkSetupReply 0 12 1360]
    = Some res
    /\ (length (so_configs res) <= length [3; 5])%nat
    /\ Forall2 (fun c ch =>
                  channelID c = ch /\ isTx c = (SOAPY_SDR_TX =? SOAPY_SDR_TX)
                  /\ format_of "CS12" = Some (format c)
                  /\ chosenBufferLength demo_lib demo_dev
                       {[ "bufferLength"%string := "4096"%string ]}
                       (SOAPY_SDR_TX =? SOAPY_SDR_TX) (bufferLength demo_config0)
                     = Some (bufferLength c))
               (so_configs res) (take (length (so_configs res)) [3; 5]).
Proof.
  eexists. split; [vm_compute; reflexivity|].
  apply (setupStream_configs demo_lib demo_dev demo_config0 demo_stream0
           SOAPY_SDR_TX "CS12" [3; 5]
           {[ "bufferLength"%string := "4096"%string ]}
           [mkSetupReply 0 11 1020; mkSetupReply 0 12 1360]).
  vm_compute. reflexivity.
Defined.

Lemma channelConfig_other_arg lib dev fmt args config ch key v :
  key <> "bufferLength"%string -> key <> "latency"%string ->
  channelConfig lib dev fmt (<[key:=v]> args) config ch
  = channelConfig lib dev fmt args config ch.
Proof.
  intros H1 H2. unfold channelConfig.
  now rewrite !lookup_insert_ne by done.
Qed.

Lemma setupChannels_other_arg lib dev fmt args key v :
  key <> "bufferLength"%string -> key <> "latency"%string ->
  forall channelIDs config stream script configs,
    setupChannels lib dev fmt (<[key:=v]> args) channelIDs config stream script
                  configs
    = setupChannels lib dev fmt args channelIDs config stream script configs.
Proof.
  intros H1 H2.
  induction channelIDs as [|ch channelIDs IH];
    intros config stream script configs; cbn [setupChannels]; [done|].
  rewrite channelConfig_other_arg by done.
  destruct (channelConfig lib dev fmt args config ch); [|done].
  destruct script; [done|]. destruct (negb _); [done|]. apply IH.
Qed.

(** X6.  [setupStream] reads two stream arguments, bufferLength and
    latency: setting any other key, the advertised linkFormat included,
    changes nothing of what the call does or returns. *)
Theorem setupStream_ignores_other_args lib dev config0 stream0 direction fmt
    channels args script key v :
  key <> "bufferLength"%string -> key <> "latency"%string ->
  setupStream lib dev config0 stream0 direction fmt channels (<[key:=v]> args)
              script
  = setupStream lib dev config0 stream0 direction fmt channels args script.
Proof.
  intros H1 H2. unfold setupStream.
  now rewrite setupChannels_other_arg.
Qed.

Lemma setupStream_ignores_other_args_witness :
  setupStream demo_lib demo_dev demo_config0 demo_stream0 SOAPY_SDR_RX "CS16"
              [0] (<["linkFormat"%string := "CS12"%string]> ∅)
              [mkSetupReply 0 11 1020]
  = setupStream demo_lib demo_dev demo_config0 demo_stream0 SOAPY_SDR_RX "CS16"
                [0] ∅ [mkSetupReply 0 11 1020].
Proof.
  apply (setupStream_ignores_other_args demo_lib demo_dev demo_config0
           demo_stream0 SOAPY_SDR_RX "CS16" [0] ∅ [mkSetupReply 0 11 1020]
           "linkFormat" "CS12"); discriminate.
Defined.

Lemma setupChannels_idle lib dev fmt args : forall channelIDs config stream
    script configs stream' configs',
  setupChannels lib dev fmt args channelIDs config stream script configs
  = Some (Some stream', configs') ->
  ics_hasCmd stream' = ics_hasCmd stream
  /\ (channelIDs <> [] -> ics_enabled stream' = false /\ ics_streamID stream' <> []).
Proof.
  induction channelIDs as [|ch channelIDs IH];
    intros config stream script configs stream' configs' Hsetup;
    cbn [setupChannels] in Hsetup.
  { now simplify_eq. }
  destruct (channelConfig lib dev fmt args config ch) as [c|]; [|discriminate].
  destruct script as [|reply script]; [discriminate|].
  destruct (negb _); [discriminate|].
  pose proof Hsetup as Hsetup'.
  apply IH in Hsetup as [Hcmd Hen]. cbn in Hcmd. split; [done|]. intros _.
  destruct channelIDs as [|ch' channelIDs]; [|now apply Hen].
  cbn in Hsetup'. simplify_eq. cbn. split; [done|].
  now destruct (ics_streamID stream).
Qed.

(** X7.  A stream fresh from [setupStream] has at least one channel and
    is idle: [closeStream] on it closes every channel and disables none,
    and every [readStream] on it returns TIMEOUT without a call to the
    transport, leaving stream, buffers, flags and time as they were. *)
Theorem setupStream_fresh_stream lib dev config0 stream0 direction fmt channels
    args script res stream :
  setupStream lib dev config0 stream0 direction fmt channels args script
  = Some res ->
  so_stream res = Some stream ->
  ics_streamID stream <> []
  /\ closeStream stream = map CloseStream (ics_streamID stream)
  /\ forall lib' rate buffs numElems flags timeNs timeoutUs rscript,
       readStream lib' rate stream buffs numElems flags timeNs timeoutUs rscript
       = Some (mkReadResult SOAPY_SDR_TIMEOUT stream flags timeNs buffs []
                            rscript None).
Proof.
  unfold setupStream. intros Hsetup Hstream.
  destruct setupChannels as [[[stream'|] configs]|] eqn:Hch; cbn in Hsetup;
    simplify_eq; cbn in Hstream; simplify_eq.
  apply setupChannels_idle in Hch as [Hcmd Hen]. cbn in Hcmd.
  destruct Hen as [Hen Hids]; [now destruct channels|].
  split; [exact Hids|]. split.
  - unfold closeStream. now rewrite Hen.
  - intros. now apply readStream_idle.
Qed.

Lemma setupStream_fresh_stream_witness :
  exists stream,
    ics_streamID stream <> []
    /\ closeStream stream = map CloseStream (ics_streamID stream)
    /\ forall lib' rate buffs numElems flags timeNs timeoutUs rscript,
         readStream lib' rate stream buffs numElems flags timeNs timeoutUs rscript
         = Some (mkReadResult SOAPY_SDR_TIMEOUT stream flags timeNs buffs []
                              rscript None).
Proof.
  eexists.
  apply (setupStream_fresh_stream demo_lib demo_dev demo_config0 demo_stream0
           SOAPY_SDR_RX "CS16" [0; 1] ∅
           [mkSetupReply 0 11 1020; mkSetupReply 0 12 1020]
           (mkSetupResult
              (Some (mkStream [11; 12] SOAPY_SDR_RX 4 1020 false false 0 0 0))
              [mkConfig false 0 0%Q 0 STREAM_12_BIT_IN_16;
               mkConfig false 1 0%Q 0 STREAM_12_BIT_IN_16]
              (mkDevice ∅ (_actualBw demo_dev)
                 [(SOAPY_SDR_RX, 0); (SOAPY_SDR_RX, 1)])));
    [vm_compute; reflexivity | reflexivity].
Defined.

(** ** activateStream and deactivateStream *)

Lemma controlAll_ok enable : forall ids script,
  (length ids <= length script)%nat ->
  Forall (fun st => st = 0) (take (length ids) script) ->
  controlAll enable ids script
  = Some (true, map (fun i => ControlStream i enable) ids).
Proof.
  induction ids as [|i ids IH]; intros script Hlen Hok; [done|].
  destruct script as [|st script]; [cbn in Hlen; lia|].
  cbn in Hok. apply Forall_cons in Hok as [-> Hok].
  cbn [controlAll Z.eqb negb]. rewrite IH; [done | cbn in Hlen; lia | done].
Qed.

Lemma calibrateChannels_finished actualBw : forall toCal remaining cal,
  calibrateChannels actualBw toCal = (remaining, cal, true) -> remaining = [].
Proof.
  induction toCal as [|[d c] toCal IH]; intros remaining cal H;
    cbn [calibrateChannels] in H.
  { now simplify_eq. }
  destruct (if d =? SOAPY_SDR_RX then _ else _); [|simplify_eq].
  destruct (if d =? SOAPY_SDR_TX then _ else _); [|simplify_eq].
  destruct (calibrateChannels actualBw toCal) as [[r e] fin].
  simplify_eq. eauto.
Qed.

(** X8.  [activateStream] on a stream that is not enabled, with a sample
    rate set, calibrations that go through and a transport that accepts
    every [ControlStream]: the call returns 0, the stream is enabled with
    the command (flags, time, count) pending, the set of pending
    calibrations is empty, and the calls made are the calibrations, then
    the write of DC_BYP_RXTSP on chip 0, then one [ControlStream(true)]
    per channel in stream order. *)
Theorem activateStream_enables rate dev s flags timeNs numElems script
    remaining cal :
  ics_enabled s = false -> Qeq_bool rate 0 = false ->
  calibrateChannels (_actualBw dev) (_channelsToCal dev) = (remaining, cal, true) ->
  (length (ics_streamID s) <= length script)%nat ->
  Forall (fun st => st = 0) (take (length (ics_streamID s)) script) ->
  activateStream rate dev s flags timeNs numElems script
  = Some (mkActivateResult (Some 0)
            (mkStream (ics_streamID s) (ics_direction s) (ics_elemSize s)
                      (ics_elemMTU s) true true flags timeNs numElems)
            (set_channelsToCal dev [])
            (cal ++ Modify_SPI_Reg_bits 0 "DC_BYP_RXTSP" 1
                 :: map (fun i => ControlStream i true) (ics_streamID s))).
Proof.
  intros Hen Hrate Hcal Hlen Hok. unfold activateStream.
  rewrite Hrate, Hcal. cbn [negb ics_enabled]. rewrite Hen. cbn [negb].
  rewrite (controlAll_ok true _ _ Hlen Hok). cbn.
  now rewrite (calibrateChannels_finished _ _ _ _ Hcal).
Qed.

Lemma activateStream_enables_witness :
  activateStream 1%Q
    (mkDevice ∅ (_actualBw demo_dev) [(SOAPY_SDR_RX, 0)])
    (mkStream [11; 12] SOAPY_SDR_RX 4 1020 false false 0 0 0)
    SOAPY_SDR_HAS_TIME 900 64 [0; 0]
  = Some (mkActivateResult (Some 0)
            (mkStream [11; 12] SOAPY_SDR_RX 4 1020 true true
                      SOAPY_SDR_HAS_TIME 900 64)
            (set_channelsToCal
               (mkDevice ∅ (_actualBw demo_dev) [(SOAPY_SDR_RX, 0)]) [])
            ([CalibrateRx 0 5%Q]
               ++ Modify_SPI_Reg_bits 0 "DC_BYP_RXTSP" 1
               :: map (fun i => ControlStream i true) [11; 12])).
Proof.
  apply (activateStream_enables 1%Q
           (mkDevice ∅ (_actualBw demo_dev) [(SOAPY_SDR_RX, 0)])
           (mkStream [11; 12] SOAPY_SDR_RX 4 1020 false false 0 0 0)
           SOAPY_SDR_HAS_TIME 900 64 [0; 0] [] [CalibrateRx 0 5%Q]).
  - reflexivity.
  - reflexivity.
  - vm_compute. reflexivity.
  - simpl. lia.
  - repeat constructor.
Defined.

(** X9.  Activating again a stream whose activation returned 0 only
    re-arms it: the new flags, time and count replace the pending
    command, nothing is calibrated, no [ControlStream] call is made (the
    transport is not consulted), and the one call left is the write of
    DC_BYP_RXTSP. *)
Theorem activateStream_again_rearms rate dev s flags timeNs numElems script res
    rate' flags' timeNs' numElems' script' :
  activateStream rate dev s flags timeNs numElems script = Some res ->
  ac_ret res = Some 0 ->
  Qeq_bool rate' 0 = false ->
  activateStream rate' (ac_dev res) (ac_stream res) flags' timeNs' numElems'
                 script'
  = Some (mkActivateResult (Some 0)
            (mkStream (ics_streamID s) (ics_direction s) (ics_elemSize s)
                      (ics_elemMTU s) true true flags' timeNs' numElems')
            (ac_dev res)
            [Modify_SPI_Reg_bits 0 "DC_BYP_RXTSP" 1]).
Proof.
  intros Hact Hret Hrate'. unfold activateStream in Hact.
  destruct (Qeq_bool rate 0); [simplify_eq; discriminate|].
  destruct (calibrateChannels (_actualBw dev) (_channelsToCal dev))
    as [[remaining cal] finished] eqn:Hcal.
  destruct finished; cbn [negb] in Hact; [|simplify_eq; discriminate].
  apply calibrateChannels_finished in Hcal as ->.
  cbn [ics_enabled] in Hact.
  assert (Hres : ac_dev res = set_channelsToCal dev []
                 /\ ac_stream res
                    = mkStream (ics_streamID s) (ics_direction s)
                        (ics_elemSize s) (ics_elemMTU s) true true flags timeNs
                        numElems).
  { destruct (ics_enabled s) eqn:Hen; cbn [negb] in Hact.
    - injection Hact as <-. cbn. done.
    - destruct (controlAll true (ics_streamID s) script) as [[ok ctl]|];
        [|discriminate].
      cbn in Hact. destruct ok; injection Hact as <-; [done|].
      cbn in Hret. discriminate. }
  destruct Hres as [Hdev Hs]. rewrite Hs, Hdev. unfold activateStream.
  rewrite Hrate'. reflexivity.
Qed.

Lemma activateStream_again_rearms_witness :
  exists res,
    activateStream 1%Q
      (mkDevice ∅ (_actualBw demo_dev) [(SOAPY_SDR_RX, 0)])
      (mkStream [11; 12] SOAPY_SDR_RX 4 1020 false false 0 0 0)
      SOAPY_SDR_HAS_TIME 900 64 [0; 0]
    = Some res
    /\ activateStream 1%Q (ac_dev res) (ac_stream res) 0 0 0 []
       = Some (mkActivateResult (Some 0)
                 (mkStream [11; 12] SOAPY_SDR_RX 4 1020 true true 0 0 0)
                 (ac_dev res)
                 [Modify_SPI_Reg_bits 0 "DC_BYP_RXTSP" 1]).
Proof.
  eexists. split; [vm_compute; reflexivity|].
  apply (activateStream_again_rearms 1%Q
           (mkDevice ∅ (_actualBw demo_dev) [(SOAPY_SDR_RX, 0)])
           (mkStream [11; 12] SOAPY_SDR_RX 4 1020 false false 0 0 0)
           SOAPY_SDR_HAS_TIME 900 64 [0; 0] _ 1%Q 0 0 0 []);
    [vm_compute; reflexivity | reflexivity | reflexivity].
Defined.




Lemma calibrateChannels_prefix actualBw : forall toCal remaining cal finished,
  calibrateChannels actualBw toCal = (remaining, cal, finished) ->
  Forall (fun e => is_cal e = true) cal
  /\ exists processed, toCal = processed ++ remaining.
Proof.
  induction toCal as [|[d c] toCal IH]; intros remaining cal finished H;
    cbn [calibrateChannels] in H.
  { simplify_eq. split; [constructor|]. now exists []. }
  destruct (calibrateChannels actualBw toCal) as [[r e] fin].
  destruct (IH r e fin eq_refl) as [He [processed Hp]].
  destruct (d =? SOAPY_SDR_RX), (d =? SOAPY_SDR_TX);
    destruct (actualBw !! d ≫= (.!! c)) as [bw|]; cbn in H;
    injection H as <- <- <-;
    (split;
     [repeat (apply Forall_cons_2; [reflexivity|]);
      first [exact He | apply Forall_nil_2]
     |first [now exists [] | exists ((d, c) :: processed); cbn; now rewrite Hp]]).
Qed.

(** X11.  Whenever [activateStream] throws, the stream is as it was; the
    calls made so far are calibrations only (no register write, no
    [ControlStream]), and the pending set has lost a front part at most.
    With a sample rate of 0 the call throws before anything is done. *)
Theorem activateStream_throw_leaves_stream rate dev s flags timeNs numElems
    script res :
  activateStream rate dev s flags timeNs numElems script = Some res ->
  ac_ret res = None ->
  ac_stream res = s
  /\ Forall (fun e => is_cal e = true) (ac_events res)
  /\ (exists processed,
        _channelsToCal dev = processed ++ _channelsToCal (ac_dev res))
  /\ (Qeq_bool rate 0 = true -> ac_dev res = dev /\ ac_events res = []).
Proof.
  unfold activateStream. intros Hact Hret.
  destruct (Qeq_bool rate 0).
  { injection Hact as <-. cbn. split; [done|]. split; [constructor|].
    split; [now exists []|]. done. }
  destruct (calibrateChannels (_actualBw dev) (_channelsToCal dev))
    as [[remaining cal] finished] eqn:Hcal.
  apply calibrateChannels_prefix in Hcal as [Hcal Hp].
  destruct finished; cbn [negb] in Hact.
  - cbn [ics_enabled] in Hact. destruct (negb (ics_enabled s)).
    + destruct (controlAll true (ics_streamID s) script) as [[[] ctl]|];
        cbn in Hact; simplify_eq; cbn in Hret; discriminate.
    + injection Hact as <-. cbn in Hret. discriminate.
  - injection Hact as <-. cbn. split; [done|]. split; [done|].
    split; [exact Hp | discriminate].
Qed.

Lemma activateStream_throw_leaves_stream_witness :
  exists res,
    activateStream 0%Q demo_dev demo_stream0 4 900 64 [0] = Some res
    /\ ac_stream res = demo_stream0
    /\ Forall (fun e => is_cal e = true) (ac_events res)
    /\ (exists processed,
          _channelsToCal demo_dev = processed ++ _channelsToCal (ac_dev res))
    /\ (Qeq_bool 0 0 = true -> ac_dev res = demo_dev /\ ac_events res = []).
Proof.
  eexists. split; [vm_compute; reflexivity|].
  apply (activateStream_throw_leaves_stream 0%Q demo_dev demo_stream0 4 900 64
           [0]); reflexivity.
Defined.




(** X13.  After [deactivateStream], failed or not: every [readStream]
    returns TIMEOUT without a transport call; [closeStream] closes every
    channel, and disables every channel first exactly when the
    deactivation had failed; and after a deactivation that returned 0 a
    second one returns 0, makes no transport call and changes nothing. *)
Theorem deactivateStream_then_idle s flags timeNs script code s' evs :
  deactivateStream s flags timeNs script = Some (code, s', evs) ->
  (forall lib rate buffs numElems rflags rtimeNs timeoutUs rscript,
     readStream lib rate s' buffs numElems rflags rtimeNs timeoutUs rscript
     = Some (mkReadResult SOAPY_SDR_TIMEOUT s' rflags rtimeNs buffs [] rscript
                          None))
  /\ closeStream s'
     = (if code =? 0 then []
        else map (fun i => ControlStream i false) (ics_streamID s))
       ++ map CloseStream (ics_streamID s)
  /\ (code = 0 ->
      deactivateStream s' flags timeNs [] = Some (0, s', [])).
Proof.
  intros Hd. split; [|split].
  - intros. apply readStream_idle.
    unfold deactivateStream in Hd. cbn [ics_enabled set_hasCmd] in Hd.
    destruct (ics_enabled s).
    + destruct (controlAll false _ script) as [[[] ctl]|]; cbn in Hd;
        simplify_eq; reflexivity.
    + simplify_eq. reflexivity.
  - unfold deactivateStream in Hd. cbn [ics_enabled set_hasCmd] in Hd.
    unfold closeStream.
    destruct (ics_enabled s) eqn:Hen.
    + destruct (controlAll false _ script) as [[[] ctl]|]; cbn in Hd;
        simplify_eq; cbn; [reflexivity|]. now rewrite Hen.
    + simplify_eq. cbn. now rewrite Hen.
  - intros ->. unfold deactivateStream in Hd |- *.
    cbn [ics_enabled set_hasCmd] in Hd |- *.
    destruct (ics_enabled s) eqn:Hen.
    + destruct (controlAll false _ script) as [[[] ctl]|]; cbn in Hd;
        simplify_eq; cbn; reflexivity.
    + simplify_eq. cbn. now rewrite Hen.
Qed.

Lemma deactivateStream_then_idle_witness :
  let s := mkStream [11; 12] SOAPY_SDR_RX 4 1020 true true 0 0 0 in
  exists s',
    (forall lib rate buffs numElems rflags rtimeNs timeoutUs rscript,
       readStream lib rate s' buffs numElems rflags rtimeNs timeoutUs rscript
       = Some (mkReadResult SOAPY_SDR_TIMEOUT s' rflags rtimeNs buffs [] rscript
                            None))
    /\ closeStream s'
       = (if SOAPY_SDR_STREAM_ERROR =? 0 then []
          else map (fun i => ControlStream i false) (ics_streamID s))
         ++ map CloseStream (ics_streamID s)
    /\ (SOAPY_SDR_STREAM_ERROR = 0 ->
        deactivateStream s' 0 0 [] = Some (0, s', [])).
Proof.
  intros s. eexists.
  apply (deactivateStream_then_idle s 0 0 [0; 1] SOAPY_SDR_STREAM_ERROR _
           [ControlStream 11 false; ControlStream 12 false]).
  vm_compute. reflexivity.
Defined.

(** ** The fast-forward primitive: other head times *)

(** X14.  [fastForward] towards a head time earlier than the old one: the
    unsigned difference wraps around, and for every fill count up to
    [2^64] minus the distance the whole content is dropped: the count
    becomes 0 and the buffer is left as it was. *)
Theorem fastForward_earlier_head_empties {A : Type} (buff : list A)
    (numWritten elemSize oldHeadTime desiredHeadTime : Z) :
  0 <= desiredHeadTime -> desiredHeadTime < oldHeadTime ->
  oldHeadTime < 2 ^ 64 ->
  0 <= numWritten <= 2 ^ 64 - (oldHeadTime - desiredHeadTime) ->
  fastForward buff numWritten elemSize oldHeadTime desiredHeadTime = (buff, 0).
Proof.
  intros Hd Hlt Ho Hnw. unfold fastForward.
  rewrite (wrap64_neg (desiredHeadTime - oldHeadTime)) by lia.
  rewrite Z.min_r by lia. rewrite Z.sub_diag. change (wrap64 0) with 0.
  rewrite Z.mul_0_l. reflexivity.
Qed.

Lemma fastForward_earlier_head_empties_witness :
  fastForward [10; 11; 20; 21; 30; 31] 3 2 105 100 = ([10; 11; 20; 21; 30; 31], 0).
Proof.
  apply (fastForward_earlier_head_empties [10; 11; 20; 21; 30; 31] 3 2 105 100);
    simpl; lia.
Defined.

(** X15.  Fast-forwarding in two steps, from [t0] to [t1] and from [t1]
    to [t2], leaves the same fill count and the same elements as one
    step from [t0] to [t2], in a buffer of the same capacity. *)
Theorem fastForward_twice {A : Type} (buff : list A)
    (numWritten elemSize t0 t1 t2 : Z) :
  0 <= t0 -> t0 <= t1 -> t1 <= t2 -> t2 < 2 ^ 64 ->
  0 <= numWritten < 2 ^ 64 -> 0 <= elemSize ->
  numWritten * elemSize <= Z.of_nat (length buff) ->
  Z.of_nat (length buff) < 2 ^ 64 ->
  let once := fastForward buff numWritten elemSize t0 t2 in
  let first := fastForward buff numWritten elemSize t0 t1 in
  let twice := fastForward first.1 first.2 elemSize t1 t2 in
  twice.2 = once.2
  /\ take (Z.to_nat (once.2 * elemSize)) twice.1
     = take (Z.to_nat (once.2 * elemSize)) once.1
  /\ length twice.1 = length once.1.
Proof.
  intros H0 H01 H12 H2 Hnw Hes Hfit Hcap once first twice.
  set (p1 := Z.min (t1 - t0) numWritten).
  set (p := Z.min (t2 - t0) numWritten).
  assert (Hfirst : first = (memmove buff 0 (Z.to_nat (p1 * elemSize))
                              (Z.to_nat ((numWritten - p1) * elemSize)),
                            numWritten - p1)).
  { subst first. apply fastForward_eq; lia. }
  assert (Honce : once = (memmove buff 0 (Z.to_nat (p * elemSize))
                              (Z.to_nat ((numWritten - p) * elemSize)),
                            numWritten - p)).
  { subst once. apply fastForward_eq; lia. }
  set (p2 := Z.min (t2 - t1) (numWritten - p1)).
  assert (Hp : p = p1 + p2) by (subst p p1 p2; lia).
  assert (Hp1 : 0 <= p1 <= numWritten) by (subst p1; lia).
  assert (Hp2 : 0 <= p2 <= numWritten - p1) by (subst p2; lia).
  assert (Htwice : twice = (memmove first.1 0 (Z.to_nat (p2 * elemSize))
                              (Z.to_nat ((numWritten - p1 - p2) * elemSize)),
                            numWritten - p1 - p2)).
  { subst twice. rewrite Hfirst. cbn [fst snd]. apply fastForward_eq; try lia; nia. }
  rewrite Htwice, Honce, Hfirst. cbn [fst snd].
  split; [lia|]. split; [|now rewrite !memmove_length].
  replace (numWritten - p) with (numWritten - p1 - p2) by lia.
  set (k := Z.to_nat ((numWritten - p1 - p2) * elemSize)).
  set (a := Z.to_nat (p1 * elemSize)). set (b := Z.to_nat (p2 * elemSize)).
  assert (Hsum : (a + b + k <= length buff)%nat) by (subst a b k; nia).
  replace (Z.to_nat (p * elemSize)) with (a + b)%nat by (subst a b; nia).
  replace (Z.to_nat ((numWritten - p1) * elemSize)) with (b + k)%nat
    by (subst b k; nia).
  rewrite (memmove_take _ b k) by (rewrite memmove_length; lia).
  rewrite (memmove_take buff (a + b) k) by lia.
  rewrite (memmove_take buff a (b + k)) by lia.
  rewrite drop_drop. now replace (a + (b + k))%nat with (a + b + k)%nat by lia.
Qed.

Lemma fastForward_twice_witness :
  let buff := [10; 11; 20; 21; 30; 31; 40; 41; 0; 0] in
  let once := fastForward buff 4 2 100 103 in
  let first := fastForward buff 4 2 100 101 in
  let twice := fastForward first.1 first.2 2 101 103 in
  twice.2 = once.2
  /\ take (Z.to_nat (once.2 * 2)) twice.1 = take (Z.to_nat (once.2 * 2)) once.1
  /\ length twice.1 = length once.1.
Proof.
  apply (fastForward_twice [10; 11; 20; 21; 30; 31; 40; 41; 0; 0] 4 2 100 101 103);
    simpl; lia.
Defined.

(** ** The alignment helper: failures and single reads *)

(** How one turn of the loop depends on the status of its read. *)
Lemma alignBody_status es r st :
  match alignBody es r st with
  | Continue _ => 0 < rd_status r
  | Return code _ =>
      (rd_status r = 0 -> code = SOAPY_SDR_TIMEOUT)
      /\ (rd_status r < 0 -> code = SOAPY_SDR_STREAM_ERROR)
      /\ (0 < rd_status r -> code = SOAPY_SDR_CORRUPTION)
  end.
Proof.
  unfold alignBody.
  destruct (Z.eqb_spec (rd_status r) 0) as [Hz | Hz].
  { repeat split; [lia | lia]. }
  destruct (Z.ltb_spec (rd_status r) 0) as [Hn | Hn].
  { repeat split; [lia | lia]. }
  assert (0 < rd_status r) by lia.
  repeat (first [ destruct (_ =? _) | destruct (_ <? _) | destruct (negb _)
                | destruct (fastForwardPrior _ _ _ _ _ _)
                | destruct (fastForward _ _ _ _ _) ]; cbn beta iota zeta;
          try done; try (repeat split; lia)).
Qed.

Lemma alignLoop_consumes ids es timeoutMs : forall script st calls out,
  alignLoop ids es timeoutMs script st calls = Some out ->
  exists consumed,
    script = consumed ++ ao_rest out
    /\ length (ao_calls out) = (length calls + length consumed)%nat
    /\ forall k r, consumed !! k = Some r ->
         ((S k < length consumed)%nat -> 0 < rd_status r)
         /\ (rd_status r = 0 -> ao_status out = SOAPY_SDR_TIMEOUT)
         /\ (rd_status r < 0 -> ao_status out = SOAPY_SDR_STREAM_ERROR).
Proof.
  induction script as [|r script IH]; intros st calls out Hout;
    cbn [alignLoop] in Hout; destruct (length ids <=? al_i st)%nat.
  - injection Hout as <-. exists []. cbn. split; [done|]. split; [lia|]. done.
  - discriminate.
  - injection Hout as <-. exists []. cbn. split; [done|]. split; [lia|]. done.
  - pose proof (alignBody_status es r st) as Hb.
    destruct (alignBody es r st) as [st' | code st'].
    + apply IH in Hout as (consumed & Hs & Hlen & Hall).
      exists (r :: consumed). cbn. split; [now rewrite Hs at 1|].
      split; [rewrite Hlen, length_app; cbn; lia|].
      intros [|k] r'; cbn; intros Hk.
      * simplify_eq. split; [done|]. split; lia.
      * destruct (Hall k r' Hk) as (H1 & H2 & H3).
        split; [intros; apply H1; lia|]. done.
    + injection Hout as <-. exists [r]. cbn. split; [done|].
      split; [rewrite length_app; cbn; lia|].
      intros [|k] r'; cbn; intros Hk; [|done]. simplify_eq.
      destruct Hb as (H1 & H2 & H3). split; [lia|]. done.
Qed.

Lemma alignLoop_call_targets ids es timeoutMs : forall script st calls out,
  alignLoop ids es timeoutMs script st calls = Some out ->
  Forall (fun c => rc_id c ∈ ids /\ rc_timeoutMs c = timeoutMs) calls ->
  Forall (fun c => rc_id c ∈ ids /\ rc_timeoutMs c = timeoutMs) (ao_calls out).
Proof.
  induction script as [|r script IH]; intros st calls out Hout Hcalls;
    cbn [alignLoop] in Hout;
    destruct (Nat.leb_spec (length ids) (al_i st)) as [Hend | Hi];
    try (injection Hout as <-; exact Hcalls); try discriminate.
  assert (Hcall : Forall (fun c => rc_id c ∈ ids /\ rc_timeoutMs c = timeoutMs)
                    (calls ++ [mkReadCall (default 0 (ids !! al_i st))
                                 (wrap64 (es * cnt (al_numWritten st) (al_i st)))
                                 (wrap64 (al_numElems st
                                          - cnt (al_numWritten st) (al_i st)))
                                 timeoutMs])).
  { apply Forall_app. split; [exact Hcalls|]. constructor; [|constructor].
    cbn. split; [|done].
    destruct (lookup_lt_is_Some_2 ids (al_i st) Hi) as [id Hid].
    rewrite Hid. cbn. eapply list_elem_of_lookup_2. exact Hid. }
  destruct (alignBody es r st) as [st' | code st'].
  - eapply IH; [exact Hout | exact Hcall].
  - injection Hout as <-. exact Hcall.
Qed.

(** X17.  The exchanges of one aligned read: every [ReadStream] call goes
    to a channel of the stream, with the timeout the helper was given;
    the answers are consumed in order, one per call; every answer but
    the last delivered at least one element; and an answer of 0 ends the
    call with TIMEOUT, a negative one with STREAM_ERROR, no call being
    made after it. *)
Theorem readStreamAligned_stops_at_failure stream buffs numElems requestTime md
    timeoutMs script out :
  _readStreamAligned stream buffs numElems requestTime md timeoutMs script
  = Some out ->
  Forall (fun c => rc_id c ∈ ics_streamID stream /\ rc_timeoutMs c = timeoutMs)
         (ao_calls out)
  /\ exists consumed,
       script = consumed ++ ao_rest out
       /\ length (ao_calls out) = length consumed
       /\ forall k r, consumed !! k = Some r ->
            ((S k < length consumed)%nat -> 0 < rd_status r)
            /\ (rd_status r = 0 -> ao_status out = SOAPY_SDR_TIMEOUT)
            /\ (rd_status r < 0 -> ao_status out = SOAPY_SDR_STREAM_ERROR).
Proof.
  unfold _readStreamAligned. intros Hout. split.
  - eapply alignLoop_call_targets; [exact Hout | constructor].
  - apply alignLoop_consumes in Hout as (consumed & Hs & Hlen & Hall).
    exists consumed. split; [done|]. split; [exact Hlen|]. exact Hall.
Qed.

Lemma readStreamAligned_stops_at_failure_witness :
  exists out,
    _readStreamAligned (demo_stream [11; 12] 0 0 0)
      [demo_buffer 10; demo_buffer 10] 10 50 StreamMetadata_init 100
      [mkReply 4 (demo_md 50); mkReply 0 (demo_md 0); mkReply 6 (demo_md 54)]
    = Some out
    /\ Forall (fun c => rc_id c ∈ ics_streamID (demo_stream [11; 12] 0 0 0)
                        /\ rc_timeoutMs c = 100) (ao_calls out)
    /\ exists consumed,
         [mkReply 4 (demo_md 50); mkReply 0 (demo_md 0); mkReply 6 (demo_md 54)]
         = consumed ++ ao_rest out
         /\ length (ao_calls out) = length consumed
         /\ forall k r, consumed !! k = Some r ->
              ((S k < length consumed)%nat -> 0 < rd_status r)
              /\ (rd_status r = 0 -> ao_status out = SOAPY_SDR_TIMEOUT)
              /\ (rd_status r < 0 -> ao_status out = SOAPY_SDR_STREAM_ERROR).
Proof.
  eexists. split; [vm_compute; reflexivity|].
  apply (readStreamAligned_stops_at_failure (demo_stream [11; 12] 0 0 0)
           [demo_buffer 10; demo_buffer 10] 10 50 StreamMetadata_init 100
           [mkReply 4 (demo_md 50); mkReply 0 (demo_md 0);
            mkReply 6 (demo_md 54)]).
  vm_compute. reflexivity.
Defined.

Lemma alignLoop_done ids es timeoutMs script st calls :
  (length ids <= al_i st)%nat ->
  alignLoop ids es timeoutMs script st calls
  = Some (mkAlignOut (to_int (al_numElems st))
            (mkAlign (al_i st) (al_numWritten st) (al_numElems st)
                     (al_requestTime st)
                     (set_timestamp (al_md st) (al_requestTime st))
                     (al_buffs st))
            calls script).
Proof.
  intros Hle. destruct script; cbn [alignLoop];
    destruct (Nat.leb_spec (length ids) (al_i st)); (lia || reflexivity).
Qed.

(** X18.  On a single channel and without a request time, an aligned read
    is one [ReadStream] call: whatever count the transport delivers
    (below [2^31]) is returned as it is, short reads included, with the
    timestamp of the transport and the samples at the start of the
    buffer. *)
Theorem readStreamAligned_single_untimed stream id buf buffs numElems md
    timeoutMs r rest :
  ics_streamID stream = [id] ->
  0 < rd_status r < 2 ^ 31 ->
  _readStreamAligned stream (buf :: buffs) numElems 0 md timeoutMs (r :: rest)
  = Some (mkAlignOut (rd_status r)
            (mkAlign 1 [rd_status r] (rd_status r) (timestamp (rd_md r))
               (rd_md r)
               (store buf 0 (samples (timestamp (rd_md r)) (rd_status r)
                                     (ics_elemSize stream)) :: buffs))
            [mkReadCall id 0 (wrap64 numElems) timeoutMs] rest).
Proof.
  intros Hids Hk. unfold _readStreamAligned. rewrite Hids.
  cbn [length replicate alignLoop al_i Nat.leb al_numWritten al_numElems].
  unfold alignBody.
  cbn [al_i al_numWritten al_numElems al_requestTime al_buffs al_md cnt bufAt
       lookup list_lookup default].
  destruct (Z.eqb_spec (rd_status r) 0); [lia|].
  destruct (Z.ltb_spec (rd_status r) 0); [lia|].
  cbn [Z.eqb]. rewrite Z.mul_0_r, Z.sub_0_r. change (wrap64 0) with 0.
  rewrite (wrap64_small (rd_status r)) by lia.
  rewrite Z.add_0_l, (wrap64_small (rd_status r)) by lia.
  unfold forNext.
  cbn [al_i al_numWritten al_numElems al_requestTime al_buffs al_md cnt
       insert list_insert lookup list_lookup default].
  rewrite Z.eqb_refl.
  cbn [alignLoop length al_i Nat.leb al_numWritten al_numElems al_requestTime
       al_md al_buffs app].
  rewrite alignLoop_done by (cbn; lia). cbn.
  rewrite to_int_small by lia.
  destruct (rd_md r); reflexivity.
Qed.

Lemma readStreamAligned_single_untimed_witness :
  _readStreamAligned (demo_stream [11] 0 0 0) [demo_buffer 4] 4 0
    StreamMetadata_init 100 [mkReply 3 (demo_md 70)]
  = Some (mkAlignOut 3
            (mkAlign 1 [3] 3 70 (demo_md 70)
               [store (demo_buffer 4) 0 (samples 70 3 2)])
            [mkReadCall 11 0 (wrap64 4) 100] []).
Proof.
  apply (readStreamAligned_single_untimed (demo_stream [11] 0 0 0) 11
           (demo_buffer 4) [] 4 StreamMetadata_init 100
           (mkReply 3 (demo_md 70)) []); [reflexivity | simpl; lia].
Defined.

Lemma alignLoop_step ids es timeoutMs r script st calls :
  (al_i st < length ids)%nat ->
  alignLoop ids es timeoutMs (r :: script) st calls
  = let N := cnt (al_numWritten st) (al_i st) in
    let call := mkReadCall (default 0 (ids !! al_i st)) (wrap64 (es * N))
                           (wrap64 (al_numElems st - N)) timeoutMs in
    match alignBody es r st with
    | Return code st' => Some (mkAlignOut code st' (calls ++ [call]) script)
    | Continue st' => alignLoop ids es timeoutMs script st' (calls ++ [call])
    end.
Proof.
  intros Hi. cbn [alignLoop].
  destruct (Nat.leb_spec (length ids) (al_i st)); [lia | reflexivity].
Qed.

Lemma alignBody_contiguous es r st :
  0 < rd_status r -> al_requestTime st <> 0 ->
  wrap64 (al_requestTime st + cnt (al_numWritten st) (al_i st))
  = timestamp (rd_md r) ->
  let i := al_i st in
  let N := cnt (al_numWritten st) i in
  alignBody es r st
  = Continue (forNext (mkAlign i
       (<[i:=wrap64 (N + wrap64 (rd_status r))]> (al_numWritten st))
       (al_numElems st) (al_requestTime st) (rd_md r)
       (<[i:=store (bufAt (al_buffs st) i) (Z.to_nat (wrap64 (es * N)))
                   (samples (timestamp (rd_md r)) (rd_status r) es)]>
          (al_buffs st)))).
Proof.
  intros Hs HR Hts i N. unfold alignBody. fold i. fold N.
  destruct (Z.eqb_spec (rd_status r) 0); [lia|].
  destruct (Z.ltb_spec (rd_status r) 0); [lia|].
  destruct (Z.eqb_spec (al_requestTime st) 0); [done|].
  fold i N in Hts. rewrite Hts, Z.eqb_refl. reflexivity.
Qed.

Lemma alignBody_corrupt es r st :
  0 < rd_status r -> al_requestTime st <> 0 ->
  cnt (al_numWritten st) (al_i st) <> 0 ->
  timestamp (rd_md r)
  < wrap64 (al_requestTime st + cnt (al_numWritten st) (al_i st)) ->
  exists st', alignBody es r st = Return SOAPY_SDR_CORRUPTION st'.
Proof.
  intros Hs HR HN Hts. unfold alignBody.
  destruct (Z.eqb_spec (rd_status r) 0); [lia|].
  destruct (Z.ltb_spec (rd_status r) 0); [lia|].
  destruct (Z.eqb_spec (al_requestTime st) 0); [done|].
  destruct (Z.eqb_spec
              (wrap64 (al_requestTime st + cnt (al_numWritten st) (al_i st)))
              (timestamp (rd_md r))); [lia|].
  destruct (Z.ltb_spec (timestamp (rd_md r))
              (wrap64 (al_requestTime st + cnt (al_numWritten st) (al_i st))));
    [|lia].
  destruct (Z.eqb_spec (cnt (al_numWritten st) (al_i st)) 0); [done|].
  cbn [negb]. eauto.
Qed.

(** X19.  A timed aligned read whose first answer starts at the request
    time and fills part of the buffer, and whose second answer carries a
    timestamp before the end of the first: the helper asks for the
    remainder behind the first part, and on the answer that steps back
    in time it returns CORRUPTION, with no further call. *)
Theorem readStreamAligned_non_monotonic stream id ids buffs numElems requestTime
    md timeoutMs r1 r2 rest :
  ics_streamID stream = id :: ids ->
  let es := ics_elemSize stream in
  0 <= es -> 0 < requestTime -> requestTime + numElems < 2 ^ 64 ->
  es * numElems < 2 ^ 64 ->
  0 < rd_status r1 < numElems -> timestamp (rd_md r1) = requestTime ->
  0 < rd_status r2 -> timestamp (rd_md r2) < requestTime + rd_status r1 ->
  exists out,
    _readStreamAligned stream buffs numElems requestTime md timeoutMs
      (r1 :: r2 :: rest) = Some out
    /\ ao_status out = SOAPY_SDR_CORRUPTION
    /\ ao_calls out
       = [mkReadCall id 0 numElems timeoutMs;
          mkReadCall id (es * rd_status r1) (numElems - rd_status r1) timeoutMs]
    /\ ao_rest out = rest.
Proof.
  intros Hids es Hes HR HRM Hbytes Hk1 Ht1 Hk2 Ht2. unfold _readStreamAligned.
  rewrite Hids. fold es. cbn [length replicate].
  rewrite alignLoop_step by (cbn; lia).
  cbn [al_i al_numWritten al_numElems cnt lookup list_lookup].
  change (cnt (0 :: replicate (length ids) 0) 0) with 0.
  rewrite alignBody_contiguous; cbn [al_i al_numWritten al_numElems al_requestTime];
    change (cnt (0 :: replicate (length ids) 0) 0) with 0;
    [| lia | lia | rewrite Z.add_0_r, wrap64_small by lia; done].
  cbn zeta. cbn [al_buffs].
  rewrite Z.add_0_l, (wrap64_small (rd_status r1)) by lia.
  rewrite (wrap64_small (rd_status r1)) by lia.
  unfold forNext at 1.
  cbn [al_i al_numWritten al_numElems al_requestTime al_md al_buffs].
  change (cnt (<[0%nat:=rd_status r1]> (0 :: replicate (length ids) 0)) 0)
    with (rd_status r1).
  destruct (Z.eqb_spec (rd_status r1) numElems); [lia|].
  rewrite alignLoop_step by (cbn; lia).
  cbn [al_i al_numWritten al_numElems cnt lookup list_lookup].
  change (cnt (<[0%nat:=rd_status r1]> (0 :: replicate (length ids) 0)) 0)
    with (rd_status r1).
  edestruct (alignBody_corrupt es r2) as [st' ->].
  { exact Hk2. }
  { cbn. lia. }
  { cbn [al_i al_numWritten].
    change (cnt (<[0%nat:=rd_status r1]> (0 :: replicate (length ids) 0)) 0)
      with (rd_status r1). lia. }
  { cbn [al_i al_numWritten al_requestTime].
    change (cnt (<[0%nat:=rd_status r1]> (0 :: replicate (length ids) 0)) 0)
      with (rd_status r1). rewrite wrap64_small by lia. exact Ht2. }
  cbn zeta. eexists. split; [reflexivity|]. cbn [ao_status ao_calls ao_rest].
  split; [done|]. split; [|done].
  rewrite Z.mul_0_r, Z.sub_0_r. change (wrap64 0) with 0.
  rewrite (wrap64_small numElems) by lia.
  rewrite (wrap64_small (es * rd_status r1)) by nia.
  rewrite (wrap64_small (numElems - rd_status r1)) by lia.
  reflexivity.
Qed.

Lemma readStreamAligned_non_monotonic_witness :
  exists out,
    _readStreamAligned (demo_stream [11; 12] 0 0 0)
      [demo_buffer 10; demo_buffer 10] 10 50 StreamMetadata_init 100
      [mkReply 4 (demo_md 50); mkReply 6 (demo_md 52)] = Some out
    /\ ao_status out = SOAPY_SDR_CORRUPTION
    /\ ao_calls out = [mkReadCall 11 0 10 100; mkReadCall 11 (2 * 4) (10 - 4) 100]
    /\ ao_rest out = [].
Proof.
  apply (readStreamAligned_non_monotonic (demo_stream [11; 12] 0 0 0) 11 [12]
           [demo_buffer 10; demo_buffer 10] 10 50 StreamMetadata_init 100
           (mkReply 4 (demo_md 50)) (mkReply 6 (demo_md 52)) []);
    first [reflexivity | simpl; lia].
Defined.

Lemma alignBody_untimed es r st :
  0 < rd_status r -> al_requestTime st = 0 ->
  let i := al_i st in
  let N := cnt (al_numWritten st) i in
  alignBody es r st
  = Continue (forNext (mkAlign i
       (<[i:=wrap64 (N + wrap64 (rd_status r))]> (al_numWritten st))
       (wrap64 (rd_status r)) (timestamp (rd_md r)) (rd_md r)
       (<[i:=store (bufAt (al_buffs st) i) (Z.to_nat (wrap64 (es * N)))
                   (samples (timestamp (rd_md r)) (rd_status r) es)]>
          (al_buffs st)))).
Proof.
  intros Hs HR i N. unfold alignBody. fold i. fold N.
  destruct (Z.eqb_spec (rd_status r) 0); [lia|].
  destruct (Z.ltb_spec (rd_status r) 0); [lia|].
  rewrite HR. reflexivity.
Qed.

Lemma cnt_filled a b M : cnt (replicate a M ++ replicate b 0) a = 0.
Proof.
  unfold cnt. rewrite lookup_app_r by (rewrite length_replicate; lia).
  rewrite length_replicate, Nat.sub_diag.
  destruct b; reflexivity.
Qed.

Lemma insert_filled a b M :
  <[a:=M]> (replicate a M ++ replicate (S b) 0)
  = replicate (S a) M ++ replicate b 0.
Proof.
  rewrite insert_app_r_alt by (rewrite length_replicate; lia).
  rewrite length_replicate, Nat.sub_diag.
  rewrite (replicate_S_end a), <- app_assoc. reflexivity.
Qed.

(** Channels in lock-step: from channel [length finished] on, every
    channel delivers the whole count at the same tick. *)
Lemma alignLoop_lockstep es timeoutMs M tick rmd rest :
  0 < M < 2 ^ 31 -> 0 <= tick < 2 ^ 64 -> timestamp rmd = tick ->
  forall todo finished R md buffs calls,
    R = 0 \/ R = tick ->
    exists out,
      alignLoop (finished ++ todo) es timeoutMs
        (replicate (length todo) (mkReply M rmd) ++ rest)
        (mkAlign (length finished)
           (replicate (length finished) M ++ replicate (length todo) 0)
           M R md buffs)
        calls
      = Some out
      /\ ao_status out = M
      /\ al_md (ao_state out) = (if todo is [] then set_timestamp md R else rmd)
      /\ ao_calls out
         = calls ++ map (fun id => mkReadCall id 0 M timeoutMs) todo
      /\ ao_rest out = rest
      /\ al_numWritten (ao_state out)
         = replicate (length finished + length todo) M.
Proof.
  intros HM Htick Hts.
  induction todo as [|id todo IH]; intros finished R md buffs calls HR.
  { rewrite app_nil_r. cbn [length replicate app map].
    rewrite alignLoop_done by (cbn; lia). eexists. split; [reflexivity|]. cbn.
    rewrite to_int_small by lia. rewrite !app_nil_r, Nat.add_0_r. done. }
  change (length (id :: todo)) with (S (length todo)).
  change (replicate (S (length todo)) (mkReply M rmd) ++ rest)
    with (mkReply M rmd :: (replicate (length todo) (mkReply M rmd) ++ rest)).
  rewrite alignLoop_step by (cbn; rewrite length_app; cbn; lia).
  cbn [al_i al_numWritten al_numElems].
  rewrite (cnt_filled (length finished) (S (length todo)) M).
  rewrite Z.mul_0_r, Z.sub_0_r. change (wrap64 0) with 0.
  rewrite (wrap64_small M) by lia.
  assert (Hid : default 0 ((finished ++ id :: todo) !! length finished) = id).
  { rewrite lookup_app_r by lia. now rewrite Nat.sub_diag. }
  rewrite Hid.
  assert (Hnext : exists R' md' buffs',
            alignBody es (mkReply M rmd)
              (mkAlign (length finished)
                 (replicate (length finished) M
                  ++ replicate (S (length todo)) 0) M R md buffs)
            = Continue (mkAlign (S (length finished))
                 (replicate (S (length finished)) M
                  ++ replicate (length todo) 0) M R' md' buffs')
            /\ R' = tick /\ md' = rmd).
  { destruct (Z.eq_dec R 0) as [-> | Hne].
    - rewrite alignBody_untimed by (cbn; lia).
      cbn [al_i al_numWritten al_numElems al_requestTime al_md al_buffs
           rd_status rd_md].
      rewrite (cnt_filled (length finished) (S (length todo)) M).
      rewrite Z.add_0_l, !(wrap64_small M) by lia.
      rewrite insert_filled. unfold forNext.
      cbn [al_i al_numWritten al_numElems al_requestTime al_md al_buffs].
      assert (Hc : cnt (replicate (S (length finished)) M
                        ++ replicate (length todo) 0) (length finished) = M).
      { unfold cnt. rewrite lookup_app_l by (rewrite length_replicate; lia).
        rewrite lookup_replicate_2 by lia. done. }
      rewrite Hc, Z.eqb_refl. eexists _, _, _. split; [reflexivity|]. done.
    - destruct HR as [HR | HR]; [done|]. subst R.
      rewrite alignBody_contiguous;
        cbn [al_i al_numWritten al_numElems al_requestTime al_md al_buffs
             rd_status rd_md];
        rewrite ?(cnt_filled (length finished) (S (length todo)) M);
        [| lia | done | rewrite Z.add_0_r, wrap64_small by lia; done].
      rewrite Z.add_0_l, !(wrap64_small M) by lia.
      rewrite insert_filled. unfold forNext.
      cbn [al_i al_numWritten al_numElems al_requestTime al_md al_buffs].
      assert (Hc : cnt (replicate (S (length finished)) M
                        ++ replicate (length todo) 0) (length finished) = M).
      { unfold cnt. rewrite lookup_app_l by (rewrite length_replicate; lia).
        rewrite lookup_replicate_2 by lia. done. }
      rewrite Hc, Z.eqb_refl. eexists _, _, _. split; [reflexivity|]. done. }
  destruct Hnext as (R' & md' & buffs' & -> & HR' & ->).
  cbn zeta.
  destruct (IH (finished ++ [id]) R' rmd buffs'
              (calls ++ [mkReadCall id 0 M timeoutMs]))
    as (out & Hout & Hst & Hmd & Hcalls & Hrest & Hnw); [now right|].
  rewrite <- app_assoc in Hout. cbn [app] in Hout.
  rewrite length_app in Hout. cbn [length] in Hout.
  replace (length finished + 1)%nat with (S (length finished)) in Hout by lia.
  exists out. split; [exact Hout|]. split; [exact Hst|].
  split.
  { rewrite Hmd. destruct todo; [|reflexivity].
    rewrite HR', <- Hts. now destruct rmd. }
  split; [rewrite Hcalls, <- app_assoc; reflexivity|].
  split; [exact Hrest|].
  rewrite Hnw, length_app. cbn [length]. f_equal. lia.
Qed.

(** X29.  When every channel delivers the whole count at one tick (the
    request time, or any tick for a read without request time), the
    aligned read returns: it makes exactly one [ReadStream] call per
    channel, in stream order, each for the whole count at offset 0, and
    returns the count with the metadata of the transport, every
    channel holding the count. *)
Theorem readStreamAligned_lockstep stream buffs numElems requestTime md
    timeoutMs tick rmd rest :
  let ids := ics_streamID stream in
  0 < numElems < 2 ^ 31 -> 0 <= tick < 2 ^ 64 -> timestamp rmd = tick ->
  requestTime = 0 \/ requestTime = tick ->
  ids <> [] ->
  exists out,
    _readStreamAligned stream buffs numElems requestTime md timeoutMs
      (replicate (length ids) (mkReply numElems rmd) ++ rest)
    = Some out
    /\ ao_status out = numElems
    /\ al_md (ao_state out) = rmd
    /\ ao_calls out = map (fun id => mkReadCall id 0 numElems timeoutMs) ids
    /\ ao_rest out = rest
    /\ al_numWritten (ao_state out) = replicate (length ids) numElems.
Proof.
  intros ids HM Htick Hts HR Hne. unfold _readStreamAligned. fold ids.
  destruct (alignLoop_lockstep (ics_elemSize stream) timeoutMs numElems tick rmd
              rest HM Htick Hts ids [] requestTime md buffs [] HR)
    as (out & Hout & Hst & Hmd & Hcalls & Hrest & Hnw).
  cbn [app length replicate] in Hout. exists out.
  split; [exact Hout|]. split; [exact Hst|].
  split; [rewrite Hmd; now destruct ids|].
  split; [exact Hcalls|]. split; [exact Hrest|]. exact Hnw.
Qed.

Lemma readStreamAligned_lockstep_witness :
  exists out,
    _readStreamAligned (demo_stream [11; 12; 13] 0 0 0)
      [demo_buffer 8; demo_buffer 8; demo_buffer 8] 8 0 StreamMetadata_init 100
      (replicate (length (ics_streamID (demo_stream [11; 12; 13] 0 0 0)))
                 (mkReply 8 (demo_md 70)) ++ [])
    = Some out
    /\ ao_status out = 8
    /\ al_md (ao_state out) = demo_md 70
    /\ ao_calls out
       = map (fun id => mkReadCall id 0 8 100)
             (ics_streamID (demo_stream [11; 12; 13] 0 0 0))
    /\ ao_rest out = []
    /\ al_numWritten (ao_state out)
       = replicate (length (ics_streamID (demo_stream [11; 12; 13] 0 0 0))) 8.
Proof.
  apply (readStreamAligned_lockstep (demo_stream [11; 12; 13] 0 0 0)
           [demo_buffer 8; demo_buffer 8; demo_buffer 8] 8 0 StreamMetadata_init
           100 70 (demo_md 70) []);
    [lia | lia | reflexivity | now left | discriminate].
Defined.

(** ** readStream: failures, free-running streams, output metadata *)

(** X20.  A [readStream] in which the transport answers a [ReadStream]
    with 0 or with a negative status returns TIMEOUT, or STREAM_ERROR,
    at that answer, and leaves the pending command, the burst count and
    the outputs [flags] and [timeNs] as they were. *)
Theorem readStream_failed_read_keeps_command lib rate s buffs numElems flags
    timeNs timeoutUs script res k r :
  readStream lib rate s buffs numElems flags timeNs timeoutUs script = Some res ->
  (k < length (rr_calls res))%nat -> script !! k = Some r -> rd_status r <= 0 ->
  rr_ret res = (if rd_status r =? 0 then SOAPY_SDR_TIMEOUT
                else SOAPY_SDR_STREAM_ERROR)
  /\ rr_stream res = s
  /\ rr_flags res = flags
  /\ rr_timeNs res = timeNs
  /\ script = take (S k) script ++ rr_rest res.
Proof.
  intros Hrun Hk Hr Hbad. unfold readStream in Hrun.
  destruct (ics_hasCmd s); cbn [negb] in Hrun.
  2:{ injection Hrun as <-. cbn in Hk. lia. }
  destruct (_readStreamAligned s buffs _ _ _ _ script) as [out|] eqn:Hal;
    [|discriminate].
  cbn in Hrun.
  apply alignLoop_consumes in Hal as (consumed & Hs & Hlen & Hall).
  cbn in Hlen.
  assert (Hcalls : rr_calls res = ao_calls out
                   /\ rr_rest res = ao_rest out).
  { destruct (ao_status out <? 0); [injection Hrun as <-; done|].
    destruct readStream_finish as [[[? ?] ?] ?]. injection Hrun as <-. done. }
  destruct Hcalls as [Hc Hrest]. rewrite Hc, Hlen in Hk.
  assert (Hrk : consumed !! k = Some r).
  { rewrite Hs in Hr. now rewrite lookup_app_l in Hr. }
  destruct (Hall k r Hrk) as (Hpos & Hzero & Hneg).
  assert (Hlast : S k = length consumed).
  { destruct (decide (S k < length consumed)%nat) as [Hlt|]; [|lia].
    specialize (Hpos Hlt). lia. }
  assert (Hcode : ao_status out = (if rd_status r =? 0 then SOAPY_SDR_TIMEOUT
                                   else SOAPY_SDR_STREAM_ERROR)).
  { destruct (Z.eqb_spec (rd_status r) 0); [auto | apply Hneg; lia]. }
  assert (Hlt : ao_status out < 0).
  { rewrite Hcode. destruct (rd_status r =? 0); reflexivity. }
  destruct (Z.ltb_spec (ao_status out) 0); [|lia].
  injection Hrun as <-. cbn. split; [done|]. split; [done|]. split; [done|].
  split; [done|]. rewrite Hs at 1 2. rewrite Hlast.
  now rewrite take_app_length.
Qed.

Lemma readStream_failed_read_keeps_command_witness :
  let s := demo_stream [11; 12] 0 0 7 in
  let script := [mkReply 4 (demo_md 50); mkReply 0 (demo_md 0);
                 mkReply 6 (demo_md 54)] in
  SOAPY_SDR_TIMEOUT = (if 0 =? 0 then SOAPY_SDR_TIMEOUT
                       else SOAPY_SDR_STREAM_ERROR)
  /\ s = s /\ 16 = 16 /\ 5 = 5
  /\ script = take 2 script ++ [mkReply 6 (demo_md 54)].
Proof.
  intros s script.
  apply (readStream_failed_read_keeps_command demo_lib 1%Q s
           [demo_buffer 10; demo_buffer 10] 10 16 5 100000 script
           (mkReadResult SOAPY_SDR_TIMEOUT s 16 5
              [store (demo_buffer 10) 0 (samples 50 4 2); demo_buffer 10]
              [mkReadCall 11 0 10 100; mkReadCall 12 0 4 100]
              [mkReply 6 (demo_md 54)]
              (Some (SOAPY_SDR_TIMEOUT, demo_md 0)))
           1%nat (mkReply 0 (demo_md 0)));
    [vm_compute; reflexivity | simpl; lia | reflexivity | simpl; lia].
Defined.

(** A free-running command: no start time, no element count. *)
Lemma readStream_continuous_step lib rate s buffs numElems flags timeNs timeoutUs
    script res :
  ics_numElems s = 0 -> has_flag (ics_flags s) SOAPY_SDR_HAS_TIME = false ->
  readStream lib rate s buffs numElems flags timeNs timeoutUs script = Some res ->
  rr_stream res = s
  /\ forall status md, rr_aligned res = Some (status, md) ->
       rr_ret res = status
       /\ (0 <= status ->
           has_flag (rr_flags res) SOAPY_SDR_END_BURST = endOfBurst md).
Proof.
  intros Hn Hf Hrun. unfold readStream in Hrun.
  destruct (ics_hasCmd s); cbn [negb] in Hrun.
  2:{ injection Hrun as <-. cbn. split; [done|]. intros ? ? [=]. }
  destruct (_readStreamAligned s buffs _ _ _ _ script) as [out|];
    [|discriminate].
  cbn in Hrun.
  destruct (Z.ltb_spec (ao_status out) 0) as [Hneg | Hpos].
  { injection Hrun as <-. cbn. split; [done|]. intros ? ? [= <- <-].
    split; [done|]. lia. }
  unfold readStream_finish in Hrun. cbv zeta in Hrun. rewrite Hf in Hrun.
  cbn [andb] in Hrun. rewrite Hn in Hrun. cbn [andb negb Z.eqb] in Hrun.
  destruct (Z.leb_spec 0 (ao_status out)); [|lia].
  injection Hrun as <-. cbn. split; [done|]. intros ? ? [= <- <-].
  split; [done|]. intros _.
  now rewrite has_flag_out by (now left).
Qed.

(** X21.  A free-running command (no HAS_TIME flag, element count 0)
    stays pending: through any sequence of [readStream] calls the stream
    is unchanged, every call returns what the alignment helper returned,
    unclipped, and end-of-burst is reported exactly when the transport
    reported it. *)
Theorem readStream_continuous_stays_armed lib rate s calls rs :
  ics_numElems s = 0 -> has_flag (ics_flags s) SOAPY_SDR_HAS_TIME = false ->
  readStream_run lib rate s calls = Some rs ->
  Forall (fun r => rr_stream r = s
                   /\ forall status md, rr_aligned r = Some (status, md) ->
                        rr_ret r = status
                        /\ (0 <= status ->
                            has_flag (rr_flags r) SOAPY_SDR_END_BURST
                            = endOfBurst md)) rs.
Proof.
  intros Hn Hf. revert rs.
  induction calls as [|c calls IH]; intros rs Hrun; cbn in Hrun.
  { injection Hrun as <-. constructor. }
  destruct (readStream lib rate s (ra_buffs c) (ra_numElems c) (ra_flags c)
              (ra_timeNs c) (ra_timeoutUs c) (ra_script c)) as [r|] eqn:Hr;
    [|discriminate].
  cbn in Hrun.
  destruct (readStream_continuous_step _ _ _ _ _ _ _ _ _ _ Hn Hf Hr)
    as [Hs Hrest].
  rewrite Hs in Hrun.
  destruct (readStream_run lib rate s calls) as [rs'|]; [|discriminate].
  cbn in Hrun. injection Hrun as <-. constructor; [done|]. now apply IH.
Qed.

Lemma readStream_continuous_stays_armed_witness :
  exists rs,
    readStream_run demo_lib 1%Q (demo_stream [11] 0 0 0)
      [mkReadArgs [demo_buffer 4] 4 0 0 100000 [mkReply 3 (demo_md 70)];
       mkReadArgs [demo_buffer 4] 4 0 0 100000 [mkReply 0 (demo_md 0)];
       mkReadArgs [demo_buffer 4] 4 0 0 100000
                  [mkReply 4 (mkMeta 73 true true false false)]]
    = Some rs
    /\ Forall (fun r => rr_stream r = demo_stream [11] 0 0 0
                        /\ forall status md, rr_aligned r = Some (status, md) ->
                             rr_ret r = status
                             /\ (0 <= status ->
                                 has_flag (rr_flags r) SOAPY_SDR_END_BURST
                                 = endOfBurst md)) rs.
Proof.
  eexists. split; [vm_compute; reflexivity|].
  apply (readStream_continuous_stays_armed demo_lib 1%Q (demo_stream [11] 0 0 0)
           [mkReadArgs [demo_buffer 4] 4 0 0 100000 [mkReply 3 (demo_md 70)];
            mkReadArgs [demo_buffer 4] 4 0 0 100000 [mkReply 0 (demo_md 0)];
            mkReadArgs [demo_buffer 4] 4 0 0 100000
                       [mkReply 4 (mkMeta 73 true true false false)]]);
    [reflexivity | reflexivity | vm_compute; reflexivity].
Defined.

(** X22.  The outputs of a [readStream] that returns a count: [flags]
    holds no bit other than END_BURST and HAS_TIME (the flags passed in,
    ONE_PACKET for one, are not echoed), HAS_TIME as the aligned read set
    it and END_BURST whenever the aligned read set it; [timeNs] is the
    conversion of the aligned timestamp; and the count is never above
    the count of the aligned read. *)
Theorem readStream_output_metadata lib rate s buffs numElems flags timeNs
    timeoutUs script res status md :
  readStream lib rate s buffs numElems flags timeNs timeoutUs script = Some res ->
  rr_aligned res = Some (status, md) -> 0 <= rr_ret res ->
  has_flag (rr_flags res) SOAPY_SDR_HAS_TIME = hasTimestamp md
  /\ (endOfBurst md = true ->
      has_flag (rr_flags res) SOAPY_SDR_END_BURST = true)
  /\ Z.land (rr_flags res)
            (Z.lnot (Z.lor SOAPY_SDR_END_BURST SOAPY_SDR_HAS_TIME)) = 0
  /\ rr_timeNs res = ticksToTimeNs lib (timestamp md) rate
  /\ rr_ret res <= status.
Proof.
  intros Hrun Hal Hret. unfold readStream in Hrun.
  destruct (ics_hasCmd s); cbn [negb] in Hrun.
  2:{ injection Hrun as <-. discriminate. }
  destruct (_readStreamAligned s buffs _ _ _ _ script) as [out|];
    [|discriminate].
  cbn in Hrun.
  destruct (Z.ltb_spec (ao_status out) 0) as [Hneg | Hpos].
  { injection Hrun as <-. cbn in Hret. lia. }
  unfold readStream_finish in Hrun. cbv zeta in Hrun.
  set (timed := has_flag (ics_flags s) SOAPY_SDR_HAS_TIME
                && hasTimestamp (al_md (ao_state out))) in Hrun.
  destruct (timed && (_ <? _)).
  { injection Hrun as <-. cbn in Hret. unfold SOAPY_SDR_TIME_ERROR in Hret. lia. }
  destruct (timed && negb _).
  { injection Hrun as <-. cbn in Hret. unfold SOAPY_SDR_STREAM_ERROR in Hret. lia. }
  set (s1 := if timed then _ else s) in Hrun.
  assert (Hout : forall eob ht,
            let f := 0 in
            let f := if eob : bool then Z.lor f SOAPY_SDR_END_BURST else f in
            let f := if ht : bool then Z.lor f SOAPY_SDR_HAS_TIME else f in
            has_flag f SOAPY_SDR_HAS_TIME = ht
            /\ has_flag f SOAPY_SDR_END_BURST = eob
            /\ Z.land f (Z.lnot (Z.lor SOAPY_SDR_END_BURST SOAPY_SDR_HAS_TIME))
               = 0)
    by (intros [] []; repeat split).
  destruct (negb (ics_numElems s1 =? 0)).
  - destruct (ics_numElems (set_numElems s1 _) =? 0).
    + destruct (Z.leb_spec 0 (Z.min (ao_status out) (ics_numElems s1)));
        injection Hrun as <-; cbn in Hal, Hret |- *;
        injection Hal as <- <-;
        [|unfold SOAPY_SDR_STREAM_ERROR in Hret; lia].
      destruct (Hout true (hasTimestamp (al_md (ao_state out))))
        as (H1 & H2 & H3).
      split; [exact H1|]. split; [intros _; exact H2|].
      split; [exact H3|]. split; [done|]. lia.
    + destruct (Z.leb_spec 0 (Z.min (ao_status out) (ics_numElems s1)));
        injection Hrun as <-; cbn in Hal, Hret |- *;
        injection Hal as <- <-;
        [|unfold SOAPY_SDR_STREAM_ERROR in Hret; lia].
      destruct (Hout (endOfBurst (al_md (ao_state out)))
                     (hasTimestamp (al_md (ao_state out))))
        as (H1 & H2 & H3).
      split; [exact H1|]. split; [intros Heob; rewrite <- Heob; exact H2|].
      split; [exact H3|]. split; [done|]. lia.
  - destruct (Z.leb_spec 0 (ao_status out)); [|lia].
    injection Hrun as <-; cbn in Hal, Hret |- *. injection Hal as <- <-.
    destruct (Hout (endOfBurst (al_md (ao_state out)))
                   (hasTimestamp (al_md (ao_state out))))
      as (H1 & H2 & H3).
    split; [exact H1|]. split; [intros Heob; rewrite <- Heob; exact H2|].
    split; [exact H3|]. split; [done|]. lia.
Qed.

Lemma readStream_output_metadata_witness :
  exists res,
    readStream demo_lib 1%Q (demo_stream [11] 0 0 0) [demo_buffer 4] 4
               SOAPY_SDR_ONE_PACKET 0 100000 [mkReply 3 (demo_md 70)]
    = Some res
    /\ has_flag (rr_flags res) SOAPY_SDR_HAS_TIME = hasTimestamp (demo_md 70)
    /\ (endOfBurst (demo_md 70) = true ->
        has_flag (rr_flags res) SOAPY_SDR_END_BURST = true)
    /\ Z.land (rr_flags res)
              (Z.lnot (Z.lor SOAPY_SDR_END_BURST SOAPY_SDR_HAS_TIME)) = 0
    /\ rr_timeNs res = ticksToTimeNs demo_lib (timestamp (demo_md 70)) 1%Q
    /\ rr_ret res <= 3.
Proof.
  eexists. split; [vm_compute; reflexivity|].
  apply (readStream_output_metadata demo_lib 1%Q (demo_stream [11] 0 0 0)
           [demo_buffer 4] 4 SOAPY_SDR_ONE_PACKET 0 100000
           [mkReply 3 (demo_md 70)] _ 3 (demo_md 70));
    [vm_compute; reflexivity | reflexivity | simpl; lia].
Defined.

(** X23.  With the ONE_PACKET flag, the first [ReadStream] of a
    [readStream] asks channel 0 of the stream for the smaller of the
    element count and the MTU of the stream, at offset 0, with the
    timeout in milliseconds. *)
Theorem readStream_one_packet lib rate s buffs numElems flags timeNs timeoutUs
    script res id ids :
  ics_hasCmd s = true -> ics_streamID s = id :: ids ->
  has_flag flags SOAPY_SDR_ONE_PACKET = true ->
  0 <= numElems < 2 ^ 64 -> 0 <= ics_elemMTU s < 2 ^ 64 ->
  readStream lib rate s buffs numElems flags timeNs timeoutUs script = Some res ->
  exists more,
    rr_calls res
    = mkReadCall id 0 (Z.min numElems (ics_elemMTU s)) (Z.quot timeoutUs 1000)
      :: more.
Proof.
  intros Hcmd Hids Hone Hn Hmtu Hrun. unfold readStream in Hrun.
  rewrite Hcmd in Hrun. cbn [negb] in Hrun.
  unfold readStream_request in Hrun. rewrite Hone in Hrun.
  destruct (_readStreamAligned s buffs _ _ _ _ script) as [out|] eqn:Hal;
    [|discriminate].
  cbn in Hrun.
  destruct (readStreamAligned_first_call _ _ _ _ _ _ _ _ _ _ Hids Hal)
    as [more Hmore].
  rewrite wrap64_small in Hmore by lia.
  exists more.
  destruct (ao_status out <? 0); [injection Hrun as <-; exact Hmore|].
  destruct readStream_finish as [[[? ?] ?] ?]. injection Hrun as <-. exact Hmore.
Qed.

Lemma readStream_one_packet_witness :
  exists res,
    readStream demo_lib 1%Q (demo_stream [11] 0 0 0) [demo_buffer 2000] 2000
               SOAPY_SDR_ONE_PACKET 0 100000 [mkReply 1020 (demo_md 70)]
    = Some res
    /\ exists more,
         rr_calls res
         = mkReadCall 11 0 (Z.min 2000 (ics_elemMTU (demo_stream [11] 0 0 0)))
                      (Z.quot 100000 1000) :: more.
Proof.
  eexists. split; [vm_compute; reflexivity|].
  apply (readStream_one_packet demo_lib 1%Q (demo_stream [11] 0 0 0)
           [demo_buffer 2000] 2000 SOAPY_SDR_ONE_PACKET 0 100000
           [mkReply 1020 (demo_md 70)] _ 11 []);
    [reflexivity | reflexivity | reflexivity | simpl; lia | simpl; lia
    | vm_compute; reflexivity].
Defined.

(** X30.  A [readStream] on a free-running command, without ONE_PACKET,
    when every channel delivers the whole count at one tick: the call
    returns the count after one [ReadStream] per channel, leaves the
    stream as it was, reports HAS_TIME and END_BURST as the transport
    set them, and gives the time of that tick. *)
Theorem readStream_lockstep lib rate s buffs numElems flags timeNs timeoutUs
    tick rmd rest :
  let ids := ics_streamID s in
  ics_hasCmd s = true -> ics_numElems s = 0 ->
  has_flag (ics_flags s) SOAPY_SDR_HAS_TIME = false ->
  has_flag flags SOAPY_SDR_ONE_PACKET = false ->
  0 < numElems < 2 ^ 31 -> 0 <= tick < 2 ^ 64 -> timestamp rmd = tick ->
  ids <> [] ->
  exists res,
    readStream lib rate s buffs numElems flags timeNs timeoutUs
      (replicate (length ids) (mkReply numElems rmd) ++ rest)
    = Some res
    /\ rr_ret res = numElems
    /\ rr_stream res = s
    /\ has_flag (rr_flags res) SOAPY_SDR_HAS_TIME = hasTimestamp rmd
    /\ has_flag (rr_flags res) SOAPY_SDR_END_BURST = endOfBurst rmd
    /\ rr_timeNs res = ticksToTimeNs lib tick rate
    /\ rr_calls res
       = map (fun id => mkReadCall id 0 numElems (Z.quot timeoutUs 1000)) ids
    /\ rr_rest res = rest.
Proof.
  intros ids Hcmd Hn Hf Hone HM Htick Hts Hne.
  destruct (alignLoop_lockstep (ics_elemSize s) (Z.quot timeoutUs 1000) numElems
              tick rmd rest HM Htick Hts ids [] 0 StreamMetadata_init buffs []
              (or_introl eq_refl))
    as (out & Hout & Hst & Hmd & Hcalls & Hrest & _).
  cbn [app length replicate] in Hout, Hcalls.
  assert (Hmd' : al_md (ao_state out) = rmd)
    by (rewrite Hmd; now destruct ids).
  clear Hmd. rename Hmd' into Hmd.
  unfold readStream. rewrite Hcmd. cbn [negb].
  unfold readStream_request, readStream_cmdTicks, _readStreamAligned.
  fold ids. rewrite Hone, Hf, Hout.
  cbn [mbind option_bind].
  destruct (Z.ltb_spec (ao_status out) 0); [lia|].
  unfold readStream_finish. cbv zeta. rewrite Hf. cbn [andb].
  rewrite Hn. cbn [negb Z.eqb].
  destruct (Z.leb_spec 0 (ao_status out)); [|lia].
  eexists. split; [reflexivity|]. cbn. rewrite Hmd, Hts.
  split; [done|]. split; [done|].
  split; [now rewrite has_flag_out by (now right)|].
  split; [now rewrite has_flag_out by (now left)|]. done.
Qed.

Lemma readStream_lockstep_witness :
  exists res,
    readStream demo_lib 1%Q (demo_stream [11; 12] 0 0 0)
      [demo_buffer 8; demo_buffer 8] 8 0 0 250000
      (replicate (length (ics_streamID (demo_stream [11; 12] 0 0 0)))
                 (mkReply 8 (demo_md 70)) ++ [])
    = Some res
    /\ rr_ret res = 8
    /\ rr_stream res = demo_stream [11; 12] 0 0 0
    /\ has_flag (rr_flags res) SOAPY_SDR_HAS_TIME = hasTimestamp (demo_md 70)
    /\ has_flag (rr_flags res) SOAPY_SDR_END_BURST = endOfBurst (demo_md 70)
    /\ rr_timeNs res = ticksToTimeNs demo_lib 70 1%Q
    /\ rr_calls res
       = map (fun id => mkReadCall id 0 8 (Z.quot 250000 1000))
             (ics_streamID (demo_stream [11; 12] 0 0 0))
    /\ rr_rest res = [].
Proof.
  apply (readStream_lockstep demo_lib 1%Q (demo_stream [11; 12] 0 0 0)
           [demo_buffer 8; demo_buffer 8] 8 0 0 250000 70 (demo_md 70) []);
    [reflexivity | reflexivity | reflexivity | reflexivity | lia | lia
    | reflexivity | discriminate].
Defined.

(** ** writeStream and readStreamStatus: calls and codes *)

Lemma writeRest_log md status : forall ids script calls ret calls',
  writeRest ids status md script calls = Some (ret, calls') ->
  exists more,
    calls' = calls ++ more
    /\ Forall (fun c => wc_timeoutMs c = 1000 /\ wc_md c = md) more
    /\ map wc_id more = take (length more) ids
    /\ (ret = SOAPY_SDR_CORRUPTION
        \/ (ret = status /\ length more = length ids)).
Proof.
  induction ids as [|id ids IH]; intros script calls ret calls' Hw;
    cbn [writeRest] in Hw.
  { injection Hw as <- <-. exists []. rewrite app_nil_r.
    split; [done|]. split; [constructor|]. split; [done|]. now right. }
  destruct script as [|st script]; [discriminate|].
  destruct (negb (st =? status)).
  - injection Hw as <- <-. exists [mkWriteCall id (wrap64 status) 1000 md].
    split; [done|]. split; [repeat constructor|]. split; [done|]. now left.
  - apply IH in Hw as (more & -> & Hall & Hids & Hret).
    exists (mkWriteCall id (wrap64 status) 1000 md :: more).
    rewrite <- app_assoc. split; [done|]. split; [constructor; done|].
    split; [cbn; now rewrite Hids|].
    destruct Hret as [-> | [-> Hlen]]; [now left | right].
    split; [done|]. cbn. now rewrite Hlen.
Qed.

(** X24.  The [WriteStream] calls of one [writeStream]: channel 0 first,
    with the caller's count and the timeout in milliseconds; then the
    later channels in stream order, each with a timeout of one second;
    all with the same metadata, built from [timeNs] and from the
    HAS_TIME and END_BURST flags.  An answer of 0 on channel 0 ends the
    call with TIMEOUT and a negative one with STREAM_ERROR, before any
    other channel is written; otherwise the call returns CORRUPTION, or
    the count of channel 0 with every channel written. *)
Theorem writeStream_call_log lib rate s id ids numElems flags timeNs timeoutUs
    status answers ret calls :
  ics_streamID s = id :: ids ->
  writeStream lib rate s numElems flags timeNs timeoutUs (status :: answers)
  = Some (ret, calls) ->
  let md := mkMeta (wrap64 (timeNsToTicks lib timeNs rate))
                   (has_flag flags SOAPY_SDR_HAS_TIME)
                   (has_flag flags SOAPY_SDR_END_BURST) false false in
  exists more,
    calls = mkWriteCall id numElems (Z.quot timeoutUs 1000) md :: more
    /\ Forall (fun c => wc_timeoutMs c = 1000 /\ wc_md c = md) more
    /\ map wc_id more = take (length more) ids
    /\ (status = 0 -> ret = SOAPY_SDR_TIMEOUT /\ more = [])
    /\ (status < 0 -> ret = SOAPY_SDR_STREAM_ERROR /\ more = [])
    /\ (0 < status ->
        ret = SOAPY_SDR_CORRUPTION
        \/ (ret = status /\ length more = length ids)).
Proof.
  intros Hids Hw md. unfold writeStream in Hw. rewrite Hids in Hw.
  cbn [lookup list_lookup default drop] in Hw. fold md in Hw.
  destruct (Z.eqb_spec status 0) as [Hz | Hz].
  { injection Hw as <- <-. exists []. repeat split; try done; lia. }
  destruct (Z.ltb_spec status 0) as [Hn | Hn].
  { injection Hw as <- <-. exists []. repeat split; try done; lia. }
  apply writeRest_log in Hw as (more & -> & Hall & Hmap & Hret).
  exists more. split; [done|]. split; [done|]. split; [done|].
  split; [lia|]. split; [lia|]. intros _. exact Hret.
Qed.

Lemma writeStream_call_log_witness :
  let md := mkMeta (wrap64 (timeNsToTicks demo_lib 500 1%Q))
                   (has_flag SOAPY_SDR_END_BURST SOAPY_SDR_HAS_TIME)
                   (has_flag SOAPY_SDR_END_BURST SOAPY_SDR_END_BURST)
                   false false in
  exists ret calls,
    writeStream demo_lib 1%Q (demo_stream [11; 12; 13] 0 0 0) 8
                SOAPY_SDR_END_BURST 500 250000 [8; 8; 6]
    = Some (ret, calls)
    /\ exists more,
         calls = mkWriteCall 11 8 (Z.quot 250000 1000) md :: more
         /\ Forall (fun c => wc_timeoutMs c = 1000 /\ wc_md c = md) more
         /\ map wc_id more = take (length more) [12; 13]
         /\ (8 = 0 -> ret = SOAPY_SDR_TIMEOUT /\ more = [])
         /\ (8 < 0 -> ret = SOAPY_SDR_STREAM_ERROR /\ more = [])
         /\ (0 < 8 ->
             ret = SOAPY_SDR_CORRUPTION
             \/ (ret = 8 /\ length more = length [12; 13])).
Proof.
  intros md. eexists _, _. split; [vm_compute; reflexivity|].
  apply (writeStream_call_log demo_lib 1%Q (demo_stream [11; 12; 13] 0 0 0)
           11 [12; 13] 8 SOAPY_SDR_END_BURST 500 250000 8 [8; 6]);
    [reflexivity | vm_compute; reflexivity].
Defined.

Lemma pollChannels_result direction : forall ids script md,
  match pollChannels direction ids script md with
  | Found m =>
      hasEvent m = true
      /\ (direction = SOAPY_SDR_TX -> packetDropped m = false)
  | Failed code =>
      code = SOAPY_SDR_NOT_SUPPORTED \/ code = SOAPY_SDR_TIMEOUT
  | _ => True
  end.
Proof.
  induction ids as [|i ids IH]; intros script md; cbn [pollChannels]; [done|].
  destruct script as [|r script]; [done|].
  destruct (negb (sr_ret r =? 0)).
  { destruct (sr_lastError r =? EPERM); [now left | now right]. }
  destruct (hasEvent (maskDropped direction (sr_md r))) eqn:Hev; [|apply IH].
  split; [done|]. intros ->. unfold maskDropped. reflexivity.
Qed.

(** X25.  The codes of [readStreamStatus], over every script and clock: a
    return of 0 always comes with END_BURST in the output flags;
    OVERFLOW is never returned for a TX stream; and a return of TIMEOUT
    or NOT_SUPPORTED leaves the flags at 0 and [timeNs] as it was.  No
    other code than these and TIME_ERROR is returned. *)
Theorem readStreamStatus_codes lib rate s timeNs clock script res :
  readStreamStatus lib rate s timeNs clock script = Some res ->
  (st_ret res = 0 /\ has_flag (st_flags res) SOAPY_SDR_END_BURST = true)
  \/ st_ret res = SOAPY_SDR_TIME_ERROR
  \/ (st_ret res = SOAPY_SDR_OVERFLOW /\ ics_direction s <> SOAPY_SDR_TX)
  \/ ((st_ret res = SOAPY_SDR_TIMEOUT \/ st_ret res = SOAPY_SDR_NOT_SUPPORTED)
      /\ st_flags res = 0 /\ st_timeNs res = timeNs).
Proof.
  unfold readStreamStatus. generalize StreamMetadata_init as md. revert script.
  induction clock as [|expired clock IH]; intros script md Hrun;
    cbn [statusLoop] in Hrun;
    pose proof (pollChannels_result (ics_direction s) (ics_streamID s) script md)
      as Hp;
    destruct (pollChannels (ics_direction s) (ics_streamID s) script md)
      as [m | code | m script' |]; try discriminate.
  1,3: destruct Hp as [Hev Htx]; unfold hasEvent in Hev;
    destruct (lateTimestamp m) eqn:Hlate;
      [injection Hrun as <-; right; now left|];
    destruct (packetDropped m) eqn:Hdrop;
      [injection Hrun as <-; right; right; left; split; [done|];
       intros Htx'; specialize (Htx Htx'); congruence|];
    injection Hrun as <-; left; split; [done|];
    rewrite orb_false_r in Hev; rewrite orb_false_r in Hev; cbn;
    rewrite Hev; now destruct (hasTimestamp m).
  1,2: injection Hrun as <-; right; right; right; cbn;
    destruct Hp as [-> | ->]; repeat split; auto.
  destruct expired; [|now apply IH in Hrun].
  injection Hrun as <-. right; right; right. cbn. repeat split. now left.
Qed.

Lemma readStreamStatus_codes_witness :
  exists res,
    readStreamStatus demo_lib 1%Q (demo_stream [11; 12] 0 0 0) 5 [false; true]
      [mkStatusReply 0 0 (demo_md 10); mkStatusReply 0 0 (demo_md 11);
       mkStatusReply 0 0 (demo_md 12);
       mkStatusReply 0 0 (mkMeta 40 true true false false)]
    = Some res
    /\ ((st_ret res = 0 /\ has_flag (st_flags res) SOAPY_SDR_END_BURST = true)
        \/ st_ret res = SOAPY_SDR_TIME_ERROR
        \/ (st_ret res = SOAPY_SDR_OVERFLOW
            /\ ics_direction (demo_stream [11; 12] 0 0 0) <> SOAPY_SDR_TX)
        \/ ((st_ret res = SOAPY_SDR_TIMEOUT
             \/ st_ret res = SOAPY_SDR_NOT_SUPPORTED)
            /\ st_flags res = 0 /\ st_timeNs res = 5)).
Proof.
  eexists. split; [vm_compute; reflexivity|].
  apply (readStreamStatus_codes demo_lib 1%Q (demo_stream [11; 12] 0 0 0) 5
           [false; true]
           [mkStatusReply 0 0 (demo_md 10); mkStatusReply 0 0 (demo_md 11);
            mkStatusReply 0 0 (demo_md 12);
            mkStatusReply 0 0 (mkMeta 40 true true false false)]).
  vm_compute. reflexivity.
Defined.

(** * Properties of the board controls panel *)

Lemma to_char_period char_signed z k :
  to_char char_signed (z + 256 * k) = to_char char_signed z.
Proof.
  unfold to_char. change (2 ^ 8) with 256.
  destruct char_signed.
  - replace (z + 256 * k + 2 ^ 7) with (z + 2 ^ 7 + k * 256) by lia.
    now rewrite Z_mod_plus_full.
  - replace (z + 256 * k) with (z + k * 256) by lia.
    now rewrite Z_mod_plus_full.
Qed.

Lemma power_cases x :
  -8 <= x <= 7 ->
  x = -8 \/ x = -7 \/ x = -6 \/ x = -5 \/ x = -4 \/ x = -3 \/ x = -2
  \/ x = -1 \/ x = 0 \/ x = 1 \/ x = 2 \/ x = 3 \/ x = 4 \/ x = 5
  \/ x = 6 \/ x = 7.
Proof. lia. Qed.

(** X26.  The labels of the powers -8 .. 7 that fill the choice box.
    Where plain [char] is signed, [power2unitsString] gives sixteen
    different labels, the empty one for the power 0 only.  Where it is
    unsigned, a negative power is narrowed to a value above 247 and gets
    the empty label, as the power 0 does, and the powers 1 .. 7 keep
    their different labels.  On either build the label of the power [p]
    stands at position [p + 8] of the box, and the narrowing makes the
    function periodic in its [int] argument, with period 256. *)
Theorem power2unitsString_distinct char_signed p q :
  -8 <= p <= 7 -> -8 <= q <= 7 ->
  (char_signed = true ->
   (power2unitsString char_signed p = power2unitsString char_signed q -> p = q)
   /\ (power2unitsString char_signed p = ""%string <-> p = 0))
  /\ (char_signed = false ->
      (0 < p -> 0 < q ->
       power2unitsString char_signed p = power2unitsString char_signed q ->
       p = q)
      /\ (power2unitsString char_signed p = ""%string <-> p <= 0))
  /\ powerChoices char_signed !! Z.to_nat (p + 8)
     = Some (power2unitsString char_signed p)
  /\ forall k, power2unitsString char_signed (p + 256 * k)
               = power2unitsString char_signed p.
Proof.
  intros Hp Hq.
  split; [|split; [|split]].
  - intros ->.
    destruct (power_cases p Hp) as [-> | [-> | [-> | [-> | [-> | [-> | [-> | [->
      | [-> | [-> | [-> | [-> | [-> | [-> | [-> | ->]]]]]]]]]]]]]]];
      (split; [|split; [try discriminate; done | try done; lia]]);
      destruct (power_cases q Hq) as [-> | [-> | [-> | [-> | [-> | [-> | [->
        | [-> | [-> | [-> | [-> | [-> | [-> | [-> | [-> | ->]]]]]]]]]]]]]]];
      (reflexivity || discriminate).
  - intros ->.
    destruct (power_cases p Hp) as [-> | [-> | [-> | [-> | [-> | [-> | [-> | [->
      | [-> | [-> | [-> | [-> | [-> | [-> | [-> | ->]]]]]]]]]]]]]]];
      (split; [|split; [try discriminate; intros; lia | try done; lia]]);
      intros Hp0 Hq0; try lia;
      destruct (power_cases q Hq) as [-> | [-> | [-> | [-> | [-> | [-> | [->
        | [-> | [-> | [-> | [-> | [-> | [-> | [-> | [-> | ->]]]]]]]]]]]]]]];
      try lia; (reflexivity || discriminate).
  - destruct char_signed;
    destruct (power_cases p Hp) as [-> | [-> | [-> | [-> | [-> | [-> | [-> | [->
      | [-> | [-> | [-> | [-> | [-> | [-> | [-> | ->]]]]]]]]]]]]]]];
      reflexivity.
  - intros k. unfold power2unitsString. now rewrite to_char_period.
Qed.

Lemma power2unitsString_distinct_witness :
  (true = true ->
   (power2unitsString true (-2) = power2unitsString true 2 -> -2 = 2)
   /\ (power2unitsString true (-2) = ""%string <-> -2 = 0))
  /\ (true = false ->
      (0 < -2 -> 0 < 2 ->
       power2unitsString true (-2) = power2unitsString true 2 -> -2 = 2)
      /\ (power2unitsString true (-2) = ""%string <-> -2 <= 0))
  /\ powerChoices true !! Z.to_nat (-2 + 8) = Some (power2unitsString true (-2))
  /\ forall k, power2unitsString true (-2 + 256 * k)
               = power2unitsString true (-2).
Proof. apply (power2unitsString_distinct true (-2) 2); lia. Defined.

Lemma writeAll_prefix : forall params script calls ok,
  writeAll params script = Some (calls, ok) ->
  let writes := map (fun q => WriteParam (adc_channel q) (adc_value q))
                    (filter (fun q => adc_writable q = true) params) in
  exists k,
    calls = take k writes /\ (k <= length writes)%nat
    /\ (ok = true -> k = length writes
                     /\ Forall (fun st => st = 0) (take k script))
    /\ (ok = false -> (0 < k)%nat
                      /\ exists st, script !! (k - 1)%nat = Some st /\ st <> 0).
Proof.
  induction params as [|q params IH]; intros script calls ok Hw;
    cbn [writeAll] in Hw.
  { injection Hw as <- <-. exists 0%nat. cbn.
    split; [done|]. split; [done|]. split; [split; [done | constructor]|done]. }
  destruct (adc_writable q) eqn:Hq; cbn [negb] in Hw.
  2:{ rewrite filter_cons_False by (rewrite Hq; done). now apply IH. }
  rewrite filter_cons_True by done. cbn [map].
  destruct script as [|st script]; [discriminate|].
  destruct (Z.eqb_spec st 0) as [-> | Hne]; cbn [negb] in Hw.
  - destruct (writeAll params script) as [[calls' ok']|] eqn:Hrec;
      [|discriminate].
    cbn in Hw. injection Hw as <- <-.
    destruct (IH _ _ _ Hrec) as (k & -> & Hk & Htrue & Hfalse).
    exists (S k). cbn. split; [done|]. split; [lia|]. split.
    + intros Hok. destruct (Htrue Hok) as [Hk' Hall]. split; [lia|].
      constructor; [reflexivity | exact Hall].
    + intros Hok. destruct (Hfalse Hok) as (Hpos & st & Hst & Hne).
      split; [lia|]. rewrite Nat.sub_0_r.
      destruct k as [|k]; [lia|]. cbn in Hst. rewrite Nat.sub_0_r in Hst.
      exists st. now cbn.
  - injection Hw as <- <-. exists 1%nat. cbn. split; [done|]. split; [lia|].
    split; [done|]. intros _. split; [lia|]. eauto.
Qed.

(** X27.  [OnWriteAll] writes nothing and warns when the device is not
    open.  On an open device it writes the writable parameters only, in
    order, each with its channel and value: all of them when every write
    succeeds, the event WRITE_ALL_VALUES then being posted when there
    are additional controls; or up to the first write that fails, with a
    warning and nothing posted. *)
Theorem OnWriteAll_writes_writable p script calls ui :
  OnWriteAll p script = Some (calls, ui) ->
  let writes := map (fun q => WriteParam (adc_channel q) (adc_value q))
                    (filter (fun q => adc_writable q = true) (mParameters p)) in
  (isOpen p = false ->
   calls = [] /\ ui = [MessageBox "Device not connected" "Warning"])
  /\ (isOpen p = true ->
      exists k,
        calls = take k writes
        /\ ((k = length writes
             /\ Forall (fun st => st = 0) (take k script)
             /\ ui = if additionalControls p
                     then [PostEvent WRITE_ALL_VALUES] else [])
            \/ ((0 < k <= length writes)%nat
                /\ (exists st, script !! (k - 1)%nat = Some st /\ st <> 0)
                /\ ui = [MessageBox "Failes to write values" "Warning"]))).
Proof.
  intros Hw writes. unfold OnWriteAll in Hw.
  destruct (isOpen p); cbn [negb] in Hw.
  2:{ injection Hw as <- <-. split; [done | discriminate]. }
  split; [discriminate|]. intros _.
  destruct (writeAll (mParameters p) script) as [[calls' ok]|] eqn:Hrec;
    [|discriminate].
  cbn in Hw. destruct (writeAll_prefix _ _ _ _ Hrec) as (k & -> & Hk & Htrue & Hfalse).
  fold writes in Hk, Htrue. exists k.
  destruct ok; injection Hw as <- <-; (split; [done|]).
  - left. destruct Htrue as [-> Hall]; done.
  - right. destruct Hfalse as [Hpos Hst]; [done|]. split; [lia|]. done.
Qed.

Lemma OnWriteAll_writes_writable_witness :
  let p := mkPanel true true
             [mkADC_DAC "VCTCXO DAC" true 125%Q 0 "";
              mkADC_DAC "Board Temperature" false 0%Q 1 "C";
              mkADC_DAC "Gain" true 7%Q 2 ""] [] in
  let writes := map (fun q => WriteParam (adc_channel q) (adc_value q))
                    (filter (fun q => adc_writable q = true) (mParameters p)) in
  exists calls ui,
    OnWriteAll p [0; 5] = Some (calls, ui)
    /\ (isOpen p = false ->
        calls = [] /\ ui = [MessageBox "Device not connected" "Warning"])
    /\ (isOpen p = true ->
        exists k,
          calls = take k writes
          /\ ((k = length writes
               /\ Forall (fun st => st = 0) (take k [0; 5])
               /\ ui = if additionalControls p
                       then [PostEvent WRITE_ALL_VALUES] else [])
              \/ ((0 < k <= length writes)%nat
                  /\ (exists st, [0; 5] !! (k - 1)%nat = Some st /\ st <> 0)
                  /\ ui = [MessageBox "Failes to write values" "Warning"]))).
Proof.
  intros p writes. eexists _, _. split; [vm_compute; reflexivity|].
  apply (OnWriteAll_writes_writable p [0; 5]). vm_compute. reflexivity.
Defined.



